(** * dev-trader-pro: the compounding plan engine and the demo margin trader

    A shallow embedding of [src/src/App.jsx]:
    - [JSNumber]: the JavaScript Number type (IEEE 754 binary64) with the
      operations the program uses, [Number(string)] and [Math.round];
    - [Plan]: [recalculatePlan], as a pure function on the document and as
      a program on a store of objects (deep copy, then in-place writes);
    - [Trader]: [handleMarketOrder], [handleClosePosition] and
      [checkPriceTriggers] of the [DemoTrader] component, as functions on
      the component's state;
    - [Feed]: the simulated price feed [useSimulatedPrices];
    - [Desk]: the live update of the positions and the figures of the
      order panel;
    - [JSLibrary]: [Math.abs], [Math.floor], [toFixed(2)] and
      [parseInt(s, 10)];
    - [Journal]: the handlers of the journal, which edit a day and
      recalculate, and the look-up of today's day;
    - [Calendar]: the dates the plan needs, as an interface, and the UTC
      calendar;
    - [Structure]: [getNextTradingDay], [getTodayDateString],
      [generatePlanStructure], [handleUpdateTargets] and
      [createNewJournal]. *)

From Stdlib Require Import ZArith QArith Qround Qabs Qpower Qreduction Lia Lqa.
From Stdlib Require Import String Ascii List Bool.
From stdpp Require Import base list option strings gmap.
Import ListNotations.

Local Open Scope Q_scope.

(** ** JavaScript numbers *)

Module JSNumber.

(** A Number is NaN, an infinity, or a finite value.  Finite values are
    kept as rationals; every arithmetic operation rounds its exact result
    to binary64 (round to nearest, ties to even) with [rnd64].  The sign of
    zero is not tracked: the program never divides by a zero it has not
    tested, and never inspects the sign of a zero. *)
Inductive number : Type :=
  | NaN
  | Inf (negative : bool)
  | Fin (q : Q).

(** [floor_log2 q] for [0 < q]: the [L] with [2^L <= q < 2^(L+1)]. *)
Definition floor_log2 (q : Q) : Z :=
  let L0 := (Z.log2 (Qnum q) - Z.log2 (Zpos (Qden q)))%Z in
  if Qle_bool (2 ^ L0) q then L0 else (L0 - 1)%Z.

(** Round to the nearest integer, ties to the even one. *)
Definition rne (x : Q) : Z :=
  let f := Qfloor x in
  match Qcompare (x - inject_Z f) (1 # 2) with
  | Lt => f
  | Gt => (f + 1)%Z
  | Eq => if Z.even f then f else (f + 1)%Z
  end.

(** Exponent of the unit in the last place of [q] in binary64: 53
    significant bits, subnormals below [2^-1022]. *)
Definition ulp_exp (q : Q) : Z := Z.max (floor_log2 q - 52) (-1074).

(** Rounding of a positive rational; [None] is overflow. *)
Definition rnd_abs (q : Q) : option Q :=
  let e := ulp_exp q in
  let v := Qred (inject_Z (rne (q / 2 ^ e)) * 2 ^ e) in
  if Qle_bool (2 ^ 1024) v then None else Some v.

Definition rnd64 (q : Q) : number :=
  match Qcompare q 0 with
  | Eq => Fin 0
  | Gt => match rnd_abs q with Some v => Fin v | None => Inf false end
  | Lt => match rnd_abs (- q) with Some v => Fin (- v) | None => Inf true end
  end.

Definition of_Z (z : Z) : number := rnd64 (inject_Z z).

Definition neg (x : number) : number :=
  match x with
  | NaN => NaN
  | Inf s => Inf (negb s)
  | Fin q => Fin (- q)
  end.

Definition add (x y : number) : number :=
  match x, y with
  | NaN, _ | _, NaN => NaN
  | Inf s, Inf t => if Bool.eqb s t then Inf s else NaN
  | Inf s, Fin _ => Inf s
  | Fin _, Inf t => Inf t
  | Fin a, Fin b => rnd64 (a + b)
  end.

Definition sub (x y : number) : number := add x (neg y).

(** Sign of a finite operand, zero counted as positive. *)
Definition is_neg (q : Q) : bool :=
  match Qcompare q 0 with Lt => true | _ => false end.

Definition is_zero (q : Q) : bool := Qeq_bool q 0.

Definition mul (x y : number) : number :=
  match x, y with
  | NaN, _ | _, NaN => NaN
  | Inf s, Inf t => Inf (xorb s t)
  | Inf s, Fin b => if is_zero b then NaN else Inf (xorb s (is_neg b))
  | Fin a, Inf t => if is_zero a then NaN else Inf (xorb (is_neg a) t)
  | Fin a, Fin b => rnd64 (a * b)
  end.

Definition div (x y : number) : number :=
  match x, y with
  | NaN, _ | _, NaN => NaN
  | Inf _, Inf _ => NaN
  | Inf s, Fin b => Inf (xorb s (is_neg b))
  | Fin _, Inf _ => Fin 0
  | Fin a, Fin b =>
      if is_zero b then (if is_zero a then NaN else Inf (is_neg a))
      else rnd64 (a / b)
  end.

(** The relational operators; every comparison with NaN is false. *)
Definition ltb (x y : number) : bool :=
  match x, y with
  | NaN, _ | _, NaN => false
  | Inf s, Inf t => s && negb t
  | Inf s, Fin _ => s
  | Fin _, Inf t => negb t
  | Fin a, Fin b => match Qcompare a b with Lt => true | _ => false end
  end.

Definition eqb (x y : number) : bool :=
  match x, y with
  | NaN, _ | _, NaN => false
  | Inf s, Inf t => Bool.eqb s t
  | Fin a, Fin b => Qeq_bool a b
  | _, _ => false
  end.

Definition gtb (x y : number) : bool := ltb y x.
Definition leb (x y : number) : bool := ltb x y || eqb x y.
Definition geb (x y : number) : bool := leb y x.

Definition isNaN (x : number) : bool :=
  match x with NaN => true | _ => false end.

Definition isFinite (x : number) : bool :=
  match x with Fin _ => true | _ => false end.

(** ToBoolean on a Number: NaN and zero are falsy. *)
Definition truthy (x : number) : bool :=
  match x with
  | NaN => false
  | Inf _ => true
  | Fin q => negb (is_zero q)
  end.

(** [x || d] on Numbers. *)
Definition or_else (x d : number) : number := if truthy x then x else d.

(** [Math.round]: the nearest integer, ties towards +Infinity.  The result
    of rounding a binary64 value is a binary64 value, so no [rnd64]. *)
Definition Math_round (x : number) : number :=
  match x with
  | Fin q => Fin (inject_Z (Qfloor (q + (1 # 2))))
  | _ => x
  end.

(** *** [Number(string)]

    StringToNumber of ECMAScript: white space is trimmed, the empty string
    is 0, then a signed decimal literal (with [Infinity], a fraction and an
    exponent part) or an unsigned [0x], [0o], [0b] literal; anything else
    is NaN.  White space is the ASCII part of StrWhiteSpaceChar. *)

Definition is_ws (c : ascii) : bool :=
  let n := nat_of_ascii c in
  ((9 <=? n) && (n <=? 13) || (n =? 32))%nat.

Fixpoint drop_ws (cs : list ascii) : list ascii :=
  match cs with
  | c :: r => if is_ws c then drop_ws r else cs
  | [] => []
  end.

Definition trim (cs : list ascii) : list ascii :=
  rev (drop_ws (rev (drop_ws cs))).

(** Value of a digit in a base, if it is one. *)
Definition digit_val (base : Z) (c : ascii) : option Z :=
  let n := Z.of_nat (nat_of_ascii c) in
  let v := (if (48 <=? n) && (n <=? 57) then n - 48
            else if (97 <=? n) && (n <=? 102) then n - 87
            else if (65 <=? n) && (n <=? 70) then n - 55
            else 99)%Z in
  if (v <? base)%Z then Some v else None.

(** [span_digits base acc len cs]: the longest prefix of digits, as its
    value, its length, and the rest. *)
Fixpoint span_digits (base acc : Z) (len : nat) (cs : list ascii)
  : Z * nat * list ascii :=
  match cs with
  | c :: r =>
      match digit_val base c with
      | Some v => span_digits base (acc * base + v)%Z (S len) r
      | None => (acc, len, cs)
      end
  | [] => (acc, len, [])
  end.

Definition pow10 (e : Z) : Q := 10 ^ e.

(** ExponentPart, or nothing; [None] when what follows is neither. *)
Definition parse_exponent (cs : list ascii) : option Z :=
  match cs with
  | [] => Some 0%Z
  | c :: r =>
      if (Ascii.eqb c "e" || Ascii.eqb c "E")%bool then
        let '(sgn, r') :=
          match r with
          | s :: r' =>
              if Ascii.eqb s "-" then ((-1)%Z, r')
              else if Ascii.eqb s "+" then (1%Z, r') else (1%Z, r)
          | [] => (1%Z, r)
          end in
        match span_digits 10 0 0 r' with
        | (_, O, _) => None
        | (v, _, []) => Some (sgn * v)%Z
        | _ => None
        end
      else None
  end.

(** StrUnsignedDecimalLiteral without [Infinity]: the exact value. *)
Definition parse_unsigned_decimal (cs : list ascii) : option Q :=
  let '(iv, ilen, r1) := span_digits 10 0 0 cs in
  let '(fv, flen, r2) :=
    match r1 with
    | c :: r => if Ascii.eqb c "." then span_digits 10 iv 0 r else (iv, O, r1)
    | [] => (iv, O, r1)
    end in
  match ilen, flen with
  | O, O => None
  | _, _ =>
      match parse_exponent r2 with
      | Some e => Some (inject_Z fv * pow10 (e - Z.of_nat flen))
      | None => None
      end
  end.

Definition Infinity_lit : list ascii := list_ascii_of_string "Infinity".

Definition list_ascii_eqb (a b : list ascii) : bool :=
  String.eqb (string_of_list_ascii a) (string_of_list_ascii b).

Definition parse_decimal (cs : list ascii) : number :=
  let '(s, r) :=
    match cs with
    | c :: r' =>
        if Ascii.eqb c "-" then (true, r')
        else if Ascii.eqb c "+" then (false, r') else (false, cs)
    | [] => (false, cs)
    end in
  if list_ascii_eqb r Infinity_lit then Inf s
  else match parse_unsigned_decimal r with
       | Some q => rnd64 (if s then - q else q)
       | None => NaN
       end.

Definition parse_radix (base : Z) (cs : list ascii) : number :=
  match span_digits base 0 0 cs with
  | (_, O, _) => NaN
  | (v, _, []) => rnd64 (inject_Z v)
  | _ => NaN
  end.

Definition StringToNumber (s : string) : number :=
  match trim (list_ascii_of_string s) with
  | [] => Fin 0
  | (c :: d :: r) as cs =>
      if Ascii.eqb c "0" then
        if (Ascii.eqb d "x" || Ascii.eqb d "X")%bool then parse_radix 16 r
        else if (Ascii.eqb d "o" || Ascii.eqb d "O")%bool then parse_radix 8 r
        else if (Ascii.eqb d "b" || Ascii.eqb d "B")%bool then parse_radix 2 r
        else parse_decimal cs
      else parse_decimal cs
  | cs => parse_decimal cs
  end.

(** *** A reference [Math.pow]

    ECMAScript fixes the special cases of Number::exponentiate and leaves
    the general case implementation-approximated.  [recalculatePlan] below
    is parametric in [Math.pow]; [Math_pow_ref] is one implementation, used
    to run the program on concrete documents.  Its general case evaluates
    [exp (y * ln b)] by series in fixed point, with 100 fractional bits,
    and rounds the result to binary64. *)

Definition fx_bits : Z := 100.

(** The fixed-point number [X] stands for [X / 2^100]. *)
Definition fx_of (q : Q) : Z := Qfloor (q * inject_Z (2 ^ fx_bits)).

Definition fx_mul (X Y : Z) : Z := Z.shiftr (X * Y) fx_bits.

(** [atanh z = z + z^3/3 + z^5/5 + ...], for [|z| <= 1/3]. *)
Fixpoint atanh_sum (z2 term acc k : Z) (n : nat) : Z :=
  match n with
  | O => acc
  | S n' => atanh_sum z2 (fx_mul term z2) (acc + term / k) (k + 2) n'
  end.

Definition atanh_fx (z : Z) : Z := atanh_sum (fx_mul z z) z 0 1 34.

Definition ln2_fx : Z := Eval vm_compute in 2 * atanh_fx (fx_of (1 # 3)).

(** Natural logarithm of a positive rational: [q = t * 2^k] with
    [1 <= t < 2], and [ln t = 2 atanh ((t - 1) / (t + 1))]. *)
Definition ln_fx (q : Q) : Z :=
  let k := floor_log2 q in
  let t := q / 2 ^ k in
  (k * ln2_fx + 2 * atanh_fx (fx_of ((t - 1) / (t + 1))))%Z.

(** [exp r = 1 + r + r^2/2! + ...], for [|r| <= (ln 2) / 2]. *)
Fixpoint exp_sum (r term acc j : Z) (n : nat) : Z :=
  match n with
  | O => acc
  | S n' => exp_sum r (fx_mul term r / j) (acc + term) (j + 1) n'
  end.

Definition exp_fx (r : Z) : Z := exp_sum r (2 ^ fx_bits) 0 1 26.

(** [b ^ y] for finite [b > 0] and finite [y]:
    [y * ln b = n * ln 2 + r], and [b ^ y = exp r * 2^n]. *)
Definition pow_pos (b y : Q) : number :=
  let w := Qfloor (y * inject_Z (ln_fx b)) in
  let n := ((2 * w + ln2_fx) / (2 * ln2_fx))%Z in
  if (1100 <? n)%Z then Inf false
  else if (n <? -1200)%Z then Fin 0
  else rnd64 (inject_Z (exp_fx (w - n * ln2_fx)) * 2 ^ (n - fx_bits)).

Definition is_integer (q : Q) : bool := Qeq_bool (inject_Z (Qfloor q)) q.

Definition is_odd_integer (q : Q) : bool :=
  is_integer q && Z.odd (Qfloor q).

Definition Math_pow_ref (base exponent : number) : number :=
  match exponent with
  | NaN => NaN
  | Fin y =>
      if is_zero y then Fin 1
      else
        match base with
        | NaN => NaN
        | Inf false => if is_neg y then Fin 0 else Inf false
        | Inf true =>
            if is_neg y then Fin 0 else Inf (is_odd_integer y)
        | Fin b =>
            if is_zero b then (if is_neg y then Inf false else Fin 0)
            else if is_neg b then
              if is_integer y then
                (if Z.odd (Qfloor y) then neg (pow_pos (- b) y)
                 else pow_pos (- b) y)
              else NaN
            else pow_pos b y
        end
  | Inf s =>
      match base with
      | NaN => NaN
      | Inf _ => if s then Fin 0 else Inf false
      | Fin b =>
          if is_zero b then (if s then Inf false else Fin 0)
          else
            match Qcompare (Qabs b) 1 with
            | Gt => if s then Fin 0 else Inf false
            | Eq => NaN
            | Lt => if s then Inf false else Fin 0
            end
      end
  end.

End JSNumber.

(** ** The plan document *)

Module Plan.
Import JSNumber.

(** A field value as the program sees it: [null], a Number or a String.
    [actual] is the empty string until an outcome is recorded, then the
    text of the input box or of [toFixed(2)], or a number in older data. *)
Inductive jsval : Type :=
  | JNull
  | JNum (n : number)
  | JStr (s : string).

Record Rule : Type := mkRule { text : string; checked : bool }.

(** One trading day: [capital], [target], [profit] and [dailyRate] are the
    financial fields, written by [recalculatePlan]; the rest is the
    journal. *)
Record Day : Type := mkDay {
  day : Z;
  date : string;
  capital : jsval;
  target : jsval;
  profit : jsval;
  dailyRate : jsval;
  achieved : bool;
  pnlSign : string;
  actual : jsval;
  winningTrades : string;
  losingTrades : string;
  logic : string;
  rules : list Rule
}.

Record Month : Type := mkMonth {
  id : Z;
  monthName : string;
  days : list Day
}.

(** [fullData]: the fields of the document that [recalculatePlan] reads.
    [months] is the list of months itself where the program is read as a
    function on values, and a reference to the array where it is read as
    a program on the store of objects. *)
Record Document (A : Type) : Type := mkDocument {
  initialCapital : number;
  finalTarget : number;
  tenure : number;
  months : A
}.
Arguments mkDocument {A} _ _ _ _.
Arguments initialCapital {A} _.
Arguments finalTarget {A} _.
Arguments tenure {A} _.
Arguments months {A} _.

(** [{ ...P, months: ms }]. *)
Definition set_months {A B : Type} (P : Document A) (ms : B) : Document B :=
  mkDocument (initialCapital P) (finalTarget P) (tenure P) ms.

(** *** Constants *)

Definition DEFAULT_INITIAL_CAPITAL : number := Fin 50000.
Definition DEFAULT_FINAL_TARGET : number := Fin 1000000.
Definition DEFAULT_TENURE_DAYS : number := Fin 66.

Definition num0 : number := Fin 0.
Definition num1 : number := Fin 1.
Definition num2 : number := Fin 2.
(** The literals [0.01] and [-0.5]. *)
Definition num_0_01 : number := Eval vm_compute in rnd64 (1 # 100).
Definition num_m0_5 : number := Fin (- (1 # 2)).

(** *** [JSON.parse(JSON.stringify(v))]

    Strings, booleans and finite numbers come back as they are; NaN and
    the infinities are written as [null]. *)

Definition json_val (v : jsval) : jsval :=
  match v with
  | JNum n => if isFinite n then JNum n else JNull
  | _ => v
  end.

Definition json_day (d : Day) : Day :=
  mkDay (day d) (date d)
    (json_val (capital d)) (json_val (target d))
    (json_val (profit d)) (json_val (dailyRate d))
    (achieved d) (pnlSign d) (json_val (actual d))
    (winningTrades d) (losingTrades d) (logic d) (rules d).

Definition json_month (m : Month) : Month :=
  mkMonth (id m) (monthName m) (map json_day (days m)).

Definition json_months (ms : list Month) : list Month := map json_month ms.

(** [months.flatMap(m => m.days)]. *)
Definition allDays (ms : list Month) : list Day := flat_map days ms.

(** *** Results of a run *)

(** [OutOfFuel]: the first loop has not finished within the given number
    of iterations.  [TypeError]: a property of [undefined] was read. *)
Inductive outcome (A : Type) : Type :=
  | Done (a : A)
  | OutOfFuel
  | TypeError.
Arguments Done {A} a.
Arguments OutOfFuel {A}.
Arguments TypeError {A}.

Definition bind {A B} (x : outcome A) (f : A -> outcome B) : outcome B :=
  match x with
  | Done a => f a
  | OutOfFuel => OutOfFuel
  | TypeError => TypeError
  end.

Notation "'let*' x ':=' e 'in' k" := (bind e (fun x => k))
  (at level 10, x pattern, e at level 200, k at level 200).

(** An element of [plannedGoals]. *)
Record Goal : Type := mkGoal { g_target : number; g_profit : number }.

(** [Number(v)] for a field value. *)
Definition ToNumber (v : jsval) : number :=
  match v with
  | JNull => Fin 0
  | JNum n => n
  | JStr s => StringToNumber s
  end.

(** [v !== ""]. *)
Definition is_recorded (v : jsval) : bool :=
  match v with
  | JStr s => negb (String.eqb s "")
  | _ => true
  end.

(** The signed outcome of a day whose [actual] is not the empty string. *)
Definition signedProfit (d : Day) : number :=
  let actualProfit := or_else (ToNumber (actual d)) num0 in
  if String.eqb (pnlSign d) "+" then actualProfit else neg actualProfit.

(** *** The store of objects *)

Abbreviation ref := nat.

(** The objects of a plan: a day, a month ([days] refers to an array),
    an array of references.  The [rules] of a day are not written by this
    program and stay inside the day. *)
Inductive object : Type :=
  | ODay (d : Day)
  | OMonth (i : Z) (name : string) (days_ref : ref)
  | OArray (elems : list ref).

(** The store: object [r] is at position [r]; a new object is put at the
    end. *)
Abbreviation store := (list object).

Definition alloc (o : object) (s : store) : ref * store :=
  (length s, s ++ [o]).

Definition read_day (s : store) (r : ref) : option Day :=
  match s !! r with Some (ODay d) => Some d | _ => None end.

Definition read_array (s : store) (r : ref) : option (list ref) :=
  match s !! r with Some (OArray rs) => Some rs | _ => None end.

Definition read_month (s : store) (r : ref) : option Month :=
  match s !! r with
  | Some (OMonth i name a) =>
      rs ← read_array s a;
      ds ← mapM (read_day s) rs;
      Some (mkMonth i name ds)
  | _ => None
  end.

(** The months behind a reference to a months array. *)
Definition read_months (s : store) (r : ref) : option (list Month) :=
  rs ← read_array s r; mapM (read_month s) rs.

(** [JSON.parse] of the text of a list of months: every object is new. *)
Fixpoint parse_days (ds : list Day) (s : store) : list ref * store :=
  match ds with
  | [] => ([], s)
  | d :: ds' =>
      let '(r, s1) := alloc (ODay d) s in
      let '(rs, s2) := parse_days ds' s1 in
      (r :: rs, s2)
  end.

Fixpoint parse_months (ms : list Month) (s : store) : list ref * store :=
  match ms with
  | [] => ([], s)
  | m :: ms' =>
      let '(drefs, s1) := parse_days (days m) s in
      let '(a, s2) := alloc (OArray drefs) s1 in
      let '(r, s3) := alloc (OMonth (id m) (monthName m) a) s2 in
      let '(rs, s4) := parse_months ms' s3 in
      (r :: rs, s4)
  end.

Definition JSON_parse (ms : list Month) (s : store) : ref * store :=
  let '(rs, s1) := parse_months ms s in alloc (OArray rs) s1.

(** [newMonths.flatMap(m => m.days)]: the references to the day objects. *)
Definition days_of (s : store) (r : ref) : option (list ref) :=
  match s !! r with
  | Some (OMonth _ _ a) => read_array s a
  | _ => None
  end.

Definition allDays_refs (s : store) (r : ref) : option (list ref) :=
  rs ← read_array s r; @List.concat ref <$> mapM (days_of s) rs.

Section Recalculate.

(** [Math.pow], as the engine provides it. *)
Variable Math_pow : number -> number -> number.

Definition validTenure {A} (P : Document A) : number :=
  if gtb (tenure P) num0 then tenure P else DEFAULT_TENURE_DAYS.

Definition validInitialCapital {A} (P : Document A) : number :=
  if gtb (initialCapital P) num0 then initialCapital P
  else DEFAULT_INITIAL_CAPITAL.

Definition validFinalTarget {A} (P : Document A) : number :=
  if gtb (finalTarget P) (validInitialCapital P) then finalTarget P
  else mul (validInitialCapital P) num2.

Definition dailyRate0 {A} (P : Document A) : number :=
  sub (Math_pow (div (validFinalTarget P) (validInitialCapital P))
                (div num1 (validTenure P)))
      num1.

Definition initialDailyRate {A} (P : Document A) : number :=
  let r := dailyRate0 P in
  if isNaN r || negb (isFinite r) || ltb r num_m0_5 then num_0_01 else r.

(** The first loop: [for (let i = 0; i < validTenure; i++)], one goal
    pushed per iteration.  The counter is a Number, so the loop is not
    structurally bounded: [fuel] bounds the iterations, and a loop that
    needs more ends in [OutOfFuel]. *)
Fixpoint plannedLoop (fuel : nat) (vT rate i plannedCapital : number)
    (plannedGoals : list Goal) : outcome (list Goal) :=
  if ltb i vT then
    match fuel with
    | O => OutOfFuel
    | S fuel' =>
        let plannedTarget := mul plannedCapital (add num1 rate) in
        let plannedProfit := sub plannedTarget plannedCapital in
        plannedLoop fuel' vT rate (add i num1) plannedTarget
          (plannedGoals ++
             [mkGoal (Math_round plannedTarget) (Math_round plannedProfit)])
    end
  else Done plannedGoals.

(** The variables of the second loop. *)
Record Walk : Type := mkWalk {
  plannedGoals : list Goal;
  actualCapital : number;
  totalDaysElapsed : nat
}.

(** The goals after the [if (totalDaysElapsed >= plannedGoals.length)]
    block: the last goal is pushed once more, or, on an empty array,
    [{ target: actualCapital, profit: 0 }]. *)
Definition extendGoals (w : Walk) : list Goal :=
  if (length (plannedGoals w) <=? totalDaysElapsed w)%nat then
    let lastGoal :=
      match last (plannedGoals w) with
      | Some g => g
      | None => mkGoal (actualCapital w) num0
      end in
    plannedGoals w ++ [mkGoal (g_target lastGoal) (g_profit lastGoal)]
  else plannedGoals w.

(** The body of [for (let day of allDays)]: the day as it is left, and the
    variables for the next iteration. *)
Definition walkDay (w : Walk) (d : Day) : outcome (Day * Walk) :=
  let goals := extendGoals w in
  match goals !! totalDaysElapsed w with
  | None => TypeError
  | Some g =>
      let a := actualCapital w in
      let rate :=
        if gtb a num0 && gtb (g_target g) a
        then sub (div (g_target g) a) num1 else num0 in
      let d' :=
        mkDay (day d) (date d)
          (JNum (Math_round a)) (JNum (g_target g))
          (JNum (g_profit g)) (JNum rate)
          (achieved d) (pnlSign d) (actual d)
          (winningTrades d) (losingTrades d) (logic d) (rules d) in
      let a' :=
        if is_recorded (actual d) then add a (signedProfit d)
        else g_target g in
      Done (d', mkWalk goals a' (S (totalDaysElapsed w)))
  end.

Fixpoint walkDays (w : Walk) (ds : list Day) : outcome (list Day * Walk) :=
  match ds with
  | [] => Done ([], w)
  | d :: ds' =>
      let* (d', w1) := walkDay w d in
      let* (ds'', w2) := walkDays w1 ds' in
      Done (d' :: ds'', w2)
  end.

(** [allDays] is the days of all months in order, and the day objects are
    shared with [newMonths]: walking [allDays] is walking the months one
    after the other. *)
Fixpoint walkMonths (w : Walk) (ms : list Month)
  : outcome (list Month * Walk) :=
  match ms with
  | [] => Done ([], w)
  | m :: ms' =>
      let* (ds, w1) := walkDays w (days m) in
      let* (ms'', w2) := walkMonths w1 ms' in
      Done (mkMonth (id m) (monthName m) ds :: ms'', w2)
  end.

Definition recalculatePlan (fuel : nat) (fullData : Document (list Month))
  : outcome (list Month) :=
  let newMonths := json_months (months fullData) in
  let* goals := plannedLoop fuel (validTenure fullData)
                   (initialDailyRate fullData) num0
                   (validInitialCapital fullData) [] in
  let* (ms, _) := walkMonths
                     (mkWalk goals (validInitialCapital fullData) 0)
                     newMonths in
  Done ms.

(** *** The same program on the store of objects

    [recalculatePlan] receives a reference to the months array.
    [JSON.stringify] reads the structure behind it, [JSON.parse] builds a
    new structure out of new objects, [flatMap] collects the references
    to the new day objects, the loop writes into these objects, and the
    reference to the new array is returned. *)

(** The second loop, writing into the day objects. *)
Fixpoint walkRefs (w : Walk) (rs : list ref) (s : store)
  : outcome (store * Walk) :=
  match rs with
  | [] => Done (s, w)
  | r :: rs' =>
      match read_day s r with
      | Some d =>
          let* (d', w1) := walkDay w d in
          walkRefs w1 rs' (<[r := ODay d']> s)
      | None => TypeError
      end
  end.

Definition recalculatePlan_store (fuel : nat) (s : store)
    (fullData : Document ref) : outcome (ref * store) :=
  match read_months s (months fullData) with
  | None => TypeError
  | Some ms =>
      let '(newMonths, s1) := JSON_parse (json_months ms) s in
      match allDays_refs s1 newMonths with
      | None => TypeError
      | Some allDays =>
          let* goals := plannedLoop fuel (validTenure fullData)
                           (initialDailyRate fullData) num0
                           (validInitialCapital fullData) [] in
          let* (s2, _) := walkRefs
                            (mkWalk goals (validInitialCapital fullData) 0)
                            allDays s1 in
          Done (newMonths, s2)
      end
  end.

End Recalculate.

End Plan.

(** ** The demo trader *)

Module Trader.
Import JSNumber.

(** [LOT_SIZE]: the standard lot size for forex. *)
Definition LOT_SIZE : number := Fin 100000.

Record Symbol : Type := mkSymbol {
  name : string;
  tv : string;
  base : number;
  pips : number;
  spread : number
}.

Definition dec (n : Z) (d : positive) : number :=
  Eval cbv beta in rnd64 (n # d).

Definition ALL_SYMBOLS : list Symbol :=
  [ mkSymbol "EUR/USD" "FX:EURUSD" (dec 10850 10000) (dec 1 10000) (dec 12 10);
    mkSymbol "GBP/USD" "FX:GBPUSD" (dec 12680 10000) (dec 1 10000) (dec 15 10);
    mkSymbol "USD/JPY" "FX:USDJPY" (dec 15720 100) (dec 1 100) (dec 14 10);
    mkSymbol "XAU/USD" "OANDA:XAUUSD" (dec 235000 100) (dec 1 100) (dec 250 10);
    mkSymbol "BTC/USD" "COINBASE:BTCUSD" (dec 6500000 100) (dec 1 100) (dec 500 10);
    mkSymbol "ETH/USD" "COINBASE:ETHUSD" (dec 350000 100) (dec 1 100) (dec 25 10) ].

(** [hay.includes(needle)]. *)
Fixpoint includes (needle hay : string) : bool :=
  String.prefix needle hay ||
  match hay with
  | EmptyString => false
  | String _ rest => includes needle rest
  end.

(** [(symbol.includes('BTC') || symbol.includes('ETH')) ? 1 : LOT_SIZE]. *)
Definition contractSize (symbol : string) : number :=
  if includes "BTC" symbol || includes "ETH" symbol then Fin 1 else LOT_SIZE.

Inductive Side : Type := BUY | SELL.

Inductive Reason : Type := ManualClose | StopLossHit | TakeProfitHit.

(** An entry of [prices]. *)
Record Quote : Type := mkQuote { bid : number; ask : number }.

(** An open position.  [stopLoss] and [takeProfit] are [null] or a
    Number.  The chart line attached to a position belongs to the chart
    and is left out. *)
Record Position : Type := mkPosition {
  id : string;
  symbol : string;
  type : Side;
  lots : number;
  leverage : number;
  entryPrice : number;
  stopLoss : option number;
  takeProfit : option number;
  pnl : number;
  openTime : string
}.

(** An entry of [tradeHistory]: [{ ...pos, exitPrice, closeTime,
    pnl: realizedPnl, reason }]. *)
Record ClosedTrade : Type := mkClosedTrade {
  position : Position;
  exitPrice : number;
  closeTime : string;
  realized : number;
  reason : Reason
}.

(** What [showMessage] is called with. *)
Inductive Message : Type :=
  | PricesNotLoaded
  | PricesUnavailable
  | MarketPricesNotAvailable
  | NotEnoughFreeMargin
  | Opened (t : Side) (l : number) (sym : string) (price : number)
  | Closed (sym : string) (realizedPnl : number) (r : Reason) (isProfit : bool).

(** The state of the component that the three handlers read and write,
    with what they pass to [onNewMessage] and [onTradeClose]. *)
Record State : Type := mkState {
  positions : list Position;
  tradeHistory : list ClosedTrade;
  prices : gmap string Quote;
  pricesRef : option (gmap string Quote);
  selectedSymbol : string;
  formLots : number;
  formLeverage : number;
  formStopLoss : string;
  formTakeProfit : string;
  availableCapital : number;
  messages : list Message;
  reported : list number
}.

Definition set_positions (st : State) (ps : list Position) : State :=
  mkState ps (tradeHistory st) (prices st) (pricesRef st) (selectedSymbol st)
    (formLots st) (formLeverage st) (formStopLoss st) (formTakeProfit st)
    (availableCapital st) (messages st) (reported st).

Definition showMessage (st : State) (m : Message) : State :=
  mkState (positions st) (tradeHistory st) (prices st) (pricesRef st)
    (selectedSymbol st) (formLots st) (formLeverage st) (formStopLoss st)
    (formTakeProfit st) (availableCapital st) (messages st ++ [m])
    (reported st).

(** ToBoolean of a value that is [null] or a Number. *)
Definition truthy_opt (x : option number) : bool :=
  match x with Some n => truthy n | None => false end.

(** The margin a position ties up. *)
Definition marginOf (pos : Position) : number :=
  div (mul (mul (entryPrice pos) (lots pos)) (contractSize (symbol pos)))
      (leverage pos).

(** [positions.reduce((acc, pos) => acc + (pos.pnl || 0), 0)]. *)
Definition totalPnl (ps : list Position) : number :=
  fold_left (fun acc pos => add acc (or_else (pnl pos) (Fin 0))) ps (Fin 0).

Definition marginUsed (ps : list Position) : number :=
  fold_left (fun acc pos => add acc (marginOf pos)) ps (Fin 0).

Definition freeMargin (st : State) : number :=
  sub (add (availableCapital st) (totalPnl (positions st)))
      (marginUsed (positions st)).

Section Handlers.

(** [parseFloat], as the engine provides it. *)
Variable parseFloat : string -> number.

(** [text ? parseFloat(text) : null]. *)
Definition parse_level (text : string) : option number :=
  if String.eqb text "" then None else Some (parseFloat text).

(** [handleMarketOrder(type)]; [uuid] and [now] are what
    [crypto.randomUUID()] and [new Date().toLocaleString()] return. *)
Definition handleMarketOrder (uuid now : string) (t : Side) (st : State)
  : State :=
  match prices st !! selectedSymbol st with
  | None => showMessage st MarketPricesNotAvailable
  | Some currentPrice =>
      let price := match t with BUY => ask currentPrice
                              | SELL => bid currentPrice end in
      let positionValue :=
        mul (mul price (formLots st)) (contractSize (selectedSymbol st)) in
      let marginRequired := div positionValue (formLeverage st) in
      if gtb marginRequired (freeMargin st) then
        showMessage st NotEnoughFreeMargin
      else
        let newPosition :=
          mkPosition uuid (selectedSymbol st) t (formLots st)
            (formLeverage st) price
            (parse_level (formStopLoss st)) (parse_level (formTakeProfit st))
            (Fin 0) now in
        let st1 := set_positions st (positions st ++ [newPosition]) in
        let st2 :=
          showMessage st1 (Opened t (formLots st) (selectedSymbol st) price) in
        mkState (positions st2) (tradeHistory st2) (prices st2) (pricesRef st2)
          (selectedSymbol st2) (formLots st2) (formLeverage st2) "" ""
          (availableCapital st2) (messages st2) (reported st2)
  end.

End Handlers.

(** The side-aware profit of closing [pos] at [exit]. *)
Definition realizedPnl (pos : Position) (exit : number) : number :=
  mul (mul (match type pos with
            | BUY => sub exit (entryPrice pos)
            | SELL => sub (entryPrice pos) exit
            end) (lots pos))
      (contractSize (symbol pos)).

(** [handleClosePosition(pos, closePrice, reason)]; [pos] and
    [closePrice] may be [null].  [exit] is [closePrice || (bid or ask)]
    together with the guard before it: without a truthy [closePrice] and
    without a quote for the symbol there is no exit price, and the
    function only shows a message.  [now] is the reading of the clock,
    [reported] the arguments [onTradeClose] has been called with. *)
Definition handleClosePosition (now : string) (pos : option Position)
    (closePrice : option number) (r : Reason) (st : State) : State :=
  match pos with
  | None => st
  | Some pos =>
      match pricesRef st with
      | None => showMessage st PricesNotLoaded
      | Some currentPrices =>
          let currentSymbolPrice := currentPrices !! symbol pos in
          let exit :=
            if truthy_opt closePrice then closePrice
            else match currentSymbolPrice with
                 | Some q => Some (match type pos with
                                   | BUY => bid q
                                   | SELL => ask q
                                   end)
                 | None => None
                 end in
          match exit with
          | None => showMessage st PricesUnavailable
          | Some exitPrice =>
              let pl := realizedPnl pos exitPrice in
              let newHistoryTrade := mkClosedTrade pos exitPrice now pl r in
              let st1 :=
                mkState (positions st) (newHistoryTrade :: tradeHistory st)
                  (prices st) (pricesRef st) (selectedSymbol st) (formLots st)
                  (formLeverage st) (formStopLoss st) (formTakeProfit st)
                  (availableCapital st) (messages st) (reported st ++ [pl]) in
              let st2 :=
                showMessage st1 (Closed (symbol pos) pl r (geb pl (Fin 0))) in
              set_positions st2
                (filter (fun p => id p <> id pos) (positions st2))
          end
      end
  end.

(** The test of one position in [checkPriceTriggers]: [None] keeps the
    position, [Some (closePrice, reason)] closes it. *)
Definition trigger (b a : number) (pos : Position)
  : option (number * Reason) :=
  let viaStop :=
    match stopLoss pos with
    | Some sl =>
        if truthy sl then
          match type pos with
          | BUY => if leb b sl then Some (b, StopLossHit) else None
          | SELL => if geb a sl then Some (a, StopLossHit) else None
          end
        else None
    | None => None
    end in
  match viaStop with
  | Some c => Some c
  | None =>
      match takeProfit pos with
      | Some tp =>
          if truthy tp then
            match type pos with
            | BUY => if geb b tp then Some (b, TakeProfitHit) else None
            | SELL => if leb a tp then Some (a, TakeProfitHit) else None
            end
          else None
      | None => None
      end
  end.

(** The callback of [currentPositions.filter]: [None] for a position that
    is kept. *)
Definition decide_close (symbolName : string) (b a : number) (pos : Position)
  : option (Position * number * Reason) :=
  if negb (String.eqb (symbol pos) symbolName) then None
  else match trigger b a pos with
       | Some (closePrice, r) => Some (pos, closePrice, r)
       | None => None
       end.

(** [checkPriceTriggers(symbolName, bid, ask)]: the updater keeps the
    positions that are not triggered and calls [handleClosePosition] for
    the others, in order; the updates these calls queue run on the state
    the updater returns.  All the closes of one tick read the clock as
    [now]. *)
Definition checkPriceTriggers (now : string) (symbolName : string)
    (b a : number) (st : State) : State :=
  let positionsToClose :=
    omap (decide_close symbolName b a) (positions st) in
  let updatedPositions :=
    filter (fun pos => decide_close symbolName b a pos = None)
      (positions st) in
  fold_left
    (fun s '(pos, closePrice, r) =>
       handleClosePosition now (Some pos) (Some closePrice) r s)
    positionsToClose (set_positions st updatedPositions).

End Trader.

(** ** The simulated price feed *)

Module Feed.
Import JSNumber Trader.

(** An entry of the [prices] object of [useSimulatedPrices]: the quote,
    and [spread], [pips] and [tv] of the instrument.  A tick also copies
    [name] and [base] from the catalog into the entry; no code reads them
    from there. *)
Record Entry : Type := mkEntry {
  quote : Quote;
  e_spread : number;
  e_pips : number;
  e_tv : string
}.

(** An object with string keys, in the order in which the keys were
    added, which is the order of [Object.keys] and of [forEach]. *)
Abbreviation object := (list (string * Entry)).

(** [o[k]]. *)
Fixpoint get (k : string) (o : object) : option Entry :=
  match o with
  | [] => None
  | (k', v) :: r => if String.eqb k' k then Some v else get k r
  end.

(** [o[k] = v]: an existing key keeps its place. *)
Fixpoint set (k : string) (v : Entry) (o : object) : object :=
  match o with
  | [] => [(k, v)]
  | (k', v') :: r =>
      if String.eqb k' k then (k, v) :: r else (k', v') :: set k v r
  end.

(** [Object.keys(o)]. *)
Definition keys (o : object) : list string := map fst o.

(** [{ ...a, ...b }]. *)
Definition spread_objects (a b : object) : object :=
  fold_left (fun o kv => set (fst kv) (snd kv) o) b a.

Definition num_0_5 : number := Fin (1 # 2).

(** The entry the state starts with for one instrument. *)
Definition initialEntry (symbol : Symbol) : Entry :=
  let spread := mul (Trader.spread symbol) (pips symbol) in
  let mid := base symbol in
  mkEntry (mkQuote (sub mid (div spread (Fin 2))) (add mid (div spread (Fin 2))))
    (Trader.spread symbol) (pips symbol) (tv symbol).

(** The initializer of the [prices] state. *)
Definition initialPrices (symbols : list Symbol) : object :=
  fold_left (fun o symbol => set (name symbol) (initialEntry symbol) o)
    symbols [].

(** The new entry of one instrument in a tick.  [oldPrice] is
    [prices[symbolName]]; where there is none the catalog entry stands in
    for it, and has no [bid].  [random] is what [Math.random()] returns. *)
Definition tickEntry (symbolInfo : Symbol) (oldPrice : option Entry)
    (random : number) : Entry :=
  let oldBid :=
    match oldPrice with
    | Some e => or_else (bid (quote e)) (base symbolInfo)
    | None => base symbolInfo
    end in
  let oldSpread :=
    or_else (match oldPrice with
             | Some e => e_spread e
             | None => Trader.spread symbolInfo
             end) (Trader.spread symbolInfo) in
  let oldPips :=
    or_else (match oldPrice with
             | Some e => e_pips e
             | None => pips symbolInfo
             end) (pips symbolInfo) in
  let move := mul (sub random num_0_5) (mul (pips symbolInfo) (Fin 10)) in
  let newMid :=
    add (add oldBid (div (mul oldSpread oldPips) (Fin 2))) move in
  let spread := mul oldSpread oldPips in
  let newBid := sub newMid (div spread (Fin 2)) in
  let newAsk := add newMid (div spread (Fin 2)) in
  mkEntry (mkQuote newBid newAsk)
    (Trader.spread symbolInfo) (pips symbolInfo) (tv symbolInfo).

(** [ALL_SYMBOLS.find(s => s.name === symbolName)]. *)
Definition findSymbol (symbolName : string) : option Symbol :=
  find (fun s => String.eqb (name s) symbolName) ALL_SYMBOLS.

(** A call of [onPriceTick]. *)
Record Call : Type := mkCall {
  c_symbol : string;
  c_bid : number;
  c_ask : number
}.

(** The body of [symbolsToUpdate.forEach]: [newPrices] and the calls of
    [onPriceTick] so far are extended; [k] counts the calls of
    [Math.random], whose results are [random 0], [random 1], ... *)
Fixpoint tickSymbols (prices : object) (random : nat -> number)
    (symbolsToUpdate : list string) (k : nat)
    (newPrices : object) (calls : list Call) : object * list Call :=
  match symbolsToUpdate with
  | [] => (newPrices, calls)
  | symbolName :: rest =>
      match findSymbol symbolName with
      | None => tickSymbols prices random rest k newPrices calls
      | Some symbolInfo =>
          let e := tickEntry symbolInfo (get symbolName prices) (random k) in
          tickSymbols prices random rest (S k)
            (set symbolName e newPrices)
            (calls ++ [mkCall symbolName (bid (quote e)) (ask (quote e))])
      end
  end.

(** The interval callback.  [prices] is the state as the callback has
    captured it, [prevPrices] the state when the update runs; the result
    is the new state and the calls of [onPriceTick], in order. *)
Definition tick (prices prevPrices : object) (random : nat -> number)
  : object * list Call :=
  let '(newPrices, calls) :=
    tickSymbols prices random (keys prices) 0 [] [] in
  (spread_objects prevPrices newPrices, calls).

End Feed.

(** ** The trading desk: what the panel shows *)

Module Desk.
Import JSNumber Trader.




(** The figures of the trade panel. *)
Record Figures : Type := mkFigures {
  positionValue : number;
  marginRequired : number;
  f_totalPnl : number;
  f_marginUsed : number;
  f_freeMargin : number
}.

(** The memoized calculation for the panel: the value of the order is
    taken at the ask, and is 0 where there is no quote. *)
Definition figures (st : State) : Figures :=
  let currentSymbolPrices := prices st !! selectedSymbol st in
  let contractSize := contractSize (selectedSymbol st) in
  let positionValue :=
    or_else
      (match currentSymbolPrices with
       | Some q => mul (mul (ask q) (formLots st)) contractSize
       | None => NaN
       end) (Fin 0) in
  let marginRequired := div positionValue (formLeverage st) in
  let totalPnl := totalPnl (positions st) in
  let marginUsed := marginUsed (positions st) in
  let freeMargin := sub (add (availableCapital st) totalPnl) marginUsed in
  mkFigures positionValue marginRequired totalPnl marginUsed freeMargin.

(** [ALL_SYMBOLS.filter(s => !hiddenSymbols.includes(s.name))]. *)
Definition visibleSymbols (hiddenSymbols : list string) : list Symbol :=
  filter (fun s => name s ∉ hiddenSymbols) ALL_SYMBOLS.

End Desk.

(** ** Library functions of the engine *)

Module JSLibrary.
Import JSNumber.

(** [Math.abs]. *)
Definition Math_abs (x : number) : number :=
  match x with
  | NaN => NaN
  | Inf _ => Inf false
  | Fin q => Fin (Qabs q)
  end.

(** [Math.floor]. *)
Definition Math_floor (x : number) : number :=
  match x with
  | Fin q => Fin (inject_Z (Qfloor q))
  | _ => x
  end.

(** *** [Number.prototype.toFixed] with two fraction digits *)

Definition digit_char (d : Z) : ascii := ascii_of_nat (Z.to_nat (48 + d)).

(** The decimal digits of [n], most significant first, in front of
    [acc]; [fuel] bounds their number. *)
Fixpoint digits_of (fuel : nat) (n : Z) (acc : list ascii) : list ascii :=
  match fuel with
  | O => acc
  | S fuel' =>
      let acc' := digit_char (n mod 10) :: acc in
      if (n <? 10)%Z then acc' else digits_of fuel' (n / 10) acc'
  end.

(** The decimal representation of an integer [n >= 0]; it has no more
    digits than the binary one. *)
Definition decimal (n : Z) : list ascii :=
  digits_of (S (Z.to_nat (Z.log2 n))) n [].

(** Zeros in front, up to [k] characters. *)
Definition pad_zeros (k : nat) (ds : list ascii) : list ascii :=
  repeat "0"%char (k - length ds) ++ ds.

Section ToFixed.

(** [Number::toString], which [toFixed] returns for a value that is not
    finite or not below [10^21]. *)
Variable NumberToString : number -> string.

(** [x.toFixed(2)]: [n] is the integer for which [n / 100 - x] is
    closest to zero, the larger one of two; its digits, at least three,
    with the point before the last two. *)
Definition toFixed2 (x : number) : string :=
  match x with
  | Fin q =>
      let s := if is_neg q then ["-"%char] else [] in
      let x := Qabs q in
      if Qle_bool (10 ^ 21) x then
        string_of_list_ascii
          (s ++ list_ascii_of_string (NumberToString (Fin x)))
      else
        let n := Qfloor (x * 100 + (1 # 2)) in
        let m := pad_zeros 3 (decimal n) in
        let k := length m in
        string_of_list_ascii
          (s ++ firstn (k - 2) m ++ "."%char :: skipn (k - 2) m)
  | _ => NumberToString x
  end.

End ToFixed.

(** *** [parseInt(string, 10)]

    White space in front is skipped, then a sign, then the longest run
    of decimal digits; NaN if there is none.  The value of the digits is
    rounded to binary64 (an engine may replace digits after the 20th by
    zeros first). *)
Definition parseInt10 (s : string) : number :=
  let cs := drop_ws (list_ascii_of_string s) in
  let '(sgn, r) :=
    match cs with
    | c :: r' =>
        if Ascii.eqb c "-" then (true, r')
        else if Ascii.eqb c "+" then (false, r') else (false, cs)
    | [] => (false, cs)
    end in
  match span_digits 10 0 0 r with
  | (_, O, _) => NaN
  | (v, _, _) => rnd64 (inject_Z (if sgn then - v else v))
  end.

End JSLibrary.

(** ** The journal: the document and its handlers *)

Module Journal.
Import JSNumber Plan JSLibrary.

(** The document of a user.  A setting is a Number, or [null] once a
    JSON copy has met NaN or an infinity in it. *)
Record Data : Type := mkData {
  initialCapital : option number;
  finalTarget : option number;
  tenure : option number;
  months : list Month;
  hiddenSymbols : option (list string);
  version : option number
}.

(** [{ ...data, months: ms }]. *)
Definition with_months (data : Data) (ms : list Month) : Data :=
  mkData (initialCapital data) (finalTarget data) (tenure data) ms
    (hiddenSymbols data) (version data).

(** The value of a setting where it is an operand: [null] is 0. *)
Definition setting_value (x : option number) : number :=
  match x with Some n => n | None => Fin 0 end.

(** The document as [recalculatePlan] reads it.  A setting that is
    [null] is neither [> 0] nor above another one, as 0 is, so that the
    default is taken for it. *)
Definition fullData (data : Data) : Document (list Month) :=
  mkDocument (setting_value (initialCapital data))
    (setting_value (finalTarget data)) (setting_value (tenure data))
    (months data).

Definition json_setting (x : option number) : option number :=
  match x with
  | Some n => if isFinite n then Some n else None
  | None => None
  end.

(** [JSON.parse(JSON.stringify(prevData))]. *)
Definition json_data (data : Data) : Data :=
  mkData (json_setting (initialCapital data))
    (json_setting (finalTarget data)) (json_setting (tenure data))
    (json_months (months data)) (hiddenSymbols data)
    (json_setting (version data)).

(** [months[monthIndex].days[dayIndex]], which throws where there is no
    such month. *)
Definition get_day (ms : list Month) (monthIndex dayIndex : nat)
  : outcome (option Day) :=
  match ms !! monthIndex with
  | None => TypeError
  | Some m => Done (days m !! dayIndex)
  end.

(** The months with the day at [monthIndex], [dayIndex] replaced. *)
Definition put_day (ms : list Month) (monthIndex dayIndex : nat) (d : Day)
  : list Month :=
  match ms !! monthIndex with
  | None => ms
  | Some m =>
      <[monthIndex := mkMonth (id m) (monthName m) (<[dayIndex := d]> (days m))]> ms
  end.

(** The text fields of a day that the journal form edits. *)
Inductive Field : Type := WinningTrades | LosingTrades | Logic.

Definition set_field (d : Day) (field : Field) (value : string) : Day :=
  match field with
  | WinningTrades =>
      mkDay (day d) (date d) (capital d) (target d) (profit d) (dailyRate d)
        (achieved d) (pnlSign d) (actual d) value (losingTrades d) (logic d)
        (rules d)
  | LosingTrades =>
      mkDay (day d) (date d) (capital d) (target d) (profit d) (dailyRate d)
        (achieved d) (pnlSign d) (actual d) (winningTrades d) value (logic d)
        (rules d)
  | Logic =>
      mkDay (day d) (date d) (capital d) (target d) (profit d) (dailyRate d)
        (achieved d) (pnlSign d) (actual d) (winningTrades d)
        (losingTrades d) value (rules d)
  end.

(** A day with [pnlSign], [actual] and [achieved] assigned. *)
Definition set_outcome (d : Day) (sign : string) (value : jsval) (ok : bool)
  : Day :=
  mkDay (day d) (date d) (capital d) (target d) (profit d) (dailyRate d)
    ok sign value (winningTrades d) (losingTrades d) (logic d) (rules d).

(** [handleJournalChange(monthIndex, dayIndex, field, value)]: the new
    state.  Every handler also passes the new state to
    [updateFirestore]. *)
Definition handleJournalChange (monthIndex dayIndex : nat) (field : Field)
    (value : string) (prevData : Data) : outcome Data :=
  let newData := json_data prevData in
  let* d := get_day (months newData) monthIndex dayIndex in
  match d with
  | None => TypeError
  | Some d =>
      Done (with_months newData
              (put_day (months newData) monthIndex dayIndex
                 (set_field d field value)))
  end.

(** [handleSymbolVisibilityChange(symbolName)]. *)
Definition handleSymbolVisibilityChange (symbolName : string)
    (prevData : Data) : Data :=
  let currentHidden :=
    match hiddenSymbols prevData with Some l => l | None => [] end in
  let newHiddenSymbols :=
    if bool_decide (symbolName ∈ currentHidden)
    then filter (fun s => s <> symbolName) currentHidden
    else currentHidden ++ [symbolName] in
  mkData (initialCapital prevData) (finalTarget prevData) (tenure prevData)
    (months prevData) (Some newHiddenSymbols) (version prevData).

Section Handlers.

Variable Math_pow : number -> number -> number.
Variable NumberToString : number -> string.

(** The end of the three handlers that record an outcome: the day is
    put back, the plan is recalculated. *)
Definition record_outcome (fuel : nat) (newData : Data)
    (monthIndex dayIndex : nat) (d : Day) : outcome Data :=
  let newData := with_months newData
                   (put_day (months newData) monthIndex dayIndex d) in
  let* ms := recalculatePlan Math_pow fuel (fullData newData) in
  Done (with_months newData ms).

(** [handleProfitInput(monthIndex, dayIndex, value)]. *)
Definition handleProfitInput (fuel : nat) (monthIndex dayIndex : nat)
    (value : string) (prevData : Data) : outcome Data :=
  let newData := json_data prevData in
  let* d := get_day (months newData) monthIndex dayIndex in
  match d with
  | None => TypeError
  | Some d =>
      let actualProfit := or_else (StringToNumber value) num0 in
      let signedProfit :=
        if String.eqb (pnlSign d) "+" then actualProfit
        else neg actualProfit in
      record_outcome fuel newData monthIndex dayIndex
        (set_outcome d (pnlSign d) (JStr value)
           (geb signedProfit (ToNumber (profit d))))
  end.

(** [handleSignChange(monthIndex, dayIndex, sign)]. *)
Definition handleSignChange (fuel : nat) (monthIndex dayIndex : nat)
    (sign : string) (prevData : Data) : outcome Data :=
  let newData := json_data prevData in
  let* d := get_day (months newData) monthIndex dayIndex in
  match d with
  | None => TypeError
  | Some d =>
      let actualProfit := or_else (ToNumber (actual d)) num0 in
      let signedProfit :=
        if String.eqb sign "+" then actualProfit else neg actualProfit in
      record_outcome fuel newData monthIndex dayIndex
        (set_outcome d sign (actual d)
           (geb signedProfit (ToNumber (profit d))))
  end.

(** [handleTradeClose(pnl)], with [isTodayFound], [currentMonthIndex]
    and [currentDayIndex] as the handler has captured them.  Where today
    is not in the plan a dialog is shown and the state stays as it is. *)
Definition handleTradeClose (fuel : nat) (isTodayFound : bool)
    (currentMonthIndex currentDayIndex : nat) (pnl : number)
    (prevData : Data) : outcome Data :=
  if negb isTodayFound then Done prevData
  else
    let newData := json_data prevData in
    let* d := get_day (months newData) currentMonthIndex currentDayIndex in
    match d with
    | None => TypeError
    | Some d =>
        let currentPnl := or_else (ToNumber (actual d)) num0 in
        let signedCurrentPnl :=
          if String.eqb (pnlSign d) "+" then currentPnl else neg currentPnl in
        let newTotalPnl := add signedCurrentPnl pnl in
        record_outcome fuel newData currentMonthIndex currentDayIndex
          (set_outcome d (if geb newTotalPnl num0 then "+" else "-")
             (JStr (toFixed2 NumberToString (Math_abs newTotalPnl)))
             (geb newTotalPnl (ToNumber (profit d))))
    end.

End Handlers.

(** *** Today *)

Record Today : Type := mkToday {
  currentMonthIndex : nat;
  currentDayIndex : nat;
  todayData : option Day;
  isTodayFound : bool
}.

(** [days.findIndex(d => d.date === todayString)]. *)
Fixpoint findIndex (todayString : string) (ds : list Day) (i : nat)
  : option nat :=
  match ds with
  | [] => None
  | d :: ds' =>
      if String.eqb (date d) todayString then Some i
      else findIndex todayString ds' (S i)
  end.

(** The loop over the months, from month [m] on. *)
Fixpoint findToday (todayString : string) (ms : list Month) (m : nat)
  : option Today :=
  match ms with
  | [] => None
  | mo :: ms' =>
      match findIndex todayString (days mo) 0 with
      | Some dayIndex =>
          Some (mkToday m dayIndex (days mo !! dayIndex) true)
      | None => findToday todayString ms' (S m)
      end
  end.

(** The memoized look-up of today's day, with its fallback to the first
    day of the plan. *)
Definition today (data : Data) (todayString : string) : Today :=
  match findToday todayString (months data) 0 with
  | Some t => t
  | None =>
      mkToday 0 0
        (match months data !! 0%nat with
         | Some mo => days mo !! 0%nat
         | None => None
         end) false
  end.

End Journal.

(** ** Dates *)

Module Calendar.
Import JSNumber JSLibrary.

(** What the program uses of [Date]: the fixed date of the demo, the
    day of the week in local time, steps of whole days in local time,
    the UTC date as text, and the month with its year in the locale of
    the user. *)
Class Calendar : Type := {
  Date : Type;
  (** [new Date("2025-11-17T00:00:00.000Z")] *)
  demoDate : Date;
  (** [d.getDay()]: 0 is Sunday, 6 is Saturday *)
  getDay : Date -> Z;
  (** [d.setDate(d.getDate() + k)] *)
  addDays : Z -> Date -> Date;
  (** [d.toISOString().split('T')[0]] *)
  isoDate : Date -> string;
  (** [d.toLocaleString('default', { month: 'long', year: 'numeric' })] *)
  monthYear : Date -> string
}.

(** What a calendar guarantees: the day after a day of the week is the
    next day of the week. *)
Class CalendarLaws (C : Calendar) : Prop := {
  getDay_range : forall d : Date, (0 <= getDay d < 7)%Z;
  getDay_addDays : forall (k : Z) (d : Date),
    (0 <= k)%Z -> getDay (addDays k d) = ((getDay d + k) mod 7)%Z
}.

(** *** The calendar of a user in UTC, in English

    A date is the number of days since 1970-01-01; the time of day is
    midnight throughout. *)

(** Year, month and day of a day number, in the Gregorian calendar. *)
Definition civil (z : Z) : Z * Z * Z :=
  let z := (z + 719468)%Z in
  let era := (z / 146097)%Z in
  let doe := (z - era * 146097)%Z in
  let yoe := ((doe - doe / 1460 + doe / 36524 - doe / 146096) / 365)%Z in
  let doy := (doe - (365 * yoe + yoe / 4 - yoe / 100))%Z in
  let mp := ((5 * doy + 2) / 153)%Z in
  let d := (doy - (153 * mp + 2) / 5 + 1)%Z in
  let m := (if (mp <? 10)%Z then mp + 3 else mp - 9)%Z in
  ((if (m <=? 2)%Z then era * 400 + yoe + 1 else era * 400 + yoe)%Z, m, d).

Definition utc_isoDate (z : Z) : string :=
  let '(y, m, d) := civil z in
  string_of_list_ascii
    (pad_zeros 4 (decimal y) ++ "-"%char :: pad_zeros 2 (decimal m)
       ++ "-"%char :: pad_zeros 2 (decimal d)).

Definition month_names : list string :=
  ["January"; "February"; "March"; "April"; "May"; "June"; "July";
   "August"; "September"; "October"; "November"; "December"]%string.

Definition utc_monthYear (z : Z) : string :=
  let '(y, m, _) := civil z in
  (nth (Z.to_nat (m - 1)) month_names "" ++ " "
     ++ string_of_list_ascii (decimal y))%string.

Definition utc : Calendar := {|
  Date := Z;
  demoDate := 20409%Z;
  getDay := fun d => ((d + 4) mod 7)%Z;
  addDays := fun k d => (d + k)%Z;
  isoDate := utc_isoDate;
  monthYear := utc_monthYear
|}.

End Calendar.

(** ** The structure of a plan *)

Module Structure.
Import JSNumber Plan JSLibrary Calendar Journal.

Definition TRADING_DAYS_PER_MONTH : number := Fin 22.

Definition DEFAULT_RULES : list Rule :=
  [ mkRule "MAINTAIN DISCIPLINE: ADHERE TO THE PLAN" false;
    mkRule "VALIDATE STRATEGY: CONFIRM ENTRY/EXIT CRITERIA" false;
    mkRule "ASSESS MACRO TREND: CONSULT HIGHER TIMEFRAMES" false;
    mkRule "RISK PROTOCOL: MAX 2% CAPITAL PER ENGAGEMENT" false ].

(** The integer a Number holds: the day numbers, the month ids and the
    indices into [months] are counters, whose values are non-negative
    integers. *)
Definition int_of (n : number) : Z :=
  match n with Fin q => Qfloor q | _ => 0%Z end.

Definition index_of (n : number) : nat := Z.to_nat (int_of n).

(** ToBoolean of a field value. *)
Definition truthy_val (v : jsval) : bool :=
  match v with
  | JNull => false
  | JNum n => truthy n
  | JStr s => negb (String.eqb s "")
  end.

(** An array that may have holes. *)
Abbreviation array A := (list (option A)).

(** [a[i] = x]: an index past the end leaves holes before it. *)
Definition array_set {A : Type} (i : nat) (x : A) (a : array A) : array A :=
  if (i <? length a)%nat then <[i := Some x]> a
  else a ++ replicate (i - length a) None ++ [Some x].

(** The array without holes, if it has none. *)
Definition dense {A : Type} (a : array A) : option (list A) :=
  mapM (fun x => x) a.

(** [oldDaysMap]: the days of the old months by their date; the last
    one of a date stays. *)
Definition oldDaysMap (oldMonths : list Month) : gmap string Day :=
  fold_left (fun m d => <[date d := d]> m) (allDays oldMonths) ∅.

(** The day that is pushed: the financial fields are 0, the journal is
    that of the old day of this date where it holds something, and the
    default otherwise. *)
Definition newDay (dayCounter : number) (dateStr : string)
    (existingDayData : option Day) : Day :=
  mkDay (int_of (add dayCounter num1)) dateStr
    (JNum (Fin 0)) (JNum (Fin 0)) (JNum (Fin 0)) (JNum (Fin 0))
    (match existingDayData with Some e => achieved e | None => false end)
    (match existingDayData with
     | Some e => if String.eqb (pnlSign e) "" then "+" else pnlSign e
     | None => "+"
     end)
    (match existingDayData with
     | Some e => if truthy_val (actual e) then actual e else JStr ""
     | None => JStr ""
     end)
    (match existingDayData with Some e => winningTrades e | None => "" end)
    (match existingDayData with Some e => losingTrades e | None => "" end)
    (match existingDayData with Some e => logic e | None => "" end)
    (match existingDayData with Some e => rules e | None => DEFAULT_RULES end).

Section Structure.
Context {C : Calendar}.

Definition isWeekend (d : Date) : bool :=
  ((getDay d =? 0) || (getDay d =? 6))%Z.

(** The loop of [getNextTradingDay]. *)
Fixpoint skipWeekend (fuel : nat) (nextDay : Date) : outcome Date :=
  if isWeekend nextDay then
    match fuel with
    | O => OutOfFuel
    | S fuel' => skipWeekend fuel' (addDays 1%Z nextDay)
    end
  else Done nextDay.

Definition getNextTradingDay (fuel : nat) (date : Date) : outcome Date :=
  skipWeekend fuel (addDays 1%Z date).

(** [getTodayDateString()]. *)
Definition getTodayDateString : string :=
  let today := demoDate in
  let today :=
    if (getDay today =? 6)%Z then addDays 2%Z today
    else if (getDay today =? 0)%Z then addDays 1%Z today
    else today in
  isoDate today.

(** The loop of [generatePlanStructure]. *)
Fixpoint planLoop (fuel : nat) (tenure : number) (oldDaysMap : gmap string Day)
    (months : array Month) (currentDate : Date) (dayCounter : number)
  : outcome (array Month) :=
  if ltb dayCounter tenure then
    match fuel with
    | O => OutOfFuel
    | S fuel' =>
        let monthIndex := Math_floor (div dayCounter TRADING_DAYS_PER_MONTH) in
        let months :=
          match months !! index_of monthIndex with
          | Some (Some _) => months
          | _ =>
              array_set (index_of monthIndex)
                (mkMonth (int_of (add monthIndex num1))
                   (monthYear currentDate) [])
                months
          end in
        let dateStr := isoDate currentDate in
        let existingDayData := oldDaysMap !! dateStr in
        match months !! index_of monthIndex with
        | Some (Some m) =>
            let months :=
              <[index_of monthIndex :=
                  Some (mkMonth (id m) (monthName m)
                          (days m ++
                             [newDay dayCounter dateStr existingDayData]))]>
                months in
            let* currentDate := getNextTradingDay fuel' currentDate in
            planLoop fuel' tenure oldDaysMap months currentDate
              (add dayCounter num1)
        | _ => TypeError
        end
    end
  else Done months.

(** [generatePlanStructure(tenure, oldMonths)]. *)
Definition generatePlanStructure (fuel : nat) (tenure : number)
    (oldMonths : list Month) : outcome (array Month) :=
  let currentDate := demoDate in
  let currentDate :=
    if (getDay currentDate =? 6)%Z then addDays 2%Z currentDate
    else if (getDay currentDate =? 0)%Z then addDays 1%Z currentDate
    else currentDate in
  planLoop fuel tenure (oldDaysMap oldMonths) [] currentDate num0.

Section Handlers.
Variable Math_pow : number -> number -> number.

(** The months are recalculated; [flatMap] throws on a hole, which the
    JSON copy has made [null]. *)
Definition recalculated (fuel : nat) (data : Data) (months : array Month)
  : outcome Data :=
  match dense months with
  | None => TypeError
  | Some ms =>
      let updatedData := with_months data ms in
      let* ms' := recalculatePlan Math_pow fuel (fullData updatedData) in
      Done (with_months updatedData ms')
  end.

(** [handleUpdateTargets()], from the text of the three inputs. *)
Definition handleUpdateTargets (fuel : nat)
    (inputCapital inputTarget inputTenure : string) (data : Data)
  : outcome Data :=
  let newInitialCapital :=
    or_else (parseInt10 inputCapital) DEFAULT_INITIAL_CAPITAL in
  let newFinalTarget :=
    or_else (parseInt10 inputTarget) DEFAULT_FINAL_TARGET in
  let newTenure := or_else (parseInt10 inputTenure) DEFAULT_TENURE_DAYS in
  let* newMonths := generatePlanStructure fuel newTenure (months data) in
  recalculated fuel
    (mkData (Some newInitialCapital) (Some newFinalTarget) (Some newTenure)
       (months data) (hiddenSymbols data) (version data))
    newMonths.

(** The document [createNewJournal] and [resetJournalToDefaults]
    write. *)
Definition createNewJournal (fuel : nat) : outcome Data :=
  let initialTenure := DEFAULT_TENURE_DAYS in
  let* months := generatePlanStructure fuel initialTenure [] in
  recalculated fuel
    (mkData (Some DEFAULT_INITIAL_CAPITAL) (Some DEFAULT_FINAL_TARGET)
       (Some initialTenure) [] (Some []) (Some (Fin 2)))
    months.

End Handlers.
End Structure.

End Structure.

Module JSNumberFacts.
Import JSNumber.

(** The value [rnd_abs] rounds to, before the overflow test. *)
Definition rnd_val (q : Q) : Q :=
  inject_Z (rne (q / 2 ^ ulp_exp q)) * 2 ^ ulp_exp q.

(** [x <= y] as a proposition; false as soon as one side is NaN. *)
Definition le (x y : number) : Prop :=
  match x, y with
  | NaN, _ | _, NaN => False
  | Inf true, _ => True
  | _, Inf false => True
  | Fin a, Fin b => a <= b
  | _, _ => False
  end.

(** A Number that is a binary64 value: rounding a finite one gives it
    back. *)
Definition binary64 (x : number) : Prop :=
  match x with
  | Fin q => exists v, rnd64 q = Fin v /\ v == q
  | _ => True
  end.

Lemma two_neq_0 : ~ 2 == 0.
Proof. discriminate. Qed.

Lemma pow2_pos (e : Z) : 0 < 2 ^ e.
Proof. apply Qpower_0_lt. reflexivity. Qed.

Lemma pow2_succ (e : Z) : 2 ^ (e + 1) == 2 * 2 ^ e.
Proof. rewrite Qpower_plus by apply two_neq_0. simpl. ring. Qed.

Lemma pow2_le (a b : Z) : (a <= b)%Z -> 2 ^ a <= 2 ^ b.
Proof. intros H. apply Qpower_le_compat_l; [exact H | discriminate]. Qed.

Lemma pow2_lt (a b : Z) : (a < b)%Z -> 2 ^ a < 2 ^ b.
Proof. intros H. apply Qpower_lt_compat_l; [exact H | reflexivity]. Qed.

Lemma pow2_lt_inv (a b : Z) : 2 ^ a < 2 ^ b -> (a < b)%Z.
Proof. intros H. apply (Qpower_lt_compat_l_inv 2); [exact H | reflexivity]. Qed.

Lemma pow2_inject (a : Z) : (0 <= a)%Z -> inject_Z (2 ^ a) == 2 ^ a.
Proof. intros H. rewrite Zpower_Qpower by exact H. reflexivity. Qed.

(** A positive rational lies within a factor 2 of [2^(log2 num - log2 den)]. *)
Lemma log2_bracket (q : Q) : 0 < q ->
  let L0 := (Z.log2 (Qnum q) - Z.log2 (Zpos (Qden q)))%Z in
  2 ^ (L0 - 1) < q /\ q < 2 ^ (L0 + 1).
Proof.
  destruct q as [n d]. intros Hq L0. subst L0. cbn [Qnum Qden].
  assert (Hn : (0 < n)%Z) by (unfold Qlt in Hq; simpl in Hq; lia).
  destruct (Z.log2_spec n Hn) as [Ha1 Ha2].
  destruct (Z.log2_spec (Zpos d) (Pos2Z.is_pos d)) as [Hb1 Hb2].
  set (a := Z.log2 n) in *. set (b := Z.log2 (Zpos d)) in *.
  assert (Ha0 : (0 <= a)%Z) by apply Z.log2_nonneg.
  assert (Hb0 : (0 <= b)%Z) by apply Z.log2_nonneg.
  assert (Hd : n # d == inject_Z n / inject_Z (Zpos d)) by apply Qmake_Qdiv.
  assert (Hdpos : 0 < inject_Z (Zpos d)) by reflexivity.
  assert (E1 : 2 ^ (a - b - 1) == inject_Z (2 ^ a) / inject_Z (2 ^ Z.succ b)).
  { rewrite !pow2_inject by lia.
    replace (a - b - 1)%Z with (a - Z.succ b)%Z by lia.
    apply Qpower_minus, two_neq_0. }
  assert (E2 : 2 ^ (a - b + 1) == inject_Z (2 ^ Z.succ a) / inject_Z (2 ^ b)).
  { rewrite !pow2_inject by lia.
    replace (a - b + 1)%Z with (Z.succ a - b)%Z by lia.
    apply Qpower_minus, two_neq_0. }
  assert (P1 : 0 < inject_Z (2 ^ Z.succ b)).
  { rewrite pow2_inject by lia. apply pow2_pos. }
  assert (P2 : 0 < inject_Z (2 ^ b)).
  { rewrite pow2_inject by lia. apply pow2_pos. }
  rewrite E1, E2, Hd. split.
  - apply Qlt_shift_div_l; [exact Hdpos|].
    unfold Qdiv. rewrite <- Qmult_assoc, (Qmult_comm (/ _)), Qmult_assoc.
    apply Qlt_shift_div_r; [exact P1|].
    rewrite <- !inject_Z_mult, <- Zlt_Qlt. nia.
  - apply Qlt_shift_div_r; [exact Hdpos|].
    unfold Qdiv. rewrite <- Qmult_assoc, (Qmult_comm (/ _)), Qmult_assoc.
    apply Qlt_shift_div_l; [exact P2|].
    rewrite <- !inject_Z_mult, <- Zlt_Qlt. nia.
Qed.

Lemma floor_log2_spec (q : Q) : 0 < q ->
  2 ^ floor_log2 q <= q /\ q < 2 ^ (floor_log2 q + 1).
Proof.
  intros Hq. destruct (log2_bracket q Hq) as [H1 H2]. unfold floor_log2.
  set (L0 := (Z.log2 (Qnum q) - Z.log2 (Zpos (Qden q)))%Z) in *.
  destruct (Qle_bool (2 ^ L0) q) eqn:E.
  - apply Qle_bool_iff in E. split; assumption.
  - split; [apply Qlt_le_weak, H1|].
    replace (L0 - 1 + 1)%Z with L0 by lia.
    apply Qnot_le_lt. intros C. apply Qle_bool_iff in C. congruence.
Qed.

Lemma floor_log2_unique (q : Q) (L : Z) :
  2 ^ L <= q -> q < 2 ^ (L + 1) -> floor_log2 q = L.
Proof.
  intros H1 H2.
  assert (Hq : 0 < q) by (eapply Qlt_le_trans; [apply (pow2_pos L)|exact H1]).
  destruct (floor_log2_spec q Hq) as [G1 G2].
  assert (A : (L < floor_log2 q + 1)%Z).
  { apply pow2_lt_inv. eapply Qle_lt_trans; eassumption. }
  assert (B : (floor_log2 q < L + 1)%Z).
  { apply pow2_lt_inv. eapply Qle_lt_trans; eassumption. }
  lia.
Qed.

Lemma floor_log2_comp (q q' : Q) : 0 < q -> q == q' ->
  floor_log2 q = floor_log2 q'.
Proof.
  intros Hq E. symmetry. destruct (floor_log2_spec q Hq) as [G1 G2].
  apply floor_log2_unique; rewrite <- E; assumption.
Qed.

Lemma floor_log2_mono (a b : Q) : 0 < a -> a <= b ->
  (floor_log2 a <= floor_log2 b)%Z.
Proof.
  intros Ha Hab.
  assert (Hb : 0 < b) by (eapply Qlt_le_trans; eassumption).
  destruct (floor_log2_spec a Ha) as [A1 _].
  destruct (floor_log2_spec b Hb) as [_ B2].
  assert (floor_log2 a < floor_log2 b + 1)%Z; [|lia].
  apply pow2_lt_inv. eapply Qle_lt_trans; [exact A1|].
  eapply Qle_lt_trans; eassumption.
Qed.

(** *** Rounding to the nearest integer *)

Lemma Qfloor_frac (x : Q) :
  0 <= x - inject_Z (Qfloor x) /\ x - inject_Z (Qfloor x) < 1.
Proof.
  pose proof (Qfloor_le x) as H1. pose proof (Qlt_floor x) as H2.
  rewrite inject_Z_plus in H2. change (inject_Z 1) with 1 in H2.
  split; lra.
Qed.

Lemma rne_comp (x y : Q) : x == y -> rne x = rne y.
Proof.
  intros E. unfold rne. rewrite (Qfloor_comp _ _ E).
  assert (E' : x - inject_Z (Qfloor y) == y - inject_Z (Qfloor y))
    by (rewrite E; reflexivity).
  rewrite (Qcompare_comp _ _ E' (1 # 2) (1 # 2) (Qeq_refl _)). reflexivity.
Qed.

Lemma rne_bounds (x : Q) : (Qfloor x <= rne x <= Qfloor x + 1)%Z.
Proof.
  unfold rne. destruct (Qcompare _ _); [destruct (Z.even _)| |]; lia.
Qed.

Lemma rne_inject_Z (n : Z) : rne (inject_Z n) = n.
Proof.
  unfold rne. rewrite Qfloor_Z.
  destruct (Qcompare_spec (inject_Z n - inject_Z n) (1 # 2)) as [E|E|E];
    trivial; exfalso; lra.
Qed.

Lemma rne_mono (x y : Q) : x <= y -> (rne x <= rne y)%Z.
Proof.
  intros Hxy. pose proof (Qfloor_resp_le _ _ Hxy) as Hf.
  destruct (Z.eq_dec (Qfloor x) (Qfloor y)) as [E|NE].
  - unfold rne. rewrite <- E.
    destruct (Qcompare_spec (x - inject_Z (Qfloor x)) (1 # 2)) as [A|A|A];
    destruct (Qcompare_spec (y - inject_Z (Qfloor x)) (1 # 2)) as [B|B|B];
    try destruct (Z.even (Qfloor x)); try lia; exfalso; lra.
  - pose proof (rne_bounds x). pose proof (rne_bounds y). lia.
Qed.

Lemma rne_ge (x : Q) (n : Z) : inject_Z n <= x -> (n <= rne x)%Z.
Proof. intros H. rewrite <- (rne_inject_Z n). now apply rne_mono. Qed.

Lemma rne_le (x : Q) (n : Z) : x <= inject_Z n -> (rne x <= n)%Z.
Proof. intros H. rewrite <- (rne_inject_Z n). now apply rne_mono. Qed.

(** *** Rounding to binary64 *)

Lemma rnd_abs_eq (q : Q) :
  rnd_abs q =
  if Qle_bool (2 ^ 1024) (Qred (rnd_val q)) then None
  else Some (Qred (rnd_val q)).
Proof. reflexivity. Qed.

Lemma ulp_exp_comp (q q' : Q) : 0 < q -> q == q' -> ulp_exp q = ulp_exp q'.
Proof. intros H E. unfold ulp_exp. now rewrite (floor_log2_comp q q' H E). Qed.

Lemma ulp_exp_mono (a b : Q) : 0 < a -> a <= b -> (ulp_exp a <= ulp_exp b)%Z.
Proof.
  intros H E. unfold ulp_exp. pose proof (floor_log2_mono a b H E). lia.
Qed.

Lemma rnd_val_comp (q q' : Q) : 0 < q -> q == q' -> rnd_val q == rnd_val q'.
Proof.
  intros H E. unfold rnd_val. rewrite <- (ulp_exp_comp q q' H E).
  generalize (ulp_exp q) as e. intros e.
  assert (E' : q / 2 ^ e == q' / 2 ^ e) by (rewrite E; reflexivity).
  rewrite (rne_comp _ _ E'). reflexivity.
Qed.

Lemma rnd_abs_comp (q q' : Q) : 0 < q -> q == q' -> rnd_abs q = rnd_abs q'.
Proof.
  intros H E. rewrite !rnd_abs_eq.
  now rewrite (Qred_complete _ _ (rnd_val_comp q q' H E)).
Qed.

Lemma rnd64_comp (q q' : Q) : q == q' -> rnd64 q = rnd64 q'.
Proof.
  intros E. unfold rnd64.
  rewrite <- (Qcompare_comp _ _ E 0 0 (Qeq_refl _)).
  destruct (Qcompare_spec q 0) as [H|H|H]; trivial.
  - assert (E' : - q == - q') by (now rewrite E).
    rewrite (rnd_abs_comp (- q) (- q')); trivial. lra.
  - now rewrite (rnd_abs_comp q q').
Qed.

(** Scaling by the unit in the last place. *)
Lemma scaled_ge (q : Q) (e k : Z) : 2 ^ (e + k) <= q -> 2 ^ k <= q / 2 ^ e.
Proof.
  intros H. apply Qle_shift_div_l; [apply pow2_pos|].
  rewrite <- Qpower_plus by apply two_neq_0.
  now rewrite Z.add_comm.
Qed.

Lemma scaled_le (q : Q) (e k : Z) : q <= 2 ^ (e + k) -> q / 2 ^ e <= 2 ^ k.
Proof.
  intros H. apply Qle_shift_div_r; [apply pow2_pos|].
  rewrite <- Qpower_plus by apply two_neq_0.
  now rewrite Z.add_comm.
Qed.

(** A power of two that is a multiple of the unit in the last place is a
    lower bound that rounding keeps. *)
Lemma rnd_val_ge_pow2 (q : Q) (k : Z) :
  (ulp_exp q <= k)%Z -> 2 ^ k <= q -> 2 ^ k <= rnd_val q.
Proof.
  intros Hk Hq. unfold rnd_val. set (e := ulp_exp q) in *.
  assert (H : (2 ^ (k - e) <= rne (q / 2 ^ e))%Z).
  { apply rne_ge. rewrite pow2_inject by lia. apply scaled_ge.
    now replace (e + (k - e))%Z with k by lia. }
  rewrite Zle_Qle, pow2_inject in H by lia.
  assert (Ek : 2 ^ k == 2 ^ (k - e) * 2 ^ e).
  { rewrite <- Qpower_plus by apply two_neq_0.
    now replace (k - e + e)%Z with k by lia. }
  rewrite Ek.
  apply Qmult_le_compat_r; [exact H|apply Qlt_le_weak, pow2_pos].
Qed.

Lemma rnd_val_le_pow2 (q : Q) (k : Z) :
  (ulp_exp q <= k)%Z -> q <= 2 ^ k -> rnd_val q <= 2 ^ k.
Proof.
  intros Hk Hq. unfold rnd_val. set (e := ulp_exp q) in *.
  assert (H : (rne (q / 2 ^ e) <= 2 ^ (k - e))%Z).
  { apply rne_le. rewrite pow2_inject by lia. apply scaled_le.
    now replace (e + (k - e))%Z with k by lia. }
  rewrite Zle_Qle, pow2_inject in H by lia.
  assert (Ek : 2 ^ k == 2 ^ (k - e) * 2 ^ e).
  { rewrite <- Qpower_plus by apply two_neq_0.
    now replace (k - e + e)%Z with k by lia. }
  rewrite Ek.
  apply Qmult_le_compat_r; [exact H|apply Qlt_le_weak, pow2_pos].
Qed.

Lemma rnd_val_nonneg (q : Q) : 0 < q -> 0 <= rnd_val q.
Proof.
  intros Hq. unfold rnd_val. apply Qmult_le_0_compat.
  - change 0 with (inject_Z 0). rewrite <- Zle_Qle. apply rne_ge.
    apply Qle_shift_div_l; [apply pow2_pos|].
    change (inject_Z 0) with 0. rewrite Qmult_0_l. lra.
  - apply Qlt_le_weak, pow2_pos.
Qed.

Lemma rnd_val_mono (a b : Q) : 0 < a -> a <= b -> rnd_val a <= rnd_val b.
Proof.
  intros Ha Hab.
  assert (Hb : 0 < b) by (eapply Qlt_le_trans; eassumption).
  pose proof (ulp_exp_mono a b Ha Hab) as He.
  destruct (Z.eq_dec (ulp_exp a) (ulp_exp b)) as [E|NE].
  - unfold rnd_val. rewrite <- E.
    apply Qmult_le_compat_r; [|apply Qlt_le_weak, pow2_pos].
    rewrite <- Zle_Qle. apply rne_mono.
    apply Qmult_le_compat_r; [exact Hab|].
    apply Qlt_le_weak, Qinv_lt_0_compat, pow2_pos.
  - (* the larger value starts a new binade: [2^(floor_log2 b)] separates *)
    assert (Hlt : (ulp_exp a < ulp_exp b)%Z) by lia.
    assert (Eb : ulp_exp b = (floor_log2 b - 52)%Z) by (unfold ulp_exp in *; lia).
    assert (La : (floor_log2 a - 52 <= ulp_exp a)%Z) by (unfold ulp_exp; lia).
    destruct (floor_log2_spec a Ha) as [_ A2].
    destruct (floor_log2_spec b Hb) as [B1 _].
    apply Qle_trans with (2 ^ floor_log2 b).
    + apply rnd_val_le_pow2; [lia|].
      apply Qlt_le_weak. eapply Qlt_le_trans; [exact A2|].
      apply pow2_le. lia.
    + apply rnd_val_ge_pow2; [lia|exact B1].
Qed.

(** *** The order on Numbers *)

Lemma leb_le (x y : number) : leb x y = true <-> le x y.
Proof.
  unfold leb.
  destruct x as [|[|]|a], y as [|[|]|b]; simpl; try (split; (easy || discriminate)).
  destruct (Qcompare_spec a b) as [E|E|E]; simpl.
  - rewrite (Qeq_eq_bool _ _ E). split; trivial. intros _. lra.
  - split; trivial. intros _. lra.
  - split.
    + intros H. apply Qeq_bool_eq in H. lra.
    + intros H. exfalso. lra.
Qed.

Lemma le_of_leb (x y : number) : leb x y = true -> le x y.
Proof. apply leb_le. Qed.

Lemma ltb_lt (a b : Q) : ltb (Fin a) (Fin b) = true <-> a < b.
Proof.
  simpl. destruct (Qcompare_spec a b) as [E|E|E]; split; trivial;
    try discriminate; intros H; exfalso; lra.
Qed.

Lemma le_trans (x y z : number) : le x y -> le y z -> le x z.
Proof.
  destruct x as [|[|]|a], y as [|[|]|b], z as [|[|]|c]; simpl; trivial;
    try contradiction. apply Qle_trans.
Qed.

Lemma le_refl (x : number) : isNaN x = false -> le x x.
Proof. destruct x as [|[|]|a]; simpl; trivial; try discriminate. intros; lra. Qed.

(** *** [rnd64] by sign *)

Lemma rnd64_pos (q : Q) : 0 < q ->
  rnd64 q = match rnd_abs q with Some v => Fin v | None => Inf false end.
Proof.
  intros H. unfold rnd64.
  destruct (Qcompare_spec q 0) as [E|E|E]; trivial; exfalso; lra.
Qed.

Lemma rnd64_neg (q : Q) : q < 0 ->
  rnd64 q =
  match rnd_abs (- q) with Some v => Fin (- v) | None => Inf true end.
Proof.
  intros H. unfold rnd64.
  destruct (Qcompare_spec q 0) as [E|E|E]; trivial; exfalso; lra.
Qed.

Lemma rnd64_zero (q : Q) : q == 0 -> rnd64 q = Fin 0.
Proof. intros H. now rewrite (rnd64_comp q 0 H). Qed.

Lemma rnd_abs_cases (q : Q) :
  (rnd_abs q = None /\ 2 ^ 1024 <= rnd_val q) \/
  (exists v, rnd_abs q = Some v /\ v == rnd_val q /\ v < 2 ^ 1024).
Proof.
  rewrite rnd_abs_eq. destruct (Qle_bool _ _) eqn:E.
  - left. split; trivial. apply Qle_bool_iff in E.
    now rewrite Qred_correct in E.
  - right. eexists. split; [reflexivity|]. split; [apply Qred_correct|].
    apply Qnot_le_lt. intros C. apply Qle_bool_iff in C. congruence.
Qed.

Lemma rnd64_isNaN (q : Q) : isNaN (rnd64 q) = false.
Proof.
  unfold rnd64. destruct (Qcompare q 0); trivial; destruct (rnd_abs _); trivial.
Qed.

Lemma rnd64_nonneg (q : Q) : 0 <= q -> le (Fin 0) (rnd64 q).
Proof.
  intros H. destruct (Qlt_le_dec 0 q) as [Hq|Hq].
  - rewrite rnd64_pos by exact Hq.
    destruct (rnd_abs_cases q) as [[-> _]|(v & -> & Ev & _)]; simpl; trivial.
    rewrite Ev. now apply rnd_val_nonneg.
  - rewrite rnd64_zero by lra. simpl. lra.
Qed.

Lemma rnd64_nonpos (q : Q) : q <= 0 -> le (rnd64 q) (Fin 0).
Proof.
  intros H. destruct (Qlt_le_dec q 0) as [Hq|Hq].
  - rewrite rnd64_neg by exact Hq.
    destruct (rnd_abs_cases (- q)) as [[-> _]|(v & -> & Ev & _)]; simpl; trivial.
    assert (0 <= rnd_val (- q)) by (apply rnd_val_nonneg; lra). lra.
  - rewrite rnd64_zero by lra. simpl. lra.
Qed.

Lemma rnd64_mono_pos (a b : Q) : 0 < a -> a <= b -> le (rnd64 a) (rnd64 b).
Proof.
  intros Ha Hab. assert (Hb : 0 < b) by lra.
  pose proof (rnd_val_mono a b Ha Hab) as Hv.
  rewrite (rnd64_pos a Ha), (rnd64_pos b Hb).
  destruct (rnd_abs_cases a) as [[-> A]|(va & -> & Ea & A)];
  destruct (rnd_abs_cases b) as [[-> B]|(vb & -> & Eb & B)]; simpl; trivial.
  - lra.
  - lra.
Qed.

(** Rounding is monotone. *)
Lemma rnd64_mono (a b : Q) : a <= b -> le (rnd64 a) (rnd64 b).
Proof.
  intros Hab.
  destruct (Qlt_le_dec 0 a) as [Ha|Ha]; [now apply rnd64_mono_pos|].
  destruct (Qlt_le_dec 0 b) as [Hb|Hb].
  { eapply le_trans; [apply rnd64_nonpos, Ha|apply rnd64_nonneg; lra]. }
  destruct (Qlt_le_dec b 0) as [Hb'|Hb'].
  - assert (Ha' : a < 0) by lra.
    assert (Hv : rnd_val (- b) <= rnd_val (- a)) by (apply rnd_val_mono; lra).
    rewrite (rnd64_neg a Ha'), (rnd64_neg b Hb').
    destruct (rnd_abs_cases (- a)) as [[-> A]|(va & -> & Ea & A)];
    destruct (rnd_abs_cases (- b)) as [[-> B]|(vb & -> & Eb & B)]; simpl; trivial.
    + lra.
    + lra.
  - rewrite (rnd64_zero b) by lra. now apply rnd64_nonpos.
Qed.

(** Rounding keeps a lower bound that is a power of two no smaller than
    the least positive binary64 value. *)
Lemma rnd64_ge_pow2 (q : Q) (k : Z) : (-1074 <= k)%Z -> 2 ^ k <= q ->
  le (Fin (2 ^ k)) (rnd64 q).
Proof.
  intros Hk Hq. apply le_trans with (rnd64 (2 ^ k)); [|now apply rnd64_mono].
  rewrite (rnd64_pos _ (pow2_pos k)).
  destruct (rnd_abs_cases (2 ^ k)) as [[-> _]|(v & -> & Ev & _)]; simpl; trivial.
  rewrite Ev. apply rnd_val_ge_pow2; [|apply Qle_refl].
  unfold ulp_exp. rewrite (floor_log2_unique (2 ^ k) k).
  - lia.
  - apply Qle_refl.
  - apply pow2_lt. lia.
Qed.

(** *** Integers below [2^53] are binary64 values *)

Lemma Qred_inject_Z (n : Z) : Qred (inject_Z n) = inject_Z n.
Proof.
  unfold Qred, inject_Z.
  pose proof (Z.ggcd_gcd n 1) as Hg.
  pose proof (Z.ggcd_correct_divisors n 1) as Hd.
  destruct (Z.ggcd n 1) as [g [aa bb]]. simpl in *.
  rewrite Z.gcd_1_r in Hg. subst g. destruct Hd as [-> Hb].
  assert (bb = 1%Z) by lia. subst bb.
  f_equal. destruct aa; reflexivity.
Qed.

Lemma rnd_val_exact (q : Q) (m : Z) :
  q == inject_Z m * 2 ^ ulp_exp q -> rnd_val q == q.
Proof.
  intros E. unfold rnd_val.
  assert (E' : q / 2 ^ ulp_exp q == inject_Z m).
  { rewrite E at 1. field. apply Qpower_not_0, two_neq_0. }
  rewrite (rne_comp _ _ E'), rne_inject_Z. now rewrite <- E.
Qed.

Lemma ulp_exp_small (q : Q) : 0 < q -> q < 2 ^ 53 -> (ulp_exp q <= 0)%Z.
Proof.
  intros H0 H. destruct (floor_log2_spec q H0) as [G _].
  assert (floor_log2 q < 53)%Z.
  { apply pow2_lt_inv. eapply Qle_lt_trans; eassumption. }
  unfold ulp_exp. lia.
Qed.

Lemma rnd_abs_int (n : Z) : (0 < n < 2 ^ 53)%Z ->
  rnd_abs (inject_Z n) = Some (inject_Z n).
Proof.
  intros [H0 H1].
  assert (P0 : 0 < inject_Z n) by (change 0 with (inject_Z 0); now rewrite <- Zlt_Qlt).
  assert (P1 : inject_Z n < 2 ^ 53).
  { change (2 ^ 53) with (inject_Z (2 ^ 53)). now rewrite <- Zlt_Qlt. }
  pose proof (ulp_exp_small _ P0 P1) as He.
  assert (Ev : rnd_val (inject_Z n) == inject_Z n).
  { apply rnd_val_exact with (m := (n * 2 ^ (- ulp_exp (inject_Z n)))%Z).
    rewrite inject_Z_mult, pow2_inject by lia.
    rewrite <- Qmult_assoc, <- Qpower_plus by apply two_neq_0.
    replace (- ulp_exp (inject_Z n) + ulp_exp (inject_Z n))%Z with 0%Z by lia.
    simpl. ring. }
  rewrite rnd_abs_eq, (Qred_complete _ _ Ev), Qred_inject_Z.
  destruct (Qle_bool (2 ^ 1024) (inject_Z n)) eqn:C; trivial.
  apply Qle_bool_iff in C. exfalso.
  assert (2 ^ 53 < 2 ^ 1024) by reflexivity. lra.
Qed.

Lemma rnd64_int (q : Q) (n : Z) : (0 <= n < 2 ^ 53)%Z -> q == inject_Z n ->
  rnd64 q = Fin (inject_Z n).
Proof.
  intros [H0 H1] E. rewrite (rnd64_comp _ _ E).
  destruct (Z.eq_dec n 0%Z) as [->|NE]; [reflexivity|].
  assert (P0 : 0 < inject_Z n).
  { change 0 with (inject_Z 0). rewrite <- Zlt_Qlt. lia. }
  rewrite rnd64_pos by exact P0. rewrite rnd_abs_int by lia. reflexivity.
Qed.

Lemma add_one_int (n : Z) : (0 <= n < 2 ^ 53 - 1)%Z ->
  add (Fin (inject_Z n)) (Fin 1) = Fin (inject_Z (n + 1)).
Proof.
  intros H. simpl. apply rnd64_int; [lia|].
  rewrite inject_Z_plus. reflexivity.
Qed.

(** *** Rounding between two bounds *)

Lemma rnd64_between (a b q la ub : Q) :
  a <= q -> q <= b ->
  le (Fin la) (rnd64 a) -> le (rnd64 b) (Fin ub) ->
  exists v, rnd64 q = Fin v /\ la <= v /\ v <= ub.
Proof.
  intros Ha Hb HA HB.
  pose proof (le_trans _ _ _ HA (rnd64_mono a q Ha)) as H1.
  pose proof (le_trans _ _ _ (rnd64_mono q b Hb) HB) as H2.
  destruct (rnd64 q) as [|[|]|v]; simpl in *; try contradiction.
  exists v. auto.
Qed.

Lemma Qfloor_unique (x : Q) (n : Z) :
  inject_Z n <= x -> x < inject_Z (n + 1) -> Qfloor x = n.
Proof.
  intros H1 H2.
  pose proof (Qfloor_le x) as F1. pose proof (Qlt_floor x) as F2.
  assert (A : inject_Z (Qfloor x) < inject_Z (n + 1)) by lra.
  assert (B : inject_Z n < inject_Z (Qfloor x + 1)) by lra.
  rewrite <- Zlt_Qlt in A, B. lia.
Qed.

Lemma Math_round_between (v : Q) (n : Z) :
  inject_Z n - (1 # 2) <= v -> v < inject_Z n + (1 # 2) ->
  Math_round (Fin v) = Fin (inject_Z n).
Proof.
  intros H1 H2. unfold Math_round. rewrite (Qfloor_unique _ n); trivial.
  - lra.
  - rewrite inject_Z_plus. change (inject_Z 1) with 1. lra.
Qed.

(** *** Negation is exact *)

Lemma Qopp_opp_eq (q : Q) : - - q = q.
Proof. destruct q as [n d]. unfold Qopp. simpl. now rewrite Z.opp_involutive. Qed.

Lemma rnd64_opp (q : Q) : rnd64 (- q) = neg (rnd64 q).
Proof.
  destruct (Qcompare_spec q 0) as [E|E|E].
  - rewrite (rnd64_zero q E), (rnd64_zero (- q)) by lra. reflexivity.
  - rewrite (rnd64_neg q E), (rnd64_pos (- q)) by lra.
    destruct (rnd_abs (- q)); simpl; trivial. now rewrite Qopp_opp_eq.
  - rewrite (rnd64_pos q E), (rnd64_neg (- q)) by lra.
    rewrite (rnd_abs_comp (- - q) q); [|lra|ring].
    destruct (rnd_abs q); reflexivity.
Qed.

Lemma is_zero_opp (q : Q) : is_zero (- q) = is_zero q.
Proof.
  unfold is_zero. destruct (Qeq_bool q 0) eqn:E.
  - apply Qeq_bool_eq in E. apply Qeq_eq_bool. lra.
  - destruct (Qeq_bool (- q) 0) eqn:E'; trivial.
    apply Qeq_bool_eq in E'. apply Qeq_bool_neq in E. exfalso. apply E. lra.
Qed.

Lemma is_neg_opp (q : Q) : is_zero q = false -> is_neg (- q) = negb (is_neg q).
Proof.
  intros H. apply Qeq_bool_neq in H. unfold is_neg.
  destruct (Qcompare_spec (- q) 0), (Qcompare_spec q 0); trivial; exfalso;
    try lra; apply H; lra.
Qed.

Lemma neg_neg (x : number) : neg (neg x) = x.
Proof.
  destruct x as [|s|q]; simpl; trivial.
  - now rewrite negb_involutive.
  - now rewrite Qopp_opp_eq.
Qed.

(** [a - b] is the negation of [b - a]. *)
Lemma sub_swap (x y : number) : sub x y = neg (sub y x).
Proof.
  unfold sub. destruct x as [|s|a], y as [|t|b]; try reflexivity;
    try (now destruct s); try (now destruct s, t).
  change (rnd64 (a + - b) = neg (rnd64 (b + - a))).
  rewrite <- rnd64_opp. apply rnd64_comp. ring.
Qed.

Lemma mul_neg_l (x y : number) : mul (neg x) y = neg (mul x y).
Proof.
  destruct x as [|s|a], y as [|t|b]; try reflexivity.
  - now destruct s, t.
  - cbn [neg mul]. destruct (is_zero b); trivial. now destruct s, (is_neg b).
  - cbn [neg mul]. rewrite is_zero_opp. destruct (is_zero a) eqn:E; trivial.
    rewrite (is_neg_opp a E). now destruct (is_neg a), t.
  - change (rnd64 (- a * b) = neg (rnd64 (a * b))).
    rewrite <- rnd64_opp. apply rnd64_comp. ring.
Qed.

(** *** Binary64 values *)

Lemma binary64_comp (q q' : Q) : q == q' -> binary64 (Fin q) -> binary64 (Fin q').
Proof.
  intros E (v & Hv & Ev). exists v. split; [|lra].
  now rewrite <- (rnd64_comp q q' E).
Qed.

Lemma binary64_neg (x : number) : binary64 x -> binary64 (neg x).
Proof.
  destruct x as [|s|q]; cbn [neg binary64]; trivial.
  intros (v & Hv & Ev). exists (- v). rewrite rnd64_opp, Hv. split; [reflexivity|lra].
Qed.

Lemma binary64_grid (q : Q) : 0 < q -> binary64 (Fin q) -> rnd_val q == q.
Proof.
  intros Hq (v & Hv & Ev). rewrite (rnd64_pos q Hq) in Hv.
  destruct (rnd_abs_cases q) as [[E _]|(v' & E & Ev' & _)]; rewrite E in Hv;
    [discriminate|].
  injection Hv as ->. lra.
Qed.

Lemma grid_binary64 (q : Q) :
  0 < q -> rnd_val q == q -> q < 2 ^ 1024 -> binary64 (Fin q).
Proof.
  intros Hq E Hb. cbn [binary64]. rewrite (rnd64_pos q Hq).
  destruct (rnd_abs_cases q) as [[_ C]|(v' & -> & Ev' & _)]; [exfalso; lra|].
  exists v'. split; [reflexivity|lra].
Qed.

(** The significand of a rounded value has at most 53 bits. *)
Lemma rne_significand (q : Q) : 0 < q ->
  (0 <= rne (q / 2 ^ ulp_exp q) <= 2 ^ 53)%Z.
Proof.
  intros Hq. destruct (floor_log2_spec q Hq) as [_ H2]. split.
  - apply rne_ge. apply Qle_shift_div_l; [apply pow2_pos|].
    change (inject_Z 0) with 0. lra.
  - apply rne_le. rewrite pow2_inject by lia. apply scaled_le.
    apply Qlt_le_weak. eapply Qlt_le_trans; [exact H2|].
    apply pow2_le. unfold ulp_exp. lia.
Qed.

Lemma ulp_exp_min (q : Q) : (-1074 <= ulp_exp q)%Z.
Proof. unfold ulp_exp. lia. Qed.

(** A multiple of a power of two with at most 53 bits is left as it is. *)
Lemma grid_exact (v : Q) (m e : Z) :
  (0 < m <= 2 ^ 53)%Z -> (-1074 <= e)%Z -> v == inject_Z m * 2 ^ e ->
  rnd_val v == v.
Proof.
  intros [Hm0 Hm] He Ev.
  assert (P : 0 < inject_Z m).
  { change 0 with (inject_Z 0). now rewrite <- Zlt_Qlt. }
  assert (Hv : 0 < v).
  { rewrite Ev. apply Qmult_lt_0_compat; [exact P|apply pow2_pos]. }
  assert (U : v <= 2 ^ (e + 53)).
  { rewrite Ev, Qpower_plus by apply two_neq_0.
    rewrite (Qmult_comm (2 ^ e)).
    apply Qmult_le_compat_r; [|apply Qlt_le_weak, pow2_pos].
    rewrite <- (pow2_inject 53) by lia. now rewrite <- Zle_Qle. }
  destruct (Z.eq_dec m (2 ^ 53)%Z) as [->|NE].
  - (* the value is a power of two *)
    assert (E2 : v == 2 ^ (e + 53)).
    { rewrite Ev, Qpower_plus by apply two_neq_0.
      rewrite pow2_inject by lia. ring. }
    assert (F : floor_log2 v = (e + 53)%Z).
    { apply floor_log2_unique; rewrite E2; [apply Qle_refl|].
      apply pow2_lt. lia. }
    apply rnd_val_exact with (m := (2 ^ 52)%Z).
    unfold ulp_exp. rewrite F.
    replace (Z.max (e + 53 - 52) (-1074)) with (e + 1)%Z by lia.
    rewrite E2, pow2_inject by lia.
    rewrite <- Qpower_plus by apply two_neq_0.
    now replace (52 + (e + 1))%Z with (e + 53)%Z by lia.
  - assert (S : v < 2 ^ (e + 53)).
    { rewrite Ev, Qpower_plus by apply two_neq_0.
      rewrite (Qmult_comm (2 ^ e)).
      apply Qmult_lt_compat_r; [apply pow2_pos|].
      rewrite <- (pow2_inject 53) by lia. rewrite <- Zlt_Qlt. lia. }
    assert (F : (floor_log2 v < e + 53)%Z).
    { destruct (floor_log2_spec v Hv) as [G _]. apply pow2_lt_inv.
      eapply Qle_lt_trans; eassumption. }
    assert (E' : (ulp_exp v <= e)%Z) by (unfold ulp_exp; lia).
    apply rnd_val_exact with (m := (m * 2 ^ (e - ulp_exp v))%Z).
    rewrite inject_Z_mult, pow2_inject by lia.
    rewrite <- Qmult_assoc, <- Qpower_plus by apply two_neq_0.
    now replace (e - ulp_exp v + ulp_exp v)%Z with e by lia.
Qed.

(** What rounding returns is a binary64 value. *)
Lemma rnd64_binary64_pos (q : Q) : 0 < q -> binary64 (rnd64 q).
Proof.
  intros Hq. rewrite (rnd64_pos q Hq).
  destruct (rnd_abs_cases q) as [[-> _]|(v & -> & Ev & Hb)]; [exact I|].
  pose proof (rne_significand q Hq) as [M0 M1].
  destruct (Z.eq_dec (rne (q / 2 ^ ulp_exp q)) 0%Z) as [Z0|NZ].
  - assert (E0 : v == 0).
    { rewrite Ev. unfold rnd_val. rewrite Z0. ring. }
    exists 0. split; [now apply rnd64_zero|lra].
  - assert (G : rnd_val v == v).
    { apply (grid_exact v (rne (q / 2 ^ ulp_exp q)) (ulp_exp q));
        [lia|apply ulp_exp_min|exact Ev]. }
    apply grid_binary64; trivial.
    rewrite Ev. unfold rnd_val. apply Qmult_lt_0_compat; [|apply pow2_pos].
    change 0 with (inject_Z 0). rewrite <- Zlt_Qlt. lia.
Qed.

Lemma rnd64_binary64 (q : Q) : binary64 (rnd64 q).
Proof.
  destruct (Qcompare_spec q 0) as [E|E|E].
  - rewrite (rnd64_zero q E). exists 0. split; reflexivity.
  - assert (R : rnd64 q = neg (rnd64 (- q))).
    { rewrite <- rnd64_opp. apply rnd64_comp. ring. }
    rewrite R. apply binary64_neg, rnd64_binary64_pos. lra.
  - now apply rnd64_binary64_pos.
Qed.

Lemma add_binary64 (x y : number) : binary64 (add x y).
Proof.
  destruct x as [|s|a], y as [|t|b]; cbn [add]; try exact I.
  - now destruct (Bool.eqb s t).
  - apply rnd64_binary64.
Qed.

Lemma mul_binary64 (x y : number) : binary64 (mul x y).
Proof.
  destruct x as [|s|a], y as [|t|b]; cbn [mul]; try exact I.
  - now destruct (is_zero b).
  - now destruct (is_zero a).
  - apply rnd64_binary64.
Qed.

(** The significand of a binary64 value has less than 54 bits. *)
Lemma binary64_significand (a : Q) : 0 < a -> binary64 (Fin a) ->
  exists m, (0 < m < 2 ^ 53)%Z /\ a == inject_Z m * 2 ^ ulp_exp a.
Proof.
  intros Ha Ba. pose proof (binary64_grid a Ha Ba) as G.
  exists (rne (a / 2 ^ ulp_exp a)). split; [|now rewrite <- G at 1].
  unfold rnd_val in G. set (m := rne (a / 2 ^ ulp_exp a)) in *.
  set (e := ulp_exp a) in *.
  assert (U : 0 < 2 ^ e) by apply pow2_pos.
  split.
  - rewrite Zlt_Qlt. change (inject_Z 0) with 0.
    destruct (Qlt_le_dec 0 (inject_Z m)) as [P|P]; trivial. exfalso.
    assert (inject_Z m * 2 ^ e <= 0); [|lra].
    rewrite <- (Qmult_0_l (2 ^ e)).
    apply Qmult_le_compat_r; [exact P|lra].
  - destruct (floor_log2_spec a Ha) as [_ H2].
    assert (H3 : a < 2 ^ 53 * 2 ^ e).
    { rewrite <- Qpower_plus by apply two_neq_0.
      eapply Qlt_le_trans; [exact H2|]. apply pow2_le.
      unfold e, ulp_exp. lia. }
    rewrite Zlt_Qlt, pow2_inject by lia.
    destruct (Qlt_le_dec (inject_Z m) (2 ^ 53)) as [P|P]; trivial. exfalso.
    assert (2 ^ 53 * 2 ^ e <= inject_Z m * 2 ^ e); [|lra].
    apply Qmult_le_compat_r; [exact P|lra].
Qed.

(** Two binary64 values that differ are apart by a unit in the last
    place of the smaller one, which is more than its [2^-53]-th part. *)
Lemma binary64_gap (a b : Q) :
  0 < a -> a < b -> binary64 (Fin a) -> binary64 (Fin b) ->
  a * 2 ^ 53 <= b * (2 ^ 53 - 1).
Proof.
  intros Ha Hab Ba Bb. assert (Hb : 0 < b) by lra.
  destruct (binary64_significand a Ha Ba) as (ma & [Ma0 Ma] & Ea).
  destruct (binary64_significand b Hb Bb) as (mb & [Mb0 Mb] & Eb).
  pose proof (ulp_exp_mono a b Ha (Qlt_le_weak _ _ Hab)) as He.
  set (ea := ulp_exp a) in *. set (eb := ulp_exp b) in *.
  set (N := (mb * 2 ^ (eb - ea))%Z).
  assert (U : 0 < 2 ^ ea) by apply pow2_pos.
  assert (EN : b == inject_Z N * 2 ^ ea).
  { rewrite Eb. unfold N. rewrite inject_Z_mult, pow2_inject by lia.
    rewrite <- Qmult_assoc, <- Qpower_plus by apply two_neq_0.
    now replace (eb - ea + ea)%Z with eb by lia. }
  assert (L : (ma < N)%Z).
  { rewrite Zlt_Qlt.
    destruct (Qlt_le_dec (inject_Z ma) (inject_Z N)) as [P|P]; trivial.
    exfalso. assert (inject_Z N * 2 ^ ea <= inject_Z ma * 2 ^ ea); [|lra].
    apply Qmult_le_compat_r; [exact P|lra]. }
  assert (K : (ma * 2 ^ 53 <= N * (2 ^ 53 - 1))%Z) by lia.
  rewrite Zle_Qle, !inject_Z_mult in K.
  change (inject_Z (2 ^ 53)) with (2 ^ 53) in K.
  change (inject_Z (2 ^ 53 - 1)) with (2 ^ 53 - 1) in K.
  assert (K2 : inject_Z ma * 2 ^ 53 * 2 ^ ea
               <= inject_Z N * (2 ^ 53 - 1) * 2 ^ ea)
    by (apply Qmult_le_compat_r; [exact K|lra]).
  assert (X1 : a * 2 ^ 53 == inject_Z ma * 2 ^ 53 * 2 ^ ea)
    by (rewrite Ea; ring).
  assert (X2 : b * (2 ^ 53 - 1) == inject_Z N * (2 ^ 53 - 1) * 2 ^ ea)
    by (rewrite EN; ring).
  rewrite X1, X2. exact K2.
Qed.

(** The quotient of a binary64 value by a smaller positive one rounds to
    more than 1, and what is above 1 in it to more than 0. *)
Lemma quotient_above_one (t a : number) :
  binary64 t -> binary64 a -> gtb a (Fin 0) = true -> gtb t a = true ->
  gtb (sub (div t a) (Fin 1)) (Fin 0) = true.
Proof.
  intros Bt Ba Ha Hta.
  destruct a as [|[|]|a]; try discriminate.
  { destruct t as [|[|]|]; discriminate. }
  unfold gtb in Ha. apply ltb_lt in Ha.
  assert (Hz : is_zero a = false).
  { unfold is_zero. destruct (Qeq_bool a 0) eqn:E; trivial.
    apply Qeq_bool_eq in E. exfalso. lra. }
  assert (Hn : is_neg a = false).
  { unfold is_neg. destruct (Qcompare_spec a 0); trivial. exfalso. lra. }
  destruct t as [|[|]|b]; try discriminate.
  - cbn [div]. rewrite Hn. reflexivity.
  - unfold gtb in Hta. apply ltb_lt in Hta.
    cbn [div]. rewrite Hz.
    pose proof (binary64_gap a b Ha Hta Ba Bt) as G.
    assert (Q1 : (2 ^ 53) / (2 ^ 53 - 1) <= b / a).
    { apply Qle_shift_div_l; [exact Ha|].
      unfold Qdiv at 1. rewrite <- Qmult_assoc, (Qmult_comm (/ _)), Qmult_assoc.
      apply Qle_shift_div_r; [reflexivity|]. lra. }
    pose proof (rnd64_mono _ _ Q1) as R1.
    assert (C1 : rnd64 (2 ^ 53 / (2 ^ 53 - 1)) = Fin (1 + 2 ^ (-52)))
      by (vm_compute; reflexivity).
    rewrite C1 in R1.
    destruct (rnd64 (b / a)) as [|[|]|x]; try contradiction; [reflexivity|].
    cbn [le] in R1. unfold sub. cbn [neg add].
    assert (Q2 : 2 ^ (-52) <= x + - (1)) by lra.
    pose proof (rnd64_mono _ _ Q2) as R2.
    assert (C2 : rnd64 (2 ^ (-52)) = Fin (2 ^ (-52)))
      by (vm_compute; reflexivity).
    rewrite C2 in R2.
    destruct (rnd64 (x + - (1))) as [|[|]|y]; try contradiction; [reflexivity|].
    cbn [le] in R2. unfold gtb. apply ltb_lt.
    assert (0 < 2 ^ (-52)) by reflexivity. lra.
Qed.

End JSNumberFacts.

Module PlanFacts.
Import JSNumber JSNumberFacts Plan.

(** The part of a day that is not a financial field. *)
Definition journal_of (d : Day) :=
  (day d, date d, achieved d, pnlSign d, actual d,
   winningTrades d, losingTrades d, logic d, rules d).

(** What [recalculatePlan] must leave alone in a month. *)
Definition frame_of (m : Month) :=
  (id m, monthName m, map journal_of (days m)).

(** A document as it is persisted: no [actual] holds NaN or an infinity,
    which JSON cannot write. *)
Definition json_shaped (ms : list Month) : Prop :=
  Forall (fun m => Forall (fun d => json_val (actual d) = actual d) (days m)) ms.

(** The document with its configuration replaced by the validated one. *)
Definition sanitized (P : Document (list Month)) : Document (list Month) :=
  mkDocument (validInitialCapital P) (validFinalTarget P) (validTenure P)
    (months P).

(** The example configuration of the specification. *)
Definition example_config (ms : list Month) : Document (list Month) :=
  mkDocument (Fin 50000) (Fin 1000000) (Fin 66) ms.

(** What [walkDay] leaves in a day, from the running capital [a] and the
    day's goal [g]. *)
Definition requiredRate (a : number) (g : Goal) : number :=
  if gtb a num0 && gtb (g_target g) a
  then sub (div (g_target g) a) num1 else num0.

Definition written (a : number) (g : Goal) (d : Day) : Prop :=
  capital d = JNum (Math_round a) /\
  target d = JNum (g_target g) /\
  profit d = JNum (g_profit g) /\
  dailyRate d = JNum (requiredRate a g).

Definition nextCapital (a : number) (d : Day) : number :=
  if is_recorded (actual d) then add a (signedProfit d)
  else ToNumber (target d).

(** The running capital before day [i], read off the recalculated days:
    it starts at [a] and each day adds its signed outcome, or, with no
    outcome recorded, moves to that day's target. *)
Fixpoint runningCapital (a : number) (ds : list Day) (i : nat) : number :=
  match i, ds with
  | S i', d :: ds' => runningCapital (nextCapital a d) ds' i'
  | _, _ => a
  end.

(** An invariant of the goals: they hold a property [Q], and there is at
    least one. *)
Definition goals_have (Q : Goal -> Prop) (w : Walk) : Prop :=
  Forall Q (plannedGoals w) /\ plannedGoals w <> [].

(** A goal whose target is an integer: [Math.round] leaves it as it is. *)
Definition rounded (g : Goal) : Prop := Math_round (g_target g) = g_target g.

(** The goal for the current day is always there: the array is extended
    as soon as the day counter reaches its length. *)
Definition in_range (w : Walk) : Prop :=
  (totalDaysElapsed w <= length (plannedGoals w))%nat.

(** The goal of day number [k] (from 0): the planned one, and the last
    planned one for the days after the tenure. *)
Definition goal_of (planned : list Goal) (k : nat) : option Goal :=
  match planned !! k with
  | Some g => Some g
  | None => last planned
  end.

(** The goals of a walk are the planned ones, extended by copies of the
    last one. *)
Definition extends (planned : list Goal) (w : Walk) : Prop :=
  planned <> [] /\
  (totalDaysElapsed w <= length (plannedGoals w))%nat /\
  (length planned <= length (plannedGoals w))%nat /\
  forall k g, plannedGoals w !! k = Some g -> goal_of planned k = Some g.

(** The ideal capital after [k] days: the capital [c] compounded [k]
    times at [rate]. *)
Fixpoint idealCapital (c rate : number) (k : nat) : number :=
  match k with
  | O => c
  | S k' => mul (idealCapital c rate k') (add num1 rate)
  end.

(** The goal of day [k] (from 0) of the ideal plan: the rounded capital
    after the day, and the rounded gain of the day. *)
Definition idealGoal (c rate : number) (k : nat) : Goal :=
  mkGoal (Math_round (idealCapital c rate (S k)))
    (Math_round (sub (idealCapital c rate (S k)) (idealCapital c rate k))).

(** The loop counter after [k] iterations. *)
Definition counter (k : nat) : number := Fin (inject_Z (Z.of_nat k)).

(** A goal whose target is a binary64 value. *)
Definition target_binary64 (g : Goal) : Prop := binary64 (g_target g).

(** A bound between concrete numbers, by evaluation. *)
Ltac by_computation := refine (le_of_leb _ _ _); vm_compute; reflexivity.

Lemma json_val_idem (v : jsval) : json_val (json_val v) = json_val v.
Proof.
  destruct v as [|n|s]; simpl; trivial.
  destruct (isFinite n) eqn:E; simpl; rewrite ?E; trivial.
Qed.

Lemma journal_json_day (d1 d2 : Day) :
  journal_of d1 = journal_of d2 ->
  journal_of (json_day d1) = journal_of (json_day d2).
Proof.
  destruct d1, d2; unfold journal_of; simpl.
  intros [= -> -> -> -> -> -> -> -> ->]; reflexivity.
Qed.

Lemma journal_json_day_idem (d : Day) :
  journal_of (json_day (json_day d)) = journal_of (json_day d).
Proof.
  destruct d; unfold journal_of; simpl. now rewrite json_val_idem.
Qed.

Lemma Qfloor_half (n : Z) : Qfloor (inject_Z n + (1 # 2)) = n.
Proof.
  pose proof (Qfloor_le (inject_Z n + (1 # 2))) as H1.
  pose proof (Qlt_floor (inject_Z n + (1 # 2))) as H2.
  set (f := Qfloor (inject_Z n + (1 # 2))) in *.
  assert (A : inject_Z f < inject_Z (n + 1)).
  { rewrite inject_Z_plus. change (inject_Z 1) with 1. lra. }
  assert (B : inject_Z n < inject_Z (f + 1)) by lra.
  rewrite <- Zlt_Qlt in A, B. lia.
Qed.

Lemma Math_round_idem (x : number) : Math_round (Math_round x) = Math_round x.
Proof. destruct x; trivial. unfold Math_round. now rewrite Qfloor_half. Qed.

(** A binary64 value of magnitude [2^52] or more is an integer. *)
Lemma binary64_large (q : Q) : 2 ^ 52 <= q -> binary64 (Fin q) ->
  exists K : Z, q == inject_Z K.
Proof.
  intros Hq Bq. assert (H0 : 0 < q).
  { eapply Qlt_le_trans; [apply (pow2_pos 52)|exact Hq]. }
  destruct (binary64_significand q H0 Bq) as (m & _ & E).
  assert (F : (52 <= floor_log2 q)%Z).
  { destruct (floor_log2_spec q H0) as [_ G].
    assert (52 < floor_log2 q + 1)%Z; [|lia].
    apply pow2_lt_inv. eapply Qle_lt_trans; eassumption. }
  assert (He : (0 <= ulp_exp q)%Z) by (unfold ulp_exp; lia).
  exists (m * 2 ^ ulp_exp q)%Z.
  rewrite inject_Z_mult, pow2_inject by lia. exact E.
Qed.

Lemma binary64_int (n : Z) : (- 2 ^ 53 < n < 2 ^ 53)%Z ->
  binary64 (Fin (inject_Z n)).
Proof.
  intros H. destruct (Z_lt_le_dec n 0%Z) as [N|N].
  - apply (binary64_comp (- inject_Z (- n))).
    { rewrite inject_Z_opp. ring. }
    apply (binary64_neg (Fin (inject_Z (- n)))).
    exists (inject_Z (- n)). split; [|reflexivity].
    apply rnd64_int; [lia|reflexivity].
  - exists (inject_Z n). split; [|reflexivity].
    apply rnd64_int; [lia|reflexivity].
Qed.

Lemma Qfloor_half_comp (q : Q) (K : Z) :
  q == inject_Z K -> Qfloor (q + (1 # 2)) = K.
Proof.
  intros E. rewrite <- (Qfloor_half K). apply Qfloor_comp. now rewrite E.
Qed.

(** [Math.round] of a binary64 value is a binary64 value. *)
Lemma Math_round_binary64 (x : number) :
  binary64 x -> binary64 (Math_round x).
Proof.
  destruct x as [|s|q]; trivial. intros Bq. cbn [Math_round].
  destruct (Qlt_le_dec q (2 ^ 52)) as [U|U].
  - destruct (Qlt_le_dec (- 2 ^ 52) q) as [L|L].
    + apply binary64_int.
      pose proof (Qfloor_le (q + (1 # 2))) as F1.
      pose proof (Qlt_floor (q + (1 # 2))) as F2.
      assert (A : inject_Z (Qfloor (q + (1 # 2))) < inject_Z (2 ^ 53)).
      { change (inject_Z (2 ^ 53)) with (2 ^ 53).
        assert (2 ^ 52 + (1 # 2) < 2 ^ 53) by reflexivity. lra. }
      assert (B : inject_Z (- 2 ^ 53 + 1) < inject_Z (Qfloor (q + (1 # 2)) + 1)).
      { change (inject_Z (- 2 ^ 53 + 1)) with (- 2 ^ 53 + 1).
        assert (- 2 ^ 53 + 1 < - 2 ^ 52 + (1 # 2)) by reflexivity. lra. }
      rewrite <- Zlt_Qlt in A, B. lia.
    + assert (Bn : binary64 (Fin (- q))) by exact (binary64_neg (Fin q) Bq).
      destruct (binary64_large (- q)) as (K & EK); [lra|exact Bn|].
      assert (E : q == inject_Z (- K)) by (rewrite inject_Z_opp; lra).
      rewrite (Qfloor_half_comp q _ E).
      exact (binary64_comp _ _ E Bq).
  - destruct (binary64_large q U Bq) as (K & E).
    rewrite (Qfloor_half_comp q _ E). exact (binary64_comp _ _ E Bq).
Qed.

Section Recalculate.
Variable Math_pow : number -> number -> number.

Lemma walkDay_ext (w : Walk) (d1 d2 : Day) :
  journal_of d1 = journal_of d2 -> walkDay w d1 = walkDay w d2.
Proof.
  destruct d1, d2; unfold journal_of; simpl.
  intros [= -> -> -> -> -> -> -> -> ->]; reflexivity.
Qed.

Lemma walkDay_journal (w w' : Walk) (d d' : Day) :
  walkDay w d = Done (d', w') -> journal_of d' = journal_of d.
Proof.
  unfold walkDay. destruct (extendGoals w !! totalDaysElapsed w); [|discriminate].
  intros [= <- _]. reflexivity.
Qed.

Lemma walkDay_idem (w w' : Walk) (d d' : Day) :
  walkDay w (json_day d) = Done (d', w') ->
  walkDay w (json_day d') = Done (d', w').
Proof.
  intros H. rewrite <- H. apply walkDay_ext.
  apply walkDay_journal in H.
  rewrite (journal_json_day _ _ H). apply journal_json_day_idem.
Qed.

Lemma walkDays_idem (ds : list Day) : forall (w w' : Walk) (ds' : list Day),
  walkDays w (map json_day ds) = Done (ds', w') ->
  walkDays w (map json_day ds') = Done (ds', w').
Proof.
  induction ds as [|d ds IH]; simpl; intros w w' ds' H.
  - injection H as <- <-. reflexivity.
  - destruct (walkDay w (json_day d)) as [[d1 w1]| |] eqn:E1; try discriminate.
    simpl in H.
    destruct (walkDays w1 (map json_day ds)) as [[ds2 w2]| |] eqn:E2;
      try discriminate.
    simpl in H. injection H as <- <-. simpl.
    rewrite (walkDay_idem _ _ _ _ E1). simpl.
    rewrite (IH _ _ _ E2). reflexivity.
Qed.

Lemma walkMonths_idem (ms : list Month) : forall (w w' : Walk) (ms' : list Month),
  walkMonths w (json_months ms) = Done (ms', w') ->
  walkMonths w (json_months ms') = Done (ms', w').
Proof.
  induction ms as [|m ms IH]; simpl; intros w w' ms' H.
  - injection H as <- <-. reflexivity.
  - destruct (walkDays w (map json_day (days m))) as [[ds1 w1]| |] eqn:E1;
      try discriminate.
    simpl in H.
    destruct (walkMonths w1 (json_months ms)) as [[ms2 w2]| |] eqn:E2;
      try discriminate.
    simpl in H. injection H as <- <-. simpl.
    rewrite (walkDays_idem _ _ _ _ E1). simpl.
    rewrite (IH _ _ _ E2). reflexivity.
Qed.

(** *** The walk over all days *)

Lemma walkDays_app (a b : list Day) : forall w : Walk,
  walkDays w (a ++ b) =
  let* (a', w1) := walkDays w a in
  let* (b', w2) := walkDays w1 b in
  Done (a' ++ b', w2).
Proof.
  induction a as [|d a IH]; simpl; intros w.
  - destruct (walkDays w b) as [[b' w2]| |]; reflexivity.
  - destruct (walkDay w d) as [[d1 w1]| |]; simpl; trivial.
    rewrite IH. destruct (walkDays w1 a) as [[a' w2]| |]; simpl; trivial.
    destruct (walkDays w2 b) as [[b' w3]| |]; reflexivity.
Qed.

Lemma walkMonths_allDays (ms : list Month) : forall (w w' : Walk) ms',
  walkMonths w ms = Done (ms', w') ->
  walkDays w (allDays ms) = Done (allDays ms', w').
Proof.
  induction ms as [|m ms IH]; simpl; intros w w' ms' H.
  - injection H as <- <-. reflexivity.
  - destruct (walkDays w (days m)) as [[ds1 w1]| |] eqn:E1; try discriminate.
    simpl in H.
    destruct (walkMonths w1 ms) as [[ms2 w2]| |] eqn:E2; try discriminate.
    simpl in H. injection H as <- <-.
    rewrite walkDays_app, E1. simpl. rewrite (IH _ _ _ E2). reflexivity.
Qed.

Lemma walkDay_inv (w w' : Walk) (d d' : Day) :
  walkDay w d = Done (d', w') ->
  exists g,
    extendGoals w !! totalDaysElapsed w = Some g /\
    written (actualCapital w) g d' /\
    journal_of d' = journal_of d /\
    w' = mkWalk (extendGoals w) (nextCapital (actualCapital w) d')
           (S (totalDaysElapsed w)).
Proof.
  unfold walkDay.
  destruct (extendGoals w !! totalDaysElapsed w) as [g|] eqn:E; [|discriminate].
  intros [= <- <-]. exists g. repeat split.
Qed.

Lemma last_Forall (Q : Goal -> Prop) (l : list Goal) (g : Goal) :
  Forall Q l -> last l = Some g -> Q g.
Proof.
  intros HF HL. rewrite Forall_forall in HF. apply HF.
  apply last_Some_elem_of, HL.
Qed.

Lemma extendGoals_have (Q : Goal -> Prop) (w : Walk) :
  goals_have Q w -> Forall Q (extendGoals w) /\ extendGoals w <> [].
Proof.
  intros [HF HN]. unfold extendGoals.
  destruct (length (plannedGoals w) <=? totalDaysElapsed w)%nat; [|now split].
  destruct (last (plannedGoals w)) as [g|] eqn:EL.
  - split.
    + apply Forall_app. split; [exact HF|]. constructor; [|constructor].
      destruct g. exact (last_Forall Q _ _ HF EL).
    + intros C. apply app_eq_nil in C. destruct C. discriminate.
  - apply last_None in EL. contradiction.
Qed.

Lemma walkDays_nth (Q : Goal -> Prop) (ds : list Day) :
  forall (w w' : Walk) (ds' : list Day),
  goals_have Q w ->
  walkDays w ds = Done (ds', w') ->
  forall (i : nat) (d' : Day), ds' !! i = Some d' ->
  exists g, Q g /\ written (runningCapital (actualCapital w) ds' i) g d'.
Proof.
  induction ds as [|d ds IH]; simpl; intros w w' ds' HQ H i d' Hi.
  - injection H as <- <-. discriminate.
  - destruct (walkDay w d) as [[d1 w1]| |] eqn:E1; try discriminate.
    simpl in H.
    destruct (walkDays w1 ds) as [[ds2 w2]| |] eqn:E2; try discriminate.
    simpl in H. injection H as <- <-.
    destruct (walkDay_inv _ _ _ _ E1) as (g & Hg & Hw & _ & ->).
    destruct (extendGoals_have Q w HQ) as [HF HN].
    destruct i as [|i]; simpl in *.
    + injection Hi as <-. exists g. split; [|exact Hw].
      rewrite Forall_forall in HF. apply HF.
      eapply list_elem_of_lookup_2, Hg.
    + eapply (IH _ _ _ _ E2 i d' Hi).
  Unshelve. split; assumption.
Qed.

(** *** The ideal plan *)

Lemma plannedLoop_spec (fuel : nat) : forall vT rate i pc init goals,
  plannedLoop fuel vT rate i pc init = Done goals ->
  exists new, goals = init ++ new /\ Forall rounded new /\
              (ltb i vT = true -> new <> []).
Proof.
  induction fuel as [|fuel IH]; simpl; intros vT rate i pc init goals H.
  - destruct (ltb i vT); [discriminate|]. injection H as <-.
    exists []. rewrite app_nil_r. repeat split; [constructor|discriminate].
  - destruct (ltb i vT) eqn:E.
    + apply IH in H. destruct H as (new & -> & HF & _).
      eexists (_ :: new). rewrite <- app_assoc. split; [reflexivity|].
      split; [|discriminate]. constructor; [|exact HF].
      unfold rounded. simpl. apply Math_round_idem.
    + injection H as <-. exists []. rewrite app_nil_r.
      repeat split; [constructor|discriminate].
Qed.

Lemma plannedLoop_no_TypeError (fuel : nat) : forall vT rate i pc init,
  plannedLoop fuel vT rate i pc init <> TypeError.
Proof.
  induction fuel as [|fuel IH]; simpl; intros vT rate i pc init;
    destruct (ltb i vT); try discriminate. apply IH.
Qed.

(** The loop counter takes the values 0, 1, 2, ... exactly, so a finite
    bound below [2^53] is reached. *)
Lemma plannedLoop_eq (fuel : nat) (vT rate i pc : number) (init : list Goal) :
  plannedLoop fuel vT rate i pc init =
  if ltb i vT then
    match fuel with
    | O => OutOfFuel
    | S fuel' =>
        plannedLoop fuel' vT rate (add i num1)
          (mul pc (add num1 rate))
          (init ++ [mkGoal (Math_round (mul pc (add num1 rate)))
                      (Math_round (sub (mul pc (add num1 rate)) pc))])
    end
  else Done init.
Proof. destruct fuel; reflexivity. Qed.

Lemma plannedLoop_terminates (q : Q) (n : nat) : forall (k : Z) fuel rate pc init,
  (0 <= k)%Z -> (k + Z.of_nat n < 2 ^ 53)%Z ->
  q <= inject_Z (k + Z.of_nat n) -> (n <= fuel)%nat ->
  exists goals,
    plannedLoop fuel (Fin q) rate (Fin (inject_Z k)) pc init = Done goals.
Proof.
  induction n as [|n IH]; intros k fuel rate pc init Hk Hn Hq Hf;
    rewrite plannedLoop_eq.
  - assert (E : ltb (Fin (inject_Z k)) (Fin q) = false).
    { destruct (ltb _ _) eqn:E; trivial. apply ltb_lt in E.
      rewrite Z.add_0_r in Hq. exfalso. lra. }
    rewrite E. eauto.
  - destruct (ltb (Fin (inject_Z k)) (Fin q)); [|eauto].
    destruct fuel as [|fuel]; [lia|].
    unfold num1. rewrite add_one_int by lia.
    apply IH; try lia.
    now replace (k + 1 + Z.of_nat n)%Z with (k + Z.of_nat (S n))%Z by lia.
Qed.

(** *** No [TypeError] *)

Lemma extendGoals_length (w : Walk) : in_range w ->
  (totalDaysElapsed w < length (extendGoals w))%nat.
Proof.
  unfold in_range, extendGoals. intros H.
  destruct (Nat.leb_spec (length (plannedGoals w)) (totalDaysElapsed w)).
  - rewrite length_app. simpl. lia.
  - lia.
Qed.

Lemma walkDay_runs (w : Walk) (d : Day) : in_range w ->
  exists d' w', walkDay w d = Done (d', w') /\ in_range w'.
Proof.
  intros H. pose proof (extendGoals_length w H) as HL. unfold walkDay.
  destruct (lookup_lt_is_Some_2 _ _ HL) as [g ->].
  do 2 eexists. split; [reflexivity|]. unfold in_range. simpl. lia.
Qed.

Lemma walkDays_runs (ds : list Day) : forall w, in_range w ->
  exists ds' w', walkDays w ds = Done (ds', w') /\ in_range w'.
Proof.
  induction ds as [|d ds IH]; simpl; intros w H; [eauto|].
  destruct (walkDay_runs w d H) as (d1 & w1 & -> & H1). simpl.
  destruct (IH w1 H1) as (ds2 & w2 & -> & H2). simpl. eauto.
Qed.

Lemma walkMonths_runs (ms : list Month) : forall w, in_range w ->
  exists ms' w', walkMonths w ms = Done (ms', w') /\ in_range w'.
Proof.
  induction ms as [|m ms IH]; simpl; intros w H; [eauto|].
  destruct (walkDays_runs (days m) w H) as (ds1 & w1 & -> & H1). simpl.
  destruct (IH w1 H1) as (ms2 & w2 & -> & H2). simpl. eauto.
Qed.

(** The run ends as soon as the first loop does. *)
Lemma recalculatePlan_runs (fuel : nat) (P : Document (list Month)) (goals : list Goal) :
  plannedLoop fuel (validTenure P) (initialDailyRate Math_pow P) num0
    (validInitialCapital P) [] = Done goals ->
  exists M, recalculatePlan Math_pow fuel P = Done M.
Proof.
  intros H. unfold recalculatePlan. rewrite H. simpl.
  destruct (walkMonths_runs (json_months (months P))
              (mkWalk goals (validInitialCapital P) 0)) as (ms & w & -> & _).
  - unfold in_range. simpl. lia.
  - simpl. eauto.
Qed.

Lemma recalculatePlan_no_TypeError (fuel : nat) (P : Document (list Month)) :
  recalculatePlan Math_pow fuel P <> TypeError.
Proof.
  destruct (plannedLoop fuel (validTenure P) (initialDailyRate Math_pow P) num0
              (validInitialCapital P) []) as [goals| |] eqn:E.
  - destruct (recalculatePlan_runs fuel P goals E) as [M ->]. discriminate.
  - unfold recalculatePlan. rewrite E. discriminate.
  - now apply plannedLoop_no_TypeError in E.
Qed.

(** *** What a finished run went through *)

Lemma allDays_json (ms : list Month) :
  allDays (json_months ms) = map json_day (allDays ms).
Proof.
  induction ms as [|m ms IH]; simpl; trivial.
  unfold allDays in *. simpl. now rewrite IH, map_app.
Qed.

Lemma validTenure_pos (P : Document (list Month)) : ltb num0 (validTenure P) = true.
Proof.
  unfold validTenure, gtb.
  destruct (ltb num0 (tenure P)) eqn:E; [exact E|reflexivity].
Qed.

Lemma recalculatePlan_inv (fuel : nat) (P : Document (list Month)) (M : list Month) :
  recalculatePlan Math_pow fuel P = Done M ->
  exists goals w',
    plannedLoop fuel (validTenure P) (initialDailyRate Math_pow P) num0
      (validInitialCapital P) [] = Done goals /\
    walkMonths (mkWalk goals (validInitialCapital P) 0)
      (json_months (months P)) = Done (M, w') /\
    goals_have rounded (mkWalk goals (validInitialCapital P) 0).
Proof.
  unfold recalculatePlan.
  destruct (plannedLoop _ _ _ _ _ _) as [goals| |] eqn:E; simpl; try discriminate.
  destruct (walkMonths _ _) as [[ms w']| |] eqn:E2; simpl; try discriminate.
  intros [= ->]. exists goals, w'. repeat split; trivial.
  - destruct (plannedLoop_spec _ _ _ _ _ _ _ E) as (new & -> & HF & _).
    exact HF.
  - destruct (plannedLoop_spec _ _ _ _ _ _ _ E) as (new & -> & _ & HN).
    simpl. apply HN, validTenure_pos.
Qed.

(** Every recalculated day holds the rounded running capital, a goal with
    an integer target, and the rate required from the running capital. *)
Lemma recalculatePlan_day (fuel : nat) (P : Document (list Month)) (M : list Month)
    (i : nat) (d : Day) :
  recalculatePlan Math_pow fuel P = Done M ->
  allDays M !! i = Some d ->
  exists g, rounded g /\
    written (runningCapital (validInitialCapital P) (allDays M) i) g d.
Proof.
  intros H Hi. destruct (recalculatePlan_inv _ _ _ H) as (goals & w' & _ & HW & HG).
  apply walkMonths_allDays in HW.
  exact (walkDays_nth rounded _ _ _ _ HG HW i d Hi).
Qed.

Lemma runningCapital_S (ds : list Day) : forall (a : number) (i : nat) (d : Day),
  ds !! i = Some d ->
  runningCapital a ds (S i) = nextCapital (runningCapital a ds i) d.
Proof.
  induction ds as [|d0 ds IH]; intros a i d Hi; [discriminate|].
  destruct i as [|i]; simpl in *.
  - injection Hi as <-. now destruct ds.
  - exact (IH _ _ _ Hi).
Qed.

Lemma is_recorded_false (v : jsval) : is_recorded v = false <-> v = JStr "".
Proof.
  destruct v as [| |s]; simpl; try (split; discriminate).
  rewrite negb_false_iff, String.eqb_eq. split; congruence.
Qed.

(** *** The required rate *)

Lemma gtb_zero_Fin (a : number) : gtb a num0 = true ->
  a = Inf false \/ exists q, a = Fin q /\ 0 < q.
Proof.
  unfold gtb, num0. destruct a as [|[|]|q]; simpl; try discriminate; auto.
  intros H. right. exists q. split; trivial.
  destruct (Qcompare_spec 0 q); trivial; discriminate.
Qed.

Lemma requiredRate_nonneg (a : number) (g : Goal) :
  le (Fin 0) (requiredRate a g).
Proof.
  unfold requiredRate.
  destruct (gtb a num0) eqn:Ea; simpl; [|lra].
  destruct (gtb (g_target g) a) eqn:Et; simpl; [|lra].
  destruct (gtb_zero_Fin a Ea) as [->|(qa & -> & Hqa)].
  { unfold gtb in Et. destruct (g_target g) as [|[|]|]; discriminate. }
  assert (Hz : is_zero qa = false).
  { unfold is_zero. destruct (Qeq_bool qa 0) eqn:E; trivial.
    apply Qeq_bool_eq in E. exfalso. lra. }
  assert (Hn : is_neg qa = false).
  { unfold is_neg. destruct (Qcompare_spec qa 0); trivial. exfalso. lra. }
  unfold gtb in Et. destruct (g_target g) as [|[|]|qt]; try discriminate.
  - unfold div. rewrite Hn. exact I.
  - apply ltb_lt in Et. unfold div. rewrite Hz.
    assert (H1 : le (Fin (2 ^ 0)) (rnd64 (qt / qa))).
    { apply rnd64_ge_pow2; [lia|]. change (2 ^ 0) with 1.
      apply Qle_shift_div_l; lra. }
    destruct (rnd64 (qt / qa)) as [|[|]|v]; try contradiction; [exact I|].
    simpl in H1. unfold sub, num1, neg, add.
    apply rnd64_nonneg. change (2 ^ 0) with 1 in H1. lra.
Qed.

Lemma requiredRate_zero (a : number) (g : Goal) :
  geb a (g_target g) = true \/ gtb a num0 = false ->
  requiredRate a g = num0.
Proof.
  unfold requiredRate. intros [H|H].
  - destruct (gtb a num0); trivial.
    assert (E : gtb (g_target g) a = false); [|now rewrite E].
    unfold geb in H. apply leb_le in H. unfold gtb.
    destruct (g_target g) as [|[|]|t], a as [|[|]|q]; simpl in *; trivial;
      try contradiction.
    destruct (Qcompare_spec q t); trivial. exfalso. lra.
  - now rewrite H.
Qed.

(** C1.  Recalculation is idempotent: recalculating the document whose
    months are the result of a recalculation yields those months again,
    field for field. *)
Theorem recalculatePlan_idempotent (fuel : nat) (P : Document (list Month)) (M : list Month) :
  recalculatePlan Math_pow fuel P = Done M ->
  recalculatePlan Math_pow fuel (set_months P M) = Done M.
Proof.
  unfold recalculatePlan. simpl.
  change (validTenure (set_months P M)) with (validTenure P).
  change (validInitialCapital (set_months P M)) with (validInitialCapital P).
  change (initialDailyRate Math_pow (set_months P M))
    with (initialDailyRate Math_pow P).
  destruct (plannedLoop _ _ _ _ _ _) as [goals| |]; simpl; try discriminate.
  destruct (walkMonths _ (json_months (months P))) as [[ms w']| |] eqn:E;
    simpl; try discriminate.
  intros [= ->]. rewrite (walkMonths_idem _ _ _ _ E). reflexivity.
Qed.


(** *** The journal is left alone *)

Lemma walkDays_journal (ds : list Day) : forall (w w' : Walk) ds',
  walkDays w ds = Done (ds', w') -> map journal_of ds' = map journal_of ds.
Proof.
  induction ds as [|d ds IH]; simpl; intros w w' ds' H.
  - injection H as <- <-. reflexivity.
  - destruct (walkDay w d) as [[d1 w1]| |] eqn:E1; try discriminate.
    simpl in H.
    destruct (walkDays w1 ds) as [[ds2 w2]| |] eqn:E2; try discriminate.
    simpl in H. injection H as <- <-. simpl.
    now rewrite (walkDay_journal _ _ _ _ E1), (IH _ _ _ E2).
Qed.

Lemma walkMonths_frame (ms : list Month) : forall (w w' : Walk) ms',
  walkMonths w ms = Done (ms', w') -> map frame_of ms' = map frame_of ms.
Proof.
  induction ms as [|m ms IH]; simpl; intros w w' ms' H.
  - injection H as <- <-. reflexivity.
  - destruct (walkDays w (days m)) as [[ds1 w1]| |] eqn:E1; try discriminate.
    simpl in H.
    destruct (walkMonths w1 ms) as [[ms2 w2]| |] eqn:E2; try discriminate.
    simpl in H. injection H as <- <-. simpl.
    rewrite (IH _ _ _ E2). f_equal. unfold frame_of. simpl.
    now rewrite (walkDays_journal _ _ _ _ E1).
Qed.

Lemma json_day_journal (d : Day) :
  json_val (actual d) = actual d -> journal_of (json_day d) = journal_of d.
Proof. intros H. unfold journal_of. simpl. now rewrite H. Qed.

Lemma json_months_frame (ms : list Month) :
  json_shaped ms -> map frame_of (json_months ms) = map frame_of ms.
Proof.
  induction 1 as [|m ms Hm _ IH]; simpl; trivial.
  rewrite IH. f_equal. unfold frame_of. simpl. f_equal.
  rewrite map_map. induction Hm as [|d ds Hd _ IHd]; simpl; trivial.
  now rewrite IHd, (json_day_journal d Hd).
Qed.

(** C8.  Recalculation writes only [capital], [target], [profit] and
    [dailyRate]: in a persisted (JSON-shaped) document every month keeps
    its [id], its name and its number of days, and every day keeps
    [day], [date], [achieved], [pnlSign], [actual], [winningTrades],
    [losingTrades], [logic] and [rules]. *)
Theorem recalculatePlan_frame (fuel : nat) (P : Document (list Month)) (M : list Month) :
  json_shaped (months P) ->
  recalculatePlan Math_pow fuel P = Done M ->
  map frame_of M = map frame_of (months P).
Proof.
  intros HJ H.
  destruct (recalculatePlan_inv _ _ _ H) as (goals & w' & _ & HW & _).
  rewrite (walkMonths_frame _ _ _ _ HW). now apply json_months_frame.
Qed.

(** *** The goals of the days *)

Lemma walkDays_cons_inv (w w' : Walk) (d0 : Day) (ds ds' : list Day) :
  walkDays w (d0 :: ds) = Done (ds', w') ->
  exists d1 w1 ds2,
    walkDay w d0 = Done (d1, w1) /\ walkDays w1 ds = Done (ds2, w') /\
    ds' = d1 :: ds2.
Proof.
  cbn [walkDays]. generalize (walkDay w d0). intros [[d1 w1]| |]; simpl;
    try discriminate.
  destruct (walkDays w1 ds) as [[ds2 w2]| |] eqn:E; simpl; try discriminate.
  intros [= <- <-]. exists d1, w1, ds2. repeat split. exact E.
Qed.

Lemma extends_last (planned : list Goal) (w : Walk) (g : Goal) :
  extends planned w -> last (plannedGoals w) = Some g ->
  last planned = Some g.
Proof.
  intros (HN & _ & HL & HG) Hg. rewrite last_lookup in Hg.
  pose proof (HG _ _ Hg) as G. unfold goal_of in G.
  destruct (planned !! pred (length (plannedGoals w))) as [g'|] eqn:E; trivial.
  injection G as ->. rewrite last_lookup.
  apply lookup_lt_Some in E as L.
  replace (pred (length planned)) with (pred (length (plannedGoals w))) by lia.
  exact E.
Qed.

Lemma extendGoals_extends (planned : list Goal) (w : Walk) :
  extends planned w ->
  (length planned <= length (extendGoals w))%nat /\
  (totalDaysElapsed w < length (extendGoals w))%nat /\
  forall k g, extendGoals w !! k = Some g -> goal_of planned k = Some g.
Proof.
  intros H. pose proof H as (HN & HE & HL & HG). unfold extendGoals.
  destruct (Nat.leb_spec (length (plannedGoals w)) (totalDaysElapsed w)) as [L|L].
  - destruct (last (plannedGoals w)) as [gl|] eqn:EL.
    + rewrite length_app. cbn [length]. repeat split; try lia.
      intros k g Hk. apply lookup_app_Some in Hk.
      destruct Hk as [Hk|[Hk1 Hk2]]; [now apply HG|].
      destruct (k - length (plannedGoals w))%nat eqn:K; [|discriminate].
      cbn in Hk2. injection Hk2 as <-. unfold goal_of.
      rewrite (lookup_ge_None_2 planned k) by lia.
      rewrite (extends_last planned w gl H EL). now destruct gl.
    + apply last_None in EL. rewrite EL in HL. cbn in HL.
      destruct planned; [congruence|cbn in HL; lia].
  - repeat split; trivial.
Qed.

Lemma walkDay_goal (planned : list Goal) (w w' : Walk) (d d' : Day) :
  extends planned w -> walkDay w d = Done (d', w') ->
  extends planned w' /\
  totalDaysElapsed w' = S (totalDaysElapsed w) /\
  exists g,
    goal_of planned (totalDaysElapsed w) = Some g /\
    target d' = JNum (g_target g) /\ profit d' = JNum (g_profit g).
Proof.
  intros H HW. destruct (walkDay_inv _ _ _ _ HW) as (g & Hg & (_ & Ht & Hp & _) & _ & ->).
  destruct (extendGoals_extends planned w H) as (L1 & L2 & G).
  cbn [totalDaysElapsed plannedGoals]. repeat split; trivial.
  - now destruct H.
  - exists g. auto.
Qed.

Lemma walkDays_goal (planned : list Goal) (ds : list Day) :
  forall (w w' : Walk) (ds' : list Day),
    extends planned w -> walkDays w ds = Done (ds', w') ->
    forall (i : nat) (d' : Day), ds' !! i = Some d' ->
    exists g,
      goal_of planned (totalDaysElapsed w + i) = Some g /\
      target d' = JNum (g_target g) /\ profit d' = JNum (g_profit g).
Proof.
  induction ds as [|d ds IH]; intros w w' ds' H HW i d' Hi.
  - injection HW as <- <-. discriminate.
  - destruct (walkDays_cons_inv _ _ _ _ _ HW) as (d1 & w1 & ds2 & E1 & E2 & ->).
    destruct (walkDay_goal planned _ _ _ _ H E1) as (H1 & T1 & g & G).
    destruct i as [|i]; cbn in Hi.
    + injection Hi as <-. exists g. now rewrite Nat.add_0_r.
    + destruct (IH _ _ _ H1 E2 i d' Hi) as (g' & G' & R).
      exists g'. split; trivial. rewrite T1 in G'.
      now replace (totalDaysElapsed w + S i)%nat
        with (S (totalDaysElapsed w) + i)%nat by lia.
Qed.

Lemma recalculatePlan_goals (fuel : nat) (P : Document (list Month))
    (M : list Month) :
  recalculatePlan Math_pow fuel P = Done M ->
  exists planned,
    plannedLoop fuel (validTenure P) (initialDailyRate Math_pow P) num0
      (validInitialCapital P) [] = Done planned /\
    forall k d, allDays M !! k = Some d ->
      exists g, goal_of planned k = Some g /\
                target d = JNum (g_target g) /\ profit d = JNum (g_profit g).
Proof.
  intros H.
  destruct (recalculatePlan_inv _ _ _ H) as (planned & w' & HL & HW & _ & HN).
  exists planned. split; trivial. intros k d Hk.
  apply walkMonths_allDays in HW. cbn [plannedGoals] in HN.
  assert (X : extends planned (mkWalk planned (validInitialCapital P) 0)).
  { unfold extends. cbn [plannedGoals totalDaysElapsed].
    repeat split; trivial; try lia.
    intros i g Hi. unfold goal_of. now rewrite Hi. }
  exact (walkDays_goal planned _ _ _ _ X HW k d Hk).
Qed.

(** *** The ideal plan, day by day *)

Lemma idealCapital_shift (c rate : number) (j : nat) :
  idealCapital (mul c (add num1 rate)) rate j = idealCapital c rate (S j).
Proof.
  induction j as [|j IH]; [reflexivity|].
  cbn [idealCapital] in *. now rewrite IH.
Qed.

Lemma idealGoal_shift (c rate : number) (j : nat) :
  idealGoal (mul c (add num1 rate)) rate j = idealGoal c rate (S j).
Proof. unfold idealGoal. now rewrite !idealCapital_shift. Qed.

Lemma counter_S (k : nat) : (Z.of_nat k < 2 ^ 53 - 1)%Z ->
  add (counter k) num1 = counter (S k).
Proof.
  intros H. unfold counter, num1. rewrite add_one_int by lia.
  now replace (Z.of_nat k + 1)%Z with (Z.of_nat (S k)) by lia.
Qed.

(** The first loop pushes the goals of the ideal plan, one for each
    value of the counter that is below the tenure. *)
Lemma plannedLoop_ideal (fuel : nat) :
  forall (k : nat) (vT rate pc : number) (init goals : list Goal),
  (Z.of_nat (k + fuel) < 2 ^ 53)%Z ->
  plannedLoop fuel vT rate (counter k) pc init = Done goals ->
  exists m,
    goals = init ++ map (idealGoal pc rate) (seq 0 m) /\
    (forall j, (j < m)%nat -> ltb (counter (k + j)) vT = true) /\
    ltb (counter (k + m)) vT = false.
Proof.
  induction fuel as [|fuel IH]; intros k vT rate pc init goals Hk;
    rewrite plannedLoop_eq.
  - destruct (ltb (counter k) vT) eqn:E; [discriminate|]. intros [= <-].
    exists 0%nat. rewrite Nat.add_0_r, app_nil_r.
    repeat split; trivial. intros j Hj. lia.
  - destruct (ltb (counter k) vT) eqn:E.
    + rewrite counter_S by lia. intros H.
      destruct (IH (S k) vT rate _ _ goals ltac:(lia) H) as (m & -> & Hm & Hn).
      exists (S m). rewrite <- app_assoc. split; [|split].
      * f_equal. cbn [seq map app]. f_equal.
        rewrite <- seq_shift, map_map. apply map_ext. intros j.
        apply idealGoal_shift.
      * intros [|j] Hj; [now rewrite Nat.add_0_r|].
        replace (k + S j)%nat with (S k + j)%nat by lia. apply Hm. lia.
      * now replace (k + S m)%nat with (S k + m)%nat by lia.
    + intros [= <-]. exists 0%nat. rewrite Nat.add_0_r, app_nil_r.
      repeat split; trivial. intros j Hj. lia.
Qed.

(** The goal of a day in the goals of the ideal plan: its own, and the
    last one after the end of the plan. *)
Lemma goal_of_ideal (c rate : number) (n i : nat) (g : Goal) :
  goal_of (map (idealGoal c rate) (seq 0 n)) i = Some g ->
  g = idealGoal c rate (Nat.min i (n - 1)).
Proof.
  unfold goal_of.
  destruct (map (idealGoal c rate) (seq 0 n) !! i) as [g'|] eqn:E.
  - intros [= <-].
    change (map (idealGoal c rate) (seq 0 n))
      with (idealGoal c rate <$> seq 0 n) in E.
    rewrite list_lookup_fmap in E.
    destruct (seq 0 n !! i) as [j|] eqn:Ej; [|discriminate].
    apply lookup_seq in Ej. destruct Ej as [-> Hi]. cbn in E.
    injection E as <-. f_equal. lia.
  - intros HL. apply lookup_ge_None in E.
    rewrite length_map, length_seq in E.
    rewrite last_lookup, length_map, length_seq in HL.
    change (map (idealGoal c rate) (seq 0 n))
      with (idealGoal c rate <$> seq 0 n) in HL.
    rewrite list_lookup_fmap in HL.
    destruct (seq 0 n !! pred n) as [j|] eqn:Ej; [|discriminate].
    apply lookup_seq in Ej. destruct Ej as [-> Hi]. cbn in HL.
    injection HL as <-. f_equal. lia.
Qed.

(** *** Binary64 values in a run *)

Lemma plannedLoop_binary64 (fuel : nat) :
  forall (vT rate i pc : number) (init goals : list Goal),
  plannedLoop fuel vT rate i pc init = Done goals ->
  Forall target_binary64 init -> Forall target_binary64 goals.
Proof.
  induction fuel as [|fuel IH]; intros vT rate i pc init goals;
    rewrite plannedLoop_eq; destruct (ltb i vT); try discriminate.
  - now intros [= <-].
  - intros H HF. apply (IH _ _ _ _ _ _ H).
    apply Forall_app. split; [exact HF|]. constructor; [|constructor].
    unfold target_binary64. cbn [g_target].
    apply Math_round_binary64, mul_binary64.
  - now intros [= <-].
Qed.

Lemma runningCapital_binary64 (ds : list Day) : forall (a : number) (i : nat),
  binary64 a ->
  (forall j d, ds !! j = Some d ->
     exists t, target d = JNum t /\ binary64 t) ->
  binary64 (runningCapital a ds i).
Proof.
  induction ds as [|d ds IH]; intros a i Ha HT; destruct i as [|i];
    cbn [runningCapital]; trivial.
  apply IH.
  - unfold nextCapital. destruct (is_recorded (actual d)).
    + apply add_binary64.
    + destruct (HT 0%nat d eq_refl) as (t & -> & Bt). exact Bt.
  - intros j d' Hj. exact (HT (S j) d' Hj).
Qed.

Lemma validInitialCapital_binary64 (P : Document (list Month)) :
  binary64 (initialCapital P) -> binary64 (validInitialCapital P).
Proof.
  intros H. unfold validInitialCapital.
  destruct (gtb (initialCapital P) num0); trivial.
  apply (binary64_int 50000). lia.
Qed.

(** In a run from a binary64 initial capital, the running capital and
    the target of every day are binary64 values. *)
Lemma recalculatePlan_binary64 (fuel : nat) (P : Document (list Month))
    (M : list Month) (i : nat) (d : Day) :
  binary64 (initialCapital P) ->
  recalculatePlan Math_pow fuel P = Done M ->
  allDays M !! i = Some d ->
  exists g,
    written (runningCapital (validInitialCapital P) (allDays M) i) g d /\
    binary64 (g_target g) /\
    binary64 (runningCapital (validInitialCapital P) (allDays M) i).
Proof.
  intros HB H Hi.
  destruct (recalculatePlan_inv _ _ _ H) as (goals & w' & HL & HW & HG).
  apply walkMonths_allDays in HW.
  assert (HQ : goals_have target_binary64
                 (mkWalk goals (validInitialCapital P) 0)).
  { split; [|apply HG]. cbn [plannedGoals].
    apply (plannedLoop_binary64 _ _ _ _ _ _ _ HL). constructor. }
  pose proof (walkDays_nth target_binary64 _ _ _ _ HQ HW) as N.
  cbn [actualCapital] in N.
  destruct (N i d Hi) as (g & Bg & Wg). exists g.
  split; [exact Wg|split; [exact Bg|]].
  apply runningCapital_binary64.
  - now apply validInitialCapital_binary64.
  - intros j d' Hj. destruct (N j d' Hj) as (g' & Bg' & (_ & Ht & _)).
    exists (g_target g'). split; trivial.
Qed.

(** *** Consecutive days *)

(** C2, as amended.  Let [A i] be the running capital before day [i],
    unrounded: [A 0] is the validated initial capital, [A (i+1)] is
    [A i + s] when day [i] has a recorded signed outcome [s], and the
    target of day [i] when it has none.  Then day [i] starts at
    [round(A i)]; after a day with a recorded outcome [s] the next day
    starts at [round(A i + s)], which need not be
    [round(round(A i) + s)]; and after a day whose [actual] is the empty
    string the next day starts at the target of that day. *)
Theorem capital_of_next_day (fuel : nat) (P : Document (list Month)) (M : list Month)
    (i : nat) (d d1 : Day) :
  recalculatePlan Math_pow fuel P = Done M ->
  allDays M !! i = Some d ->
  allDays M !! S i = Some d1 ->
  let A := runningCapital (validInitialCapital P) (allDays M) in
  A 0%nat = validInitialCapital P /\
  (actual d <> JStr "" -> A (S i) = add (A i) (signedProfit d)) /\
  (actual d = JStr "" -> JNum (A (S i)) = target d) /\
  capital d = JNum (Math_round (A i)) /\
  capital d1 = JNum (Math_round (A (S i))) /\
  (actual d <> JStr "" ->
   capital d1 = JNum (Math_round (add (A i) (signedProfit d)))) /\
  (actual d = JStr "" -> capital d1 = target d).
Proof.
  intros H Hi Hi1 A.
  destruct (recalculatePlan_day _ _ _ _ _ H Hi) as (g & Hg & Hc & Ht & _).
  destruct (recalculatePlan_day _ _ _ _ _ H Hi1) as (g1 & _ & Hc1 & _).
  fold (A i) in Hc. fold (A (S i)) in Hc1.
  assert (E : A (S i) = nextCapital (A i) d)
    by (apply runningCapital_S, Hi).
  assert (R : actual d <> JStr "" -> A (S i) = add (A i) (signedProfit d)).
  { intros Ha. rewrite E. unfold nextCapital.
    destruct (is_recorded (actual d)) eqn:Er; trivial.
    apply is_recorded_false in Er. contradiction. }
  assert (U : actual d = JStr "" -> JNum (A (S i)) = target d).
  { intros Ha. rewrite E. unfold nextCapital.
    apply is_recorded_false in Ha. now rewrite Ha, Ht. }
  split; [now destruct (allDays M)|].
  split; [exact R|]. split; [exact U|]. split; [exact Hc|].
  split; [exact Hc1|]. split.
  - intros Ha. now rewrite <- (R Ha).
  - intros Ha.
    assert (X : A (S i) = g_target g).
    { pose proof (U Ha) as V. rewrite Ht in V. now injection V. }
    rewrite Hc1, X, Ht. f_equal. exact Hg.
Qed.

(** The rate of a day whose running capital is positive and below its
    target. *)
Lemma requiredRate_below (a : number) (g : Goal) :
  gtb a num0 = true -> gtb (g_target g) a = true ->
  requiredRate a g = sub (div (g_target g) a) num1.
Proof. intros H1 H2. unfold requiredRate. now rewrite H1, H2. Qed.

(** C3, as amended.  With [A] the running capital before the day
    (unrounded; [capital] is its rounding): the required rate is never
    negative; it is 0 whenever [A] is at or above the day's target, or is
    not positive; and whenever [A] is positive and below the target, also
    when the rounded [capital] has reached the target, it is
    [target / A - 1], which is above 0 (for an initial capital that is a
    binary64 value, as every Number of the engine is). *)
Theorem dailyRate_nonneg (fuel : nat) (P : Document (list Month)) (M : list Month)
    (i : nat) (d : Day) :
  recalculatePlan Math_pow fuel P = Done M ->
  allDays M !! i = Some d ->
  let A := runningCapital (validInitialCapital P) (allDays M) i in
  exists r t,
    dailyRate d = JNum r /\ target d = JNum t /\
    capital d = JNum (Math_round A) /\
    geb r num0 = true /\
    (geb A t = true -> r = num0) /\
    (gtb A num0 = false -> r = num0) /\
    (gtb A num0 = true -> gtb t A = true ->
     r = sub (div t A) num1 /\
     (binary64 (initialCapital P) -> gtb r num0 = true)).
Proof.
  intros H Hi A.
  destruct (recalculatePlan_day _ _ _ _ _ H Hi) as (g & _ & Hc & Ht & _ & Hr).
  fold A in Hc, Hr. exists (requiredRate A g), (g_target g).
  split; [exact Hr|]. split; [exact Ht|]. split; [exact Hc|].
  split; [|split; [|split]].
  - unfold geb. apply leb_le, requiredRate_nonneg.
  - intros G. apply requiredRate_zero. now left.
  - intros G. apply requiredRate_zero. now right.
  - intros G1 G2. rewrite (requiredRate_below A g G1 G2).
    split; [reflexivity|]. intros HB.
    destruct (recalculatePlan_binary64 fuel P M i d HB H Hi)
      as (g' & (_ & Ht' & _) & Bt & BA).
    rewrite Ht in Ht'. injection Ht' as E. rewrite <- E in Bt.
    fold A in BA. now apply quotient_above_one.
Qed.

(** *** Validation of the configuration *)

Lemma leb_not_gtb (x y : number) : leb x y = true -> gtb x y = false.
Proof.
  intros H. apply leb_le in H. unfold gtb.
  destruct x as [|[|]|a], y as [|[|]|b]; simpl in *; trivial; try contradiction.
  destruct (Qcompare_spec b a); trivial. exfalso. lra.
Qed.

Lemma validTenure_sanitized (P : Document (list Month)) :
  validTenure (sanitized P) = validTenure P.
Proof.
  unfold validTenure at 1. unfold sanitized. cbn [tenure].
  unfold gtb. now rewrite validTenure_pos.
Qed.

Lemma validInitialCapital_sanitized (P : Document (list Month)) :
  validInitialCapital (sanitized P) = validInitialCapital P.
Proof.
  unfold validInitialCapital at 1. unfold sanitized. cbn [initialCapital].
  destruct (gtb (validInitialCapital P) num0) eqn:E; trivial.
  unfold validInitialCapital in E |- *.
  destruct (gtb (initialCapital P) num0) eqn:E1; [|reflexivity].
  rewrite E1 in E. congruence.
Qed.

Lemma validFinalTarget_sanitized (P : Document (list Month)) :
  validFinalTarget (sanitized P) = validFinalTarget P.
Proof.
  unfold validFinalTarget at 1. rewrite validInitialCapital_sanitized.
  unfold sanitized. cbn [finalTarget].
  destruct (gtb (validFinalTarget P) (validInitialCapital P)) eqn:E; trivial.
  unfold validFinalTarget in E |- *.
  destruct (gtb (finalTarget P) (validInitialCapital P)) eqn:E1; [|reflexivity].
  rewrite E1 in E. congruence.
Qed.

Lemma recalculatePlan_sanitized (fuel : nat) (P : Document (list Month)) :
  recalculatePlan Math_pow fuel (sanitized P) = recalculatePlan Math_pow fuel P.
Proof.
  unfold recalculatePlan, initialDailyRate, dailyRate0.
  now rewrite validTenure_sanitized, validInitialCapital_sanitized,
    validFinalTarget_sanitized.
Qed.

(** With the default tenure the first loop ends after 66 iterations. *)
Lemma default_tenure_runs (P : Document (list Month)) :
  validTenure P = DEFAULT_TENURE_DAYS ->
  exists M, recalculatePlan Math_pow 66 P = Done M.
Proof.
  intros E.
  destruct (plannedLoop_terminates 66 66 0 66 (initialDailyRate Math_pow P)
              (validInitialCapital P) []) as [goals Hg]; try lia.
  { apply Qle_refl. }
  apply (recalculatePlan_runs 66 P goals). rewrite E. exact Hg.
Qed.

(** A run with a finite tenure finishes, as long as the tenure is not
    above the last integer before [2^53]: the first loop needs no more
    iterations than the tenure rounded up. *)
Lemma recalculatePlan_terminates (P : Document (list Month)) (q : Q) :
  validTenure P = Fin q -> q <= inject_Z (2 ^ 53 - 1) ->
  exists fuel M, recalculatePlan Math_pow fuel P = Done M.
Proof.
  intros E Hq. pose proof (validTenure_pos P) as Hpos.
  rewrite E in Hpos. apply ltb_lt in Hpos.
  set (n := Z.to_nat (Qceiling q)).
  assert (Hc : q <= inject_Z (Qceiling q)) by apply Qle_ceiling.
  assert (Hn : (0 <= Qceiling q)%Z).
  { rewrite Zle_Qle. change (inject_Z 0) with 0. lra. }
  assert (Hb : (Qceiling q <= 2 ^ 53 - 1)%Z).
  { rewrite <- (Qceiling_Z (2 ^ 53 - 1)). now apply Qceiling_resp_le. }
  destruct (plannedLoop_terminates q n 0 n (initialDailyRate Math_pow P)
              (validInitialCapital P) []) as [goals Hg]; try lia.
  { subst n. rewrite Z2Nat.id by lia. simpl. exact Hc. }
  exists n. apply (recalculatePlan_runs n P goals). rewrite E. exact Hg.
Qed.

(** With the tenure [Infinity] the first loop does not end: the counter
    runs through the integers up to [2^53] and stays there. *)
Lemma plannedLoop_Infinity (fuel : nat) : forall (k : Z) rate pc init,
  (0 <= k <= 2 ^ 53)%Z ->
  plannedLoop fuel (Inf false) rate (Fin (inject_Z k)) pc init = OutOfFuel.
Proof.
  induction fuel as [|fuel IH]; intros k rate pc init Hk;
    rewrite plannedLoop_eq; cbn [ltb negb]; trivial.
  destruct (Z_lt_le_dec k (2 ^ 53 - 1)) as [C|C].
  - unfold num1. rewrite add_one_int by lia. apply IH. lia.
  - assert (E : add (Fin (inject_Z k)) num1 = Fin (inject_Z (2 ^ 53))).
    { assert (D : k = (2 ^ 53 - 1)%Z \/ k = (2 ^ 53)%Z) by lia.
      destruct D as [-> | ->]; vm_compute; reflexivity. }
    rewrite E. apply IH. lia.
Qed.

Lemma recalculatePlan_Infinity (fuel : nat) (P : Document (list Month)) :
  tenure P = Inf false -> recalculatePlan Math_pow fuel P = OutOfFuel.
Proof.
  intros E. unfold recalculatePlan.
  assert (V : validTenure P = Inf false).
  { unfold validTenure. now rewrite E. }
  rewrite V. change num0 with (Fin (inject_Z 0)).
  rewrite plannedLoop_Infinity by lia. reflexivity.
Qed.

(** A final target at or below the initial capital as it was given is
    at or below the validated one too. *)
Lemma finalTarget_below (P : Document (list Month)) :
  leb (finalTarget P) (initialCapital P) = true ->
  gtb (finalTarget P) (validInitialCapital P) = false.
Proof.
  intros H. unfold validInitialCapital.
  destruct (gtb (initialCapital P) num0) eqn:E; [now apply leb_not_gtb|].
  apply leb_le in H. unfold gtb, num0 in E |- *.
  unfold DEFAULT_INITIAL_CAPITAL.
  destruct (finalTarget P) as [|[|]|f], (initialCapital P) as [|[|]|c];
    simpl in *; trivial; try contradiction; try discriminate.
  destruct (Qcompare_spec 0 c); try discriminate;
    destruct (Qcompare_spec 50000 f); trivial; exfalso; lra.
Qed.

(** C7.  The configuration is validated before anything is computed,
    and a run never fails on an invalid one.  With [vT] the tenure, or 66
    if it is not above 0; [vIC] the initial capital, or 50000 if it is
    not above 0; [vFT] the final target, or twice [vIC] if it is not
    above [vIC]; and [rate] the daily rate computed from these three: a
    valid setting is kept, an invalid one replaced (a final target at or
    below the initial capital, as given or as validated, by twice the
    validated initial capital); no run ends in a TypeError, with an
    invalid tenure the run finishes within the 66 iterations of the
    default, and with any finite [vT] up to [2^53 - 1] it finishes.  The
    financial fields of the result are derived from [vT],
    [vIC] and [rate]: the plan has [n] ideal days, as many as counter
    values below [vT]; day [i] (from 0) has the target and the profit of
    ideal day [min i (n - 1)], that is [vIC] compounded at [rate] and
    rounded; its capital is the rounded running capital from [vIC]; and
    its rate is the one required from the running capital to the
    target. *)
Theorem recalculatePlan_sanitizes (fuel : nat) (P : Document (list Month)) :
  let vT := if gtb (tenure P) (Fin 0) then tenure P else Fin 66 in
  let vIC :=
    if gtb (initialCapital P) (Fin 0) then initialCapital P else Fin 50000 in
  let vFT :=
    if gtb (finalTarget P) vIC then finalTarget P else mul vIC (Fin 2) in
  let rate0 := sub (Math_pow (div vFT vIC) (div (Fin 1) vT)) (Fin 1) in
  let rate :=
    if isNaN rate0 || negb (isFinite rate0) || ltb rate0 num_m0_5
    then num_0_01 else rate0 in
  (leb (tenure P) (Fin 0) = true -> vT = Fin 66) /\
  (gtb (tenure P) (Fin 0) = true -> vT = tenure P) /\
  (leb (initialCapital P) (Fin 0) = true -> vIC = Fin 50000) /\
  (gtb (initialCapital P) (Fin 0) = true -> vIC = initialCapital P) /\
  (leb (finalTarget P) vIC = true \/
   leb (finalTarget P) (initialCapital P) = true ->
   vFT = mul vIC (Fin 2)) /\
  (gtb (finalTarget P) vIC = true -> vFT = finalTarget P) /\
  recalculatePlan Math_pow fuel P <> TypeError /\
  (leb (tenure P) (Fin 0) = true ->
   exists M, recalculatePlan Math_pow 66 P = Done M) /\
  (forall q : Q, vT = Fin q -> q <= inject_Z (2 ^ 53 - 1) ->
   exists fuel' M, recalculatePlan Math_pow fuel' P = Done M) /\
  forall M : list Month,
    (Z.of_nat fuel < 2 ^ 53)%Z ->
    recalculatePlan Math_pow fuel P = Done M ->
    exists n : nat,
      (1 <= n)%nat /\
      (forall k, (k < n)%nat -> ltb (counter k) vT = true) /\
      ltb (counter n) vT = false /\
      forall (i : nat) (d : Day), allDays M !! i = Some d ->
        let k := Nat.min i (n - 1) in
        let A := runningCapital vIC (allDays M) i in
        let t := Math_round (idealCapital vIC rate (S k)) in
        target d = JNum t /\
        profit d =
          JNum (Math_round (sub (idealCapital vIC rate (S k))
                                (idealCapital vIC rate k))) /\
        capital d = JNum (Math_round A) /\
        dailyRate d =
          JNum (if gtb A (Fin 0) && gtb t A
                then sub (div t A) (Fin 1) else Fin 0).
Proof.
  intros vT vIC vFT rate0 rate.
  change vT with (validTenure P). change vIC with (validInitialCapital P).
  change vFT with (validFinalTarget P).
  change rate with (initialDailyRate Math_pow P).
  clear vT vIC vFT rate0 rate.
  assert (T : leb (tenure P) (Fin 0) = true -> validTenure P = Fin 66).
  { intros H. unfold validTenure, num0. now rewrite (leb_not_gtb _ _ H). }
  split; [exact T|].
  split; [intros H; unfold validTenure, num0; now rewrite H|].
  split.
  { intros H. unfold validInitialCapital, num0.
    now rewrite (leb_not_gtb _ _ H). }
  split; [intros H; unfold validInitialCapital, num0; now rewrite H|].
  split.
  { intros [H|H]; unfold validFinalTarget.
    - now rewrite (leb_not_gtb _ _ H).
    - now rewrite (finalTarget_below P H). }
  split; [intros H; unfold validFinalTarget; now rewrite H|].
  split; [apply recalculatePlan_no_TypeError|].
  split; [intros H; apply default_tenure_runs, T, H|].
  split; [exact (recalculatePlan_terminates P)|].
  intros M Hf H.
  destruct (recalculatePlan_goals fuel P M H) as (planned & HL & G).
  destruct (plannedLoop_ideal fuel 0 _ _ _ [] planned Hf HL)
    as (n & -> & Hn & Hl).
  cbn [app Nat.add] in Hn, Hl, G.
  assert (N1 : (1 <= n)%nat).
  { destruct n as [|n]; [|lia]. pose proof (validTenure_pos P) as V.
    change num0 with (counter 0) in V. congruence. }
  exists n. split; [exact N1|]. split; [exact Hn|]. split; [exact Hl|].
  intros i d Hi k A t.
  destruct (G i d Hi) as (g & Hg & Ht & Hp).
  apply goal_of_ideal in Hg. fold k in Hg. subst g.
  destruct (recalculatePlan_day _ _ _ _ _ H Hi) as (g & _ & Hc & Ht' & _ & Hr).
  fold A in Hc, Hr. cbn [idealGoal g_target g_profit] in Ht, Hp.
  fold t in Ht. split; [exact Ht|]. split; [exact Hp|]. split; [exact Hc|].
  rewrite Hr. unfold requiredRate. rewrite Ht in Ht'.
  injection Ht' as <-. reflexivity.
Qed.

(** *** The first day of a run *)

Lemma first_day_goal (fuel : nat) (P : Document (list Month)) (M : list Month) (d : Day) :
  recalculatePlan Math_pow fuel P = Done M ->
  allDays M !! 0%nat = Some d ->
  let plannedTarget :=
    mul (validInitialCapital P) (add num1 (initialDailyRate Math_pow P)) in
  target d = JNum (Math_round plannedTarget) /\
  profit d = JNum (Math_round (sub plannedTarget (validInitialCapital P))).
Proof.
  intros H Hd T.
  destruct (recalculatePlan_inv _ _ _ H) as (goals & w' & HL & HW & _).
  rewrite plannedLoop_eq, validTenure_pos in HL.
  destruct fuel as [|fuel]; [discriminate|].
  apply plannedLoop_spec in HL. destruct HL as (new & -> & _).
  apply walkMonths_allDays in HW.
  destruct (allDays (json_months (months P))) as [|d0 ds].
  { injection HW as E _. rewrite <- E in Hd. discriminate. }
  destruct (walkDays_cons_inv _ _ _ _ _ HW) as (d1 & w1 & ds2 & E1 & _ & E).
  rewrite E in Hd. injection Hd as ->.
  destruct (walkDay_inv _ _ _ _ E1) as (g & Hg & (_ & Ht & Hp & _) & _).
  unfold extendGoals in Hg. cbn [plannedGoals totalDaysElapsed] in Hg.
  rewrite <- app_assoc in Hg. cbn [app length Nat.leb lookup list_lookup] in Hg.
  injection Hg as <-. split; assumption.
Qed.

(** *** The example: 50000 to 1000000 in 66 days *)

Lemma example_rate (ms : list Month) (p : Q) :
  Math_pow (Fin 20) (div num1 (Fin 66)) = Fin p ->
  (1046435 # 1000000) <= p -> p <= (1046437 # 1000000) ->
  exists r, initialDailyRate Math_pow (example_config ms) = Fin r /\
            (464349 # 10000000) <= r /\ r <= (464371 # 10000000).
Proof.
  intros Hp Hlo Hhi. unfold initialDailyRate, dailyRate0.
  assert (E1 : div (validFinalTarget (example_config ms))
                 (validInitialCapital (example_config ms)) = Fin 20)
    by (vm_compute; reflexivity).
  assert (E2 : validTenure (example_config ms) = Fin 66)
    by (vm_compute; reflexivity).
  rewrite E1, E2, Hp.
  change (sub (Fin p) num1) with (rnd64 (p + - (1))).
  destruct (rnd64_between ((1046435 # 1000000) + - (1))
              ((1046437 # 1000000) + - (1)) (p + - (1))
              (464349 # 10000000) (464371 # 10000000))
    as (r & -> & Hr1 & Hr2);
    [lra | lra | by_computation | by_computation |].
  exists r. split; [|split; assumption].
  assert (E : ltb (Fin r) num_m0_5 = false).
  { destruct (ltb (Fin r) num_m0_5) eqn:E; trivial.
    apply ltb_lt in E. exfalso. lra. }
  cbn [isNaN isFinite negb orb]. now rewrite E.
Qed.

(** C9, as amended.  For initialCapital = 50000, finalTarget = 1000000,
    tenure = 66, and any [Math.pow] that returns the 66th root of 20 to
    within one part in a million, the required daily rate is
    approximately 4.64% (between 4.64349% and 4.64371%), and day 1 of
    the recalculated plan has target 52322 and profit 2322. *)
Theorem example_day_one (ms : list Month) (p : Q) (fuel : nat)
    (M : list Month) (d : Day) :
  Math_pow (Fin 20) (div num1 (Fin 66)) = Fin p ->
  (1046435 # 1000000) <= p -> p <= (1046437 # 1000000) ->
  recalculatePlan Math_pow fuel (example_config ms) = Done M ->
  allDays M !! 0%nat = Some d ->
  (exists r, initialDailyRate Math_pow (example_config ms) = Fin r /\
             (464349 # 10000000) <= r /\ r <= (464371 # 10000000)) /\
  target d = JNum (Fin 52322) /\
  profit d = JNum (Fin 2322).
Proof.
  intros Hp Hlo Hhi H Hd.
  destruct (example_rate ms p Hp Hlo Hhi) as (r & Er & Hr1 & Hr2).
  split; [exists r; auto|].
  destruct (first_day_goal _ _ _ _ H Hd) as [Ht Hpr].
  rewrite Er in Ht, Hpr.
  assert (E0 : validInitialCapital (example_config ms) = Fin 50000)
    by (vm_compute; reflexivity).
  rewrite E0 in Ht, Hpr.
  change (add num1 (Fin r)) with (rnd64 (1 + r)) in Ht, Hpr.
  destruct (rnd64_between (1 + (464349 # 10000000)) (1 + (464371 # 10000000))
              (1 + r) (10464348 # 10000000) (10464372 # 10000000))
    as (v2 & E2 & A2 & B2);
    [lra | lra | by_computation | by_computation |].
  rewrite E2 in Ht, Hpr.
  change (mul (Fin 50000) (Fin v2)) with (rnd64 (50000 * v2)) in Ht, Hpr.
  destruct (rnd64_between (50000 * (10464348 # 10000000))
              (50000 * (10464372 # 10000000)) (50000 * v2)
              (5232173 # 100) (5232187 # 100))
    as (v3 & E3 & A3 & B3);
    [lra | lra | by_computation | by_computation |].
  rewrite E3 in Ht, Hpr.
  change (sub (Fin v3) (Fin 50000)) with (rnd64 (v3 + - (50000))) in Hpr.
  destruct (rnd64_between ((5232173 # 100) + - (50000))
              ((5232187 # 100) + - (50000)) (v3 + - (50000))
              (232172 # 100) (232188 # 100))
    as (v4 & E4 & A4 & B4);
    [lra | lra | by_computation | by_computation |].
  rewrite E4 in Hpr.
  rewrite (Math_round_between v3 52322) in Ht.
  rewrite (Math_round_between v4 2322) in Hpr.
  - split; assumption.
  - change (inject_Z 2322) with 2322. lra.
  - change (inject_Z 2322) with 2322. lra.
  - change (inject_Z 52322) with 52322. lra.
  - change (inject_Z 52322) with 52322. lra.
Qed.

End Recalculate.
End PlanFacts.

Module StoreFacts.
Import JSNumber Plan PlanFacts.

(** The objects [parse_months] puts in the store from address [b] on,
    the references to the month objects among them, and the references
    to the day objects. *)
Fixpoint month_objects (b : nat) (ms : list Month) : list object :=
  match ms with
  | [] => []
  | m :: ms' =>
      let k := length (days m) in
      map ODay (days m) ++
      OArray (seq b k) :: OMonth (id m) (monthName m) (b + k) ::
      month_objects (b + k + 2) ms'
  end.

Fixpoint month_refs (b : nat) (ms : list Month) : list ref :=
  match ms with
  | [] => []
  | m :: ms' =>
      let k := length (days m) in
      (b + k + 1)%nat :: month_refs (b + k + 2) ms'
  end.

Fixpoint day_refs (b : nat) (ms : list Month) : list ref :=
  match ms with
  | [] => []
  | m :: ms' =>
      let k := length (days m) in
      seq b k ++ day_refs (b + k + 2) ms'
  end.

Fixpoint day_segs (b : nat) (ms : list Month) : list (list ref) :=
  match ms with
  | [] => []
  | m :: ms' =>
      let k := length (days m) in
      seq b k :: day_segs (b + k + 2) ms'
  end.

(** Two lists of months of the same shape. *)
Definition same_shape (ms ms' : list Month) : Prop :=
  map (fun m => length (days m)) ms = map (fun m => length (days m)) ms'.

(** An outcome on the store that stands for an outcome on values. *)
Definition lift {A B : Type} (f : A -> B) (x : outcome A) : outcome B :=
  match x with
  | Done a => Done (f a)
  | OutOfFuel => OutOfFuel
  | TypeError => TypeError
  end.

(** The reference a run returns and the store it leaves when it
    produces [M]: the old objects, then the new structure. *)
Definition result_ref (s : store) (M : list Month) : ref :=
  (length s + length (month_objects (length s) M))%nat.

Definition result_store (s : store) (M : list Month) : store :=
  s ++ month_objects (length s) M ++ [OArray (month_refs (length s) M)].

Lemma parse_days_spec (ds : list Day) : forall s : store,
  parse_days ds s = (seq (length s) (length ds), s ++ map ODay ds).
Proof.
  induction ds as [|d ds IH]; intros s; simpl.
  - now rewrite app_nil_r.
  - rewrite IH, length_app. simpl. rewrite Nat.add_1_r, <- app_assoc.
    reflexivity.
Qed.

Lemma parse_months_spec (ms : list Month) : forall s : store,
  parse_months ms s =
  (month_refs (length s) ms, s ++ month_objects (length s) ms).
Proof.
  induction ms as [|m ms IH]; intros s; simpl.
  - now rewrite app_nil_r.
  - rewrite parse_days_spec. unfold alloc. rewrite IH.
    rewrite !length_app, length_map. simpl.
    replace (length s + length (days m) + 1 + 1)%nat
      with (length s + length (days m) + 2)%nat by lia.
    f_equal. rewrite <- !app_assoc. reflexivity.
Qed.

Lemma month_refs_shape (ms ms' : list Month) : same_shape ms ms' ->
  forall b, month_refs b ms = month_refs b ms'.
Proof.
  unfold same_shape. revert ms'.
  induction ms as [|m ms IH]; intros [|m' ms'] H b; try discriminate; trivial.
  simpl in *. injection H as -> H. now rewrite (IH _ H).
Qed.

Lemma month_objects_length (ms ms' : list Month) : same_shape ms ms' ->
  forall b, length (month_objects b ms) = length (month_objects b ms').
Proof.
  unfold same_shape. revert ms'.
  induction ms as [|m ms IH]; intros [|m' ms'] H b; try discriminate; trivial.
  simpl in *. injection H as E H.
  rewrite !length_app, !length_map. simpl. rewrite E.
  now rewrite (IH _ H).
Qed.

(** *** Reading the parsed structure back *)

Lemma read_days_segment (pre post : store) (ds : list Day) :
  mapM (read_day (pre ++ map ODay ds ++ post)) (seq (length pre) (length ds))
  = Some ds.
Proof.
  apply mapM_Some_2. revert pre.
  induction ds as [|d ds IH]; intros pre; cbn [map app seq length];
    [constructor|].
  constructor.
  - unfold read_day. now rewrite list_lookup_middle.
  - specialize (IH (pre ++ [ODay d])).
    rewrite length_app, Nat.add_1_r, <- app_assoc in IH. exact IH.
Qed.

Lemma month_segment (pre post : store) (m : Month) (rest : list object) :
  let k := length (days m) in
  let s := pre ++ (map ODay (days m) ++
                   OArray (seq (length pre) k) ::
                   OMonth (id m) (monthName m) (length pre + k) :: rest) ++ post in
  s !! (length pre + k + 1)%nat =
    Some (OMonth (id m) (monthName m) (length pre + k)) /\
  s !! (length pre + k)%nat = Some (OArray (seq (length pre) k)).
Proof.
  intros k s. split.
  - replace s with
      ((pre ++ map ODay (days m) ++ [OArray (seq (length pre) k)]) ++
       OMonth (id m) (monthName m) (length pre + k) :: rest ++ post).
    + apply list_lookup_middle. rewrite !length_app, length_map. simpl. lia.
    + subst s. repeat (rewrite <- app_assoc; cbn [app]). reflexivity.
  - replace s with
      ((pre ++ map ODay (days m)) ++ OArray (seq (length pre) k) ::
       OMonth (id m) (monthName m) (length pre + k) :: rest ++ post).
    + apply list_lookup_middle. rewrite !length_app, length_map. lia.
    + subst s. repeat (rewrite <- app_assoc; cbn [app]). reflexivity.
Qed.

Lemma month_step (pre post : store) (m : Month) (ms : list Month) :
  let k := length (days m) in
  let pre' := pre ++ map ODay (days m) ++
              [OArray (seq (length pre) k);
               OMonth (id m) (monthName m) (length pre + k)] in
  pre ++ month_objects (length pre) (m :: ms) ++ post =
  pre' ++ month_objects (length pre') ms ++ post /\
  length pre' = (length pre + k + 2)%nat.
Proof.
  intros k pre'. subst pre'.
  assert (L : length (pre ++ map ODay (days m) ++
                [OArray (seq (length pre) k);
                 OMonth (id m) (monthName m) (length pre + k)])
              = (length pre + k + 2)%nat).
  { rewrite !length_app, length_map. simpl. lia. }
  split; [|exact L]. rewrite L. simpl.
  rewrite <- !app_assoc. simpl. reflexivity.
Qed.

Lemma read_months_layout (ms : list Month) : forall (pre post : store),
  let s := pre ++ month_objects (length pre) ms ++ post in
  mapM (read_month s) (month_refs (length pre) ms) = Some ms /\
  mapM (days_of s) (month_refs (length pre) ms) =
    Some (day_segs (length pre) ms).
Proof.
  induction ms as [|m ms IH]; intros pre post s; [split; reflexivity|].
  destruct (month_step pre post m ms) as [E L]. fold s in E.
  destruct (month_segment pre post m
              (month_objects (length pre + length (days m) + 2) ms))
    as [HM HA].
  change (pre ++ _ ++ post) with s in HM, HA.
  specialize (IH (pre ++ map ODay (days m) ++
                    [OArray (seq (length pre) (length (days m)));
                     OMonth (id m) (monthName m) (length pre + length (days m))])
                 post).
  cbv zeta in IH. rewrite <- E in IH. rewrite L in IH. destruct IH as [IH1 IH2].
  assert (HD : days_of s (length pre + length (days m) + 1) =
               Some (seq (length pre) (length (days m)))).
  { unfold days_of. rewrite HM. unfold read_array. now rewrite HA. }
  assert (HR : read_month s (length pre + length (days m) + 1) = Some m).
  { unfold read_month. rewrite HM. unfold read_array. rewrite HA. simpl.
    subst s. cbn [month_objects]. rewrite <- (app_assoc (map ODay (days m))).
    rewrite read_days_segment. simpl. now destruct m. }
  split.
  - cbn [month_refs mapM]. rewrite HR. simpl. rewrite IH1. reflexivity.
  - cbn [month_refs mapM day_segs]. rewrite HD. simpl. rewrite IH2.
    reflexivity.
Qed.

(** *** The loop on the store and the loop on values *)

Lemma walkDays_length (ds : list Day) (w w' : Walk) (ds' : list Day) :
  walkDays w ds = Done (ds', w') -> length ds' = length ds.
Proof.
  intros H. apply walkDays_journal in H.
  apply (f_equal (@length _)) in H. now rewrite !length_map in H.
Qed.

Lemma walkRefs_app (a b : list ref) : forall (w : Walk) (s : store),
  walkRefs w (a ++ b) s =
  let* (s1, w1) := walkRefs w a s in walkRefs w1 b s1.
Proof.
  induction a as [|r a IH]; intros w s; cbn [app walkRefs bind]; trivial.
  destruct (read_day s r) as [d|]; trivial.
  destruct (walkDay w d) as [[d' w1]| |]; cbn [bind]; trivial.
Qed.

Lemma walkRefs_days (ds : list Day) : forall (pre post : store) (w : Walk),
  walkRefs w (seq (length pre) (length ds)) (pre ++ map ODay ds ++ post) =
  lift (fun '(ds', w') => (pre ++ map ODay ds' ++ post, w')) (walkDays w ds).
Proof.
  induction ds as [|d ds IH]; intros pre post w; trivial.
  cbn [length seq map app walkRefs walkDays].
  unfold read_day at 1. rewrite list_lookup_middle by reflexivity.
  destruct (walkDay w d) as [[d' w1]| |]; cbn [bind lift]; trivial.
  rewrite insert_app_r_alt by lia. rewrite Nat.sub_diag. cbn [insert list_insert].
  specialize (IH (pre ++ [ODay d']) post w1).
  rewrite length_app, Nat.add_1_r, <- app_assoc in IH. cbn [app] in IH.
  rewrite IH. destruct (walkDays w1 ds) as [[ds' w2]| |]; cbn [bind lift]; trivial.
  now rewrite <- app_assoc.
Qed.

Lemma walkRefs_months (ms : list Month) : forall (pre post : store) (w : Walk),
  walkRefs w (day_refs (length pre) ms)
    (pre ++ month_objects (length pre) ms ++ post) =
  lift (fun '(ms', w') => (pre ++ month_objects (length pre) ms' ++ post, w'))
    (walkMonths w ms).
Proof.
  induction ms as [|m ms IH]; intros pre post w; trivial.
  cbn [day_refs month_objects walkMonths]. rewrite walkRefs_app.
  rewrite <- (app_assoc (map ODay (days m))), walkRefs_days.
  destruct (walkDays w (days m)) as [[ds' w1]| |] eqn:E; cbn [bind lift]; trivial.
  pose proof (walkDays_length _ _ _ _ E) as HL.
  set (hd := [OArray (seq (length pre) (length (days m)));
              OMonth (id m) (monthName m) (length pre + length (days m))]).
  specialize (IH (pre ++ map ODay ds' ++ hd) post w1).
  assert (L : length (pre ++ map ODay ds' ++ hd)
              = (length pre + length (days m) + 2)%nat).
  { rewrite !length_app, length_map, HL. simpl. lia. }
  rewrite L in IH.
  replace (pre ++ map ODay ds' ++
           (OArray (seq (length pre) (length (days m)))
            :: OMonth (id m) (monthName m) (length pre + length (days m))
            :: month_objects (length pre + length (days m) + 2) ms) ++ post)
    with ((pre ++ map ODay ds' ++ hd) ++
          month_objects (length pre + length (days m) + 2) ms ++ post)
    by (subst hd; repeat (rewrite <- app_assoc; cbn [app]); reflexivity).
  rewrite IH.
  destruct (walkMonths w1 ms) as [[ms' w2]| |]; cbn [bind lift]; trivial.
  cbn [month_objects days id monthName]. rewrite HL. subst hd.
  repeat (rewrite <- app_assoc; cbn [app]). reflexivity.
Qed.

Lemma concat_day_segs (ms : list Month) : forall b,
  List.concat (day_segs b ms) = day_refs b ms.
Proof.
  induction ms as [|m ms IH]; intros b; simpl; trivial. now rewrite IH.
Qed.

Lemma frame_shape (ms : list Month) : forall ms',
  map frame_of ms' = map frame_of ms -> same_shape ms ms'.
Proof.
  unfold same_shape.
  induction ms as [|m ms IH]; intros [|m' ms'] H; try discriminate; trivial.
  simpl in H. injection H as _ _ Hd H. simpl.
  rewrite (IH _ H). f_equal.
  apply (f_equal (@length _)) in Hd. now rewrite !length_map in Hd.
Qed.

Lemma walkMonths_shape (ms : list Month) (w w' : Walk) (ms' : list Month) :
  walkMonths w ms = Done (ms', w') -> same_shape ms ms'.
Proof. intros H. apply frame_shape. exact (walkMonths_frame _ _ _ _ H). Qed.

(** *** Reading is stable when the store grows *)

Lemma read_day_ext (s new : store) (r : ref) (d : Day) :
  read_day s r = Some d -> read_day (s ++ new) r = Some d.
Proof.
  unfold read_day. destruct (s !! r) as [o|] eqn:E; [|discriminate].
  now rewrite (lookup_app_l_Some _ _ _ _ E).
Qed.

Lemma read_array_ext (s new : store) (r : ref) (rs : list ref) :
  read_array s r = Some rs -> read_array (s ++ new) r = Some rs.
Proof.
  unfold read_array. destruct (s !! r) as [o|] eqn:E; [|discriminate].
  now rewrite (lookup_app_l_Some _ _ _ _ E).
Qed.

Lemma mapM_ext_Some {A B : Type} (f g : A -> option B) (l : list A) (k : list B) :
  (forall a b, f a = Some b -> g a = Some b) ->
  mapM f l = Some k -> mapM g l = Some k.
Proof.
  intros Hfg H. apply mapM_Some in H. apply mapM_Some_2.
  induction H; constructor; auto.
Qed.

Lemma read_month_ext (s new : store) (r : ref) (m : Month) :
  read_month s r = Some m -> read_month (s ++ new) r = Some m.
Proof.
  unfold read_month. destruct (s !! r) as [o|] eqn:E; [|discriminate].
  rewrite (lookup_app_l_Some _ _ _ _ E). destruct o as [|i name a|]; try discriminate.
  destruct (read_array s a) as [rs|] eqn:Ea; [|discriminate].
  rewrite (read_array_ext _ new _ _ Ea). simpl.
  destruct (mapM (read_day s) rs) as [ds|] eqn:Ed; [|discriminate].
  rewrite (mapM_ext_Some _ (read_day (s ++ new)) _ _ (read_day_ext s new) Ed).
  trivial.
Qed.

Lemma read_months_ext (s new : store) (r : ref) (ms : list Month) :
  read_months s r = Some ms -> read_months (s ++ new) r = Some ms.
Proof.
  unfold read_months. destruct (read_array s r) as [rs|] eqn:Ea; [|discriminate].
  rewrite (read_array_ext _ new _ _ Ea). simpl.
  apply mapM_ext_Some, read_month_ext.
Qed.

(** *** The program on the store computes the function on values *)

Lemma JSON_parse_spec (ms : list Month) (s : store) :
  JSON_parse ms s = (result_ref s ms, result_store s ms).
Proof.
  unfold JSON_parse. rewrite parse_months_spec. unfold alloc.
  unfold result_ref, result_store. now rewrite length_app, <- app_assoc.
Qed.

Lemma read_result_array (s : store) (M : list Month) :
  read_array (result_store s M) (result_ref s M) =
  Some (month_refs (length s) M).
Proof.
  unfold read_array, result_store, result_ref. rewrite app_assoc.
  rewrite list_lookup_middle; [reflexivity|]. now rewrite length_app.
Qed.

Lemma read_result (s : store) (M : list Month) :
  read_months (result_store s M) (result_ref s M) = Some M.
Proof.
  unfold read_months. rewrite read_result_array. simpl.
  apply (read_months_layout M s [OArray (month_refs (length s) M)]).
Qed.

Lemma allDays_refs_result (s : store) (M : list Month) :
  allDays_refs (result_store s M) (result_ref s M) =
  Some (day_refs (length s) M).
Proof.
  unfold allDays_refs. rewrite read_result_array. simpl.
  destruct (read_months_layout M s [OArray (month_refs (length s) M)])
    as [_ H].
  unfold result_store. rewrite H. simpl. now rewrite concat_day_segs.
Qed.

Lemma result_same_shape (s : store) (M M' : list Month) :
  same_shape M M' ->
  result_ref s M' = result_ref s M /\
  s ++ month_objects (length s) M' ++ [OArray (month_refs (length s) M)] =
  result_store s M'.
Proof.
  intros H. unfold result_ref, result_store.
  now rewrite (month_objects_length _ _ H), (month_refs_shape _ _ H).
Qed.

Section Recalculate.
Variable Math_pow : number -> number -> number.

(** On a store where the months can be read, the program does what the
    function on values does, and leaves the result in new objects. *)
Lemma recalculatePlan_store_spec (fuel : nat) (s : store) (P : Document ref)
    (ms : list Month) :
  read_months s (months P) = Some ms ->
  recalculatePlan_store Math_pow fuel s P =
  lift (fun M => (result_ref s M, result_store s M))
    (recalculatePlan Math_pow fuel (set_months P ms)).
Proof.
  intros Hr. unfold recalculatePlan_store, recalculatePlan. rewrite Hr.
  rewrite JSON_parse_spec, allDays_refs_result.
  change (validTenure (set_months P ms)) with (validTenure P).
  change (validInitialCapital (set_months P ms)) with (validInitialCapital P).
  change (initialDailyRate Math_pow (set_months P ms))
    with (initialDailyRate Math_pow P).
  change (months (set_months P ms)) with ms.
  destruct (plannedLoop _ _ _ _ _ _) as [goals| |]; cbn [bind lift]; trivial.
  unfold result_store at 1. rewrite walkRefs_months.
  destruct (walkMonths _ (json_months ms)) as [[M w']| |] eqn:E;
    cbn [bind lift]; trivial.
  destruct (result_same_shape s _ _ (walkMonths_shape _ _ _ _ E)) as [-> ->].
  reflexivity.
Qed.

(** C10.  [recalculatePlan] never writes into its argument: after a
    run, every object that was in the store before it (the months array
    of the input, its month objects, their arrays and day objects, and
    anything else) is what it was, so the input document reads as before;
    the months returned are behind a new reference, and they are the
    result of the function on values. *)
Theorem recalculatePlan_store_frame (fuel : nat) (s s' : store)
    (P : Document ref) (r : ref) :
  recalculatePlan_store Math_pow fuel s P = Done (r, s') ->
  (forall (l : ref) (o : object), s !! l = Some o -> s' !! l = Some o) /\
  read_months s' (months P) = read_months s (months P) /\
  (length s <= r)%nat /\
  exists ms M,
    read_months s (months P) = Some ms /\
    recalculatePlan Math_pow fuel (set_months P ms) = Done M /\
    read_months s' r = Some M.
Proof.
  intros H.
  destruct (read_months s (months P)) as [ms|] eqn:Hr.
  2: { unfold recalculatePlan_store in H. rewrite Hr in H. discriminate. }
  rewrite (recalculatePlan_store_spec fuel s P ms Hr) in H.
  destruct (recalculatePlan Math_pow fuel (set_months P ms)) as [M| |] eqn:E;
    try discriminate.
  cbn [lift] in H. injection H as <- <-.
  split; [|split; [|split]].
  - intros l o Hl. unfold result_store. now apply lookup_app_l_Some.
  - unfold result_store. now apply read_months_ext.
  - unfold result_ref. lia.
  - exists ms, M. split; [reflexivity|]. split; [exact E|].
    apply read_result.
Qed.

End Recalculate.

End StoreFacts.

Module TraderFacts.
Import JSNumber JSNumberFacts Trader.

(** Multiplication by the sign of a side: by 1 for a long position, by
    -1, which is negation, for a short one. *)
Definition times_sign (t : Side) (x : number) : number :=
  match t with BUY => x | SELL => neg x end.

(** The price at which a position can be closed now. *)
Definition market_price (pos : Position) (q : Quote) : number :=
  match type pos with BUY => bid q | SELL => ask q end.

(** The price a close uses: the explicit one if there is one (and it is
    not 0 or NaN), the market price otherwise. *)
Definition exit_price (closePrice : option number) (pos : Position)
    (q : Quote) : number :=
  match closePrice with
  | Some c => if truthy c then c else market_price pos q
  | None => market_price pos q
  end.

(** The entry of the history for one triggered position. *)
Definition trade_of (now : string) (x : Position * number * Reason)
  : ClosedTrade :=
  let '(pos, c, r) := x in mkClosedTrade pos c now (realizedPnl pos c) r.

Definition closed_id (x : Position * number * Reason) : string :=
  id (fst (fst x)).

(** The rule of the specification for one position on the instrument of
    the tick.  A level that is [null] (or 0) is not set. *)
Definition close_at (b a : number) (pos : Position) : number :=
  match type pos with BUY => b | SELL => a end.

Definition stop_fires (b a : number) (pos : Position) : bool :=
  match stopLoss pos with
  | Some sl =>
      truthy sl && match type pos with BUY => leb b sl | SELL => geb a sl end
  | None => false
  end.

Definition profit_fires (b a : number) (pos : Position) : bool :=
  match takeProfit pos with
  | Some tp =>
      truthy tp && match type pos with BUY => geb b tp | SELL => leb a tp end
  | None => false
  end.

(** Stop-loss first, take-profit only if the stop-loss did not fire. *)
Definition trigger_spec (b a : number) (pos : Position)
  : option (number * Reason) :=
  if stop_fires b a pos then Some (close_at b a pos, StopLossHit)
  else if profit_fires b a pos then Some (close_at b a pos, TakeProfitHit)
  else None.

(** [Σ] over a list of Numbers, as the specification writes the sums of
    the free margin: the sum of all terms but the last, plus the last;
    the empty sum is 0. *)
Fixpoint sum_to_last (reversed : list number) : number :=
  match reversed with
  | [] => Fin 0
  | x :: before => add (sum_to_last before) x
  end.

Definition Sigma (f : Position -> number) (ps : list Position) : number :=
  sum_to_last (rev (map f ps)).

(** One call of [handleClosePosition] from [checkPriceTriggers]. *)
Definition close_one (now : string) (s : State)
    (x : Position * number * Reason) : State :=
  let '(pos, closePrice, r) := x in
  handleClosePosition now (Some pos) (Some closePrice) r s.

(** *** Opening *)

Lemma Sigma_snoc (f : Position -> number) (ps : list Position)
    (p : Position) :
  Sigma f (ps ++ [p]) = add (Sigma f ps) (f p).
Proof. unfold Sigma. now rewrite map_app, rev_app_distr. Qed.

Lemma fold_left_Sigma (f g : Position -> number) (ps : list Position) :
  (forall acc p, add acc (f p) = add acc (g p)) ->
  fold_left (fun acc pos => add acc (f pos)) ps (Fin 0) = Sigma g ps.
Proof.
  intros H. induction ps as [|p ps IH] using rev_ind; [reflexivity|].
  now rewrite fold_left_app, Sigma_snoc, <- IH, <- H.
Qed.

(** In a sum, [pnl || 0] is [pnl], with 0 for a [pnl] that is NaN. *)
Lemma add_or_else_0 (acc x : number) :
  add acc (or_else x (Fin 0)) = add acc (if isNaN x then Fin 0 else x).
Proof.
  unfold or_else. destruct x as [|s|q]; cbn [truthy isNaN]; trivial.
  destruct (is_zero q) eqn:E; cbn [negb]; trivial.
  unfold is_zero in E. apply Qeq_bool_eq in E.
  destruct acc as [|s|a]; trivial. cbn [add]. apply rnd64_comp.
  rewrite E. reflexivity.
Qed.

Lemma totalPnl_Sigma (ps : list Position) :
  totalPnl ps =
  Sigma (fun pos => if isNaN (pnl pos) then Fin 0 else pnl pos) ps.
Proof.
  unfold totalPnl. apply fold_left_Sigma. intros acc p.
  apply add_or_else_0.
Qed.

Lemma contractSize_cases (sym : string) :
  contractSize sym =
  if includes "BTC" sym || includes "ETH" sym then Fin 1 else Fin 100000.
Proof. reflexivity. Qed.

Lemma marginUsed_Sigma (ps : list Position) :
  marginUsed ps =
  Sigma (fun pos =>
           div (mul (mul (entryPrice pos) (lots pos))
                    (if includes "BTC" (symbol pos)
                        || includes "ETH" (symbol pos)
                     then Fin 1 else Fin 100000))
               (leverage pos)) ps.
Proof.
  unfold marginUsed. apply fold_left_Sigma. intros acc p. reflexivity.
Qed.

Section Handlers.
Variable parseFloat : string -> number.

(** C4.  With a quote for the selected instrument, let
    marginRequired = entryPrice * lots * contractSize / leverage, with
    the ask as entry price of a BUY and the bid as that of a SELL and
    contractSize 1 when the symbol contains BTC or ETH and 100000
    otherwise, and let
    freeMargin = availableCapital + Σ unrealized pnl - Σ margin used
    over the open positions, where a position counts with its [pnl] (0
    for a [pnl] that is NaN) and with the margin
    entryPrice * lots * contractSize / leverage it was opened with.  A
    market order is rejected for insufficient margin exactly when
    marginRequired > freeMargin; a rejected order leaves the open
    positions and the trade history as they were; an accepted one appends
    exactly one position, with pnl 0, to the open positions. *)
Theorem handleMarketOrder_margin (uuid now : string) (t : Side) (st : State)
    (q : Quote) :
  prices st !! selectedSymbol st = Some q ->
  let size := fun symbol : string =>
    if includes "BTC" symbol || includes "ETH" symbol
    then Fin 1 else Fin 100000 in
  let price := match t with BUY => ask q | SELL => bid q end in
  let marginRequired :=
    div (mul (mul price (formLots st)) (size (selectedSymbol st)))
        (formLeverage st) in
  let unrealized := fun pos : Position =>
    if isNaN (pnl pos) then Fin 0 else pnl pos in
  let margin := fun pos : Position =>
    div (mul (mul (entryPrice pos) (lots pos)) (size (symbol pos)))
        (leverage pos) in
  let free :=
    sub (add (availableCapital st) (Sigma unrealized (positions st)))
        (Sigma margin (positions st)) in
  let st' := handleMarketOrder parseFloat uuid now t st in
  (gtb marginRequired free = true ->
   positions st' = positions st /\
   tradeHistory st' = tradeHistory st /\
   messages st' = messages st ++ [NotEnoughFreeMargin]) /\
  (gtb marginRequired free = false ->
   exists p,
     positions st' = positions st ++ [p] /\
     pnl p = Fin 0 /\
     entryPrice p = price /\ type p = t /\ symbol p = selectedSymbol st /\
     lots p = formLots st /\ leverage p = formLeverage st /\
     tradeHistory st' = tradeHistory st /\
     messages st' =
       messages st ++ [Opened t (formLots st) (selectedSymbol st) price]).
Proof.
  intros Hq size price marginRequired unrealized margin free st'. subst st'.
  unfold handleMarketOrder. rewrite Hq. fold price.
  rewrite contractSize_cases. fold (size (selectedSymbol st)).
  fold marginRequired.
  assert (E : freeMargin st = free).
  { unfold freeMargin, free. now rewrite totalPnl_Sigma, marginUsed_Sigma. }
  rewrite E. split; intros H; rewrite H.
  - repeat split.
  - eexists. repeat split.
Qed.

End Handlers.

(** *** Closing *)

Lemma realizedPnl_sign (pos : Position) (exit : number) :
  realizedPnl pos exit =
  times_sign (type pos)
    (mul (mul (sub exit (entryPrice pos)) (lots pos))
         (contractSize (symbol pos))).
Proof.
  unfold realizedPnl, times_sign. destruct (type pos); trivial.
  now rewrite (sub_swap (entryPrice pos) exit), !mul_neg_l.
Qed.

(** The contract size of every instrument of the catalog. *)
Lemma contractSize_catalog :
  map (fun s => (name s, contractSize (name s))) ALL_SYMBOLS =
  [ ("EUR/USD", Fin 100000); ("GBP/USD", Fin 100000);
    ("USD/JPY", Fin 100000); ("XAU/USD", Fin 100000);
    ("BTC/USD", Fin 1); ("ETH/USD", Fin 1) ]%string.
Proof. reflexivity. Qed.

Lemma handleClosePosition_eq (now : string) (pos : Position)
    (closePrice : option number) (r : Reason) (st : State)
    (pr : gmap string Quote) (q : Quote) :
  pricesRef st = Some pr -> pr !! symbol pos = Some q ->
  let exit := exit_price closePrice pos q in
  let pl := realizedPnl pos exit in
  handleClosePosition now (Some pos) closePrice r st =
  mkState (filter (fun p => id p <> id pos) (positions st))
    (mkClosedTrade pos exit now pl r :: tradeHistory st)
    (prices st) (pricesRef st) (selectedSymbol st) (formLots st)
    (formLeverage st) (formStopLoss st) (formTakeProfit st)
    (availableCapital st)
    (messages st ++ [Closed (symbol pos) pl r (geb pl (Fin 0))])
    (reported st ++ [pl]).
Proof.
  intros Hp Hq exit pl. subst pl exit.
  unfold handleClosePosition, exit_price, market_price. rewrite Hp, Hq.
  destruct closePrice as [c|]; cbn [truthy_opt]; [destruct (truthy c)|];
    reflexivity.
Qed.

Lemma filter_other_ids (i : string) (ps : list Position) :
  i ∉ map id ps -> filter (fun p => id p <> i) ps = ps.
Proof.
  induction ps as [|p ps IH]; intros H; trivial.
  rewrite filter_cons. cbn [map] in H.
  apply not_elem_of_cons in H. destruct H as [H1 H2].
  destruct (decide (id p <> i)) as [_|C]; [now rewrite IH|].
  exfalso. apply C. congruence.
Qed.

Lemma filter_remove_one (pos : Position) (l1 l2 : list Position) :
  NoDup (map id (l1 ++ pos :: l2)) ->
  filter (fun p => id p <> id pos) (l1 ++ pos :: l2) = l1 ++ l2.
Proof.
  intros H. rewrite map_app in H. cbn [map] in H.
  apply NoDup_app in H. destruct H as (_ & H1 & H2).
  apply NoDup_cons in H2. destruct H2 as [H2 _].
  rewrite filter_app, filter_cons.
  destruct (decide (id pos <> id pos)) as [C|_]; [congruence|].
  rewrite !filter_other_ids; trivial.
  intros C. apply (H1 _ C). left.
Qed.

(** C5.  Closing a position for which a quote is there: without an
    explicit price the exit price is the current bid for a long (BUY)
    position and the current ask for a short (SELL) one;
    realizedPnl = (exitPrice - entryPrice) * lots * contractSize *
    sign(side), with contractSize 1 when the symbol contains BTC or ETH
    and 100000 otherwise; exactly one closed trade with that amount is
    put in front of the history; and the position is removed from the
    open positions. *)
Theorem handleClosePosition_closes (now : string) (pos : Position)
    (closePrice : option number) (r : Reason) (st : State)
    (pr : gmap string Quote) (q : Quote) (l1 l2 : list Position) :
  pricesRef st = Some pr -> pr !! symbol pos = Some q ->
  positions st = l1 ++ pos :: l2 ->
  NoDup (map id (positions st)) ->
  let st' := handleClosePosition now (Some pos) closePrice r st in
  let exit := exit_price closePrice pos q in
  let pl :=
    times_sign (type pos)
      (mul (mul (sub exit (entryPrice pos)) (lots pos))
           (if includes "BTC" (symbol pos) || includes "ETH" (symbol pos)
            then Fin 1 else Fin 100000)) in
  (closePrice = None ->
   exit = match type pos with BUY => bid q | SELL => ask q end) /\
  tradeHistory st' = mkClosedTrade pos exit now pl r :: tradeHistory st /\
  positions st' = l1 ++ l2 /\
  reported st' = reported st ++ [pl].
Proof.
  intros Hp Hq Hl Hn st' exit pl. subst st'.
  rewrite (handleClosePosition_eq now pos closePrice r st pr q Hp Hq).
  fold exit. rewrite realizedPnl_sign, contractSize_cases. fold pl.
  cbn [tradeHistory positions reported]. repeat split.
  - intros ->. reflexivity.
  - rewrite Hl in Hn |- *. now apply filter_remove_one.
Qed.

(** *** Triggers *)

Lemma trigger_is_spec (b a : number) (pos : Position) :
  trigger b a pos = trigger_spec b a pos.
Proof.
  unfold trigger, trigger_spec, stop_fires, profit_fires, close_at.
  destruct (stopLoss pos) as [sl|]; [destruct (truthy sl)|];
    destruct (takeProfit pos) as [tp|]; try destruct (truthy tp);
    destruct (type pos); cbn [andb];
    repeat match goal with
           | |- context [if ?x then _ else _] => destruct x
           end; reflexivity.
Qed.

Lemma trigger_price (b a : number) (pos : Position) (c : number) (r : Reason) :
  trigger b a pos = Some (c, r) -> c = close_at b a pos.
Proof.
  rewrite trigger_is_spec. unfold trigger_spec.
  destruct (stop_fires b a pos); [now intros [= <- <-]|].
  destruct (profit_fires b a pos); [now intros [= <- <-]|discriminate].
Qed.

Lemma NoDup_map_eq {A B : Type} (f : A -> B) (l : list A) (x y : A) :
  NoDup (map f l) -> x ∈ l -> y ∈ l -> f x = f y -> x = y.
Proof.
  induction l as [|a l IH]; intros Hn Hx Hy E; [inversion Hx|].
  cbn [map] in Hn. apply NoDup_cons in Hn. destruct Hn as [Ha Hn].
  apply elem_of_cons in Hx. apply elem_of_cons in Hy.
  destruct Hx as [->|Hx], Hy as [->|Hy]; trivial.
  - exfalso. apply Ha. rewrite E. apply list_elem_of_fmap. eauto.
  - exfalso. apply Ha. rewrite <- E. apply list_elem_of_fmap. eauto.
  - now apply IH.
Qed.

Lemma close_one_eq (now : string) (s : State) (x : Position * number * Reason)
    (pr : gmap string Quote) :
  pricesRef s = Some pr -> truthy (snd (fst x)) = true ->
  let s' := close_one now s x in
  pricesRef s' = Some pr /\
  tradeHistory s' = trade_of now x :: tradeHistory s /\
  positions s' = filter (fun p => id p <> closed_id x) (positions s).
Proof.
  destruct x as [[pos c] r]. cbn [fst snd]. intros Hp Hc.
  unfold close_one, handleClosePosition. rewrite Hp. cbn [truthy_opt].
  rewrite Hc. cbn. repeat split.
Qed.

Lemma close_all_eq (now : string) (pr : gmap string Quote)
    (xs : list (Position * number * Reason)) : forall s : State,
  pricesRef s = Some pr ->
  Forall (fun x => truthy (snd (fst x)) = true) xs ->
  (forall x, x ∈ xs -> closed_id x ∉ map id (positions s)) ->
  let s' := fold_left (close_one now) xs s in
  tradeHistory s' = rev (map (trade_of now) xs) ++ tradeHistory s /\
  positions s' = positions s.
Proof.
  induction xs as [|x xs IH]; intros s Hp Ht Hid; [split; reflexivity|].
  apply Forall_cons in Ht. destruct Ht as [Hx Ht].
  destruct (close_one_eq now s x pr Hp Hx) as (Hp1 & Hh1 & Hs1).
  rewrite filter_other_ids in Hs1 by (apply Hid; left).
  cbn [fold_left].
  destruct (IH (close_one now s x) Hp1 Ht) as [Hh Hs].
  { intros y Hy. rewrite Hs1. apply Hid. now right. }
  cbv zeta. rewrite Hh, Hs, Hh1, Hs1. split; trivial.
  cbn [map rev]. now rewrite <- app_assoc.
Qed.

Lemma checkPriceTriggers_eq (now symbolName : string) (b a : number) (st : State) :
  checkPriceTriggers now symbolName b a st =
  fold_left (close_one now)
    (omap (decide_close symbolName b a) (positions st))
    (set_positions st
       (filter (fun pos => decide_close symbolName b a pos = None)
          (positions st))).
Proof.
  unfold checkPriceTriggers. f_equal.
Qed.

Lemma decide_close_pos (symbolName : string) (b a : number)
    (pos pos' : Position) (c : number) (r : Reason) :
  decide_close symbolName b a pos = Some (pos', c, r) ->
  pos' = pos /\ symbol pos = symbolName /\ trigger b a pos = Some (c, r).
Proof.
  unfold decide_close. destruct (String.eqb_spec (symbol pos) symbolName) as [E|E];
    cbn [negb]; [|discriminate].
  destruct (trigger b a pos) as [[c' r']|]; [|discriminate].
  intros [= <- <- <-]. auto.
Qed.

(** C6.  On a tick [(bid, ask)] for an instrument, each open position on
    it is tested stop-loss first and take-profit only if the stop-loss
    did not fire: a long stop-loss fires when [bid <= stopLoss], a short
    one when [ask >= stopLoss], a long take-profit when
    [bid >= takeProfit], a short one when [ask <= takeProfit], each
    closing at the bid (long) or the ask (short); positions on other
    instruments are not tested; every position gives at most one close;
    the positions that are not triggered stay in the open positions as
    they are and in their order, and the history receives exactly one
    closed trade, at that price and with that reason, per triggered
    position. *)
Theorem checkPriceTriggers_fires (now symbolName : string) (b a : number)
    (st : State) (pr : gmap string Quote) :
  pricesRef st = Some pr ->
  truthy b = true -> truthy a = true ->
  NoDup (map id (positions st)) ->
  let fired := omap (decide_close symbolName b a) (positions st) in
  let st' := checkPriceTriggers now symbolName b a st in
  (forall pos,
     decide_close symbolName b a pos =
     if String.eqb (symbol pos) symbolName
     then match trigger_spec b a pos with
          | Some (c, r) => Some (pos, c, r)
          | None => None
          end
     else None) /\
  positions st' =
    filter (fun pos => decide_close symbolName b a pos = None) (positions st) /\
  tradeHistory st' = rev (map (trade_of now) fired) ++ tradeHistory st /\
  (length fired + length (positions st') = length (positions st))%nat.
Proof.
  intros Hp Hb Ha Hn fired st'. subst st'. split.
  - intros pos. unfold decide_close. rewrite trigger_is_spec.
    now destruct (String.eqb (symbol pos) symbolName).
  - rewrite checkPriceTriggers_eq. fold fired.
    set (kept := filter _ (positions st)).
    destruct (close_all_eq now pr fired (set_positions st kept)) as [Hh Hs].
    + exact Hp.
    + apply Forall_forall. intros [[pos c] r] Hx. cbn [fst snd].
      apply list_elem_of_omap in Hx. destruct Hx as (p0 & _ & Hd).
      apply decide_close_pos in Hd. destruct Hd as (_ & _ & Hd).
      rewrite (trigger_price _ _ _ _ _ Hd). unfold close_at.
      now destruct (type p0).
    + intros [[pos c] r] Hx. unfold closed_id. cbn [fst positions set_positions].
      apply list_elem_of_omap in Hx. destruct Hx as (p0 & Hin & Hd).
      pose proof (decide_close_pos _ _ _ _ _ _ _ Hd) as (-> & _ & _).
      intros C. apply list_elem_of_fmap in C.
      destruct C as (p1 & Hid & H1). subst kept.
      apply list_elem_of_filter in H1. destruct H1 as [Hk H1].
      assert (p1 = p0); [|subst; congruence].
      now apply (NoDup_map_eq id (positions st)).
    + split; [exact Hs|]. split; [exact Hh|].
      rewrite Hs. cbn [positions set_positions]. subst kept fired.
      clear. induction (positions st) as [|p ps IH]; trivial.
      rewrite filter_cons. cbn [omap list_omap length].
      destruct (decide_close symbolName b a p) as [x|]; cbn [length].
      * destruct (decide (Some x = None)); [discriminate|]. cbn in *. lia.
      * destruct (decide (None = None)); [|congruence]. cbn in *. lia.
Qed.

End TraderFacts.

Module Examples.
Import JSNumber JSNumberFacts Plan PlanFacts StoreFacts.

(** A day as [generatePlanStructure] makes it, with an outcome. *)
Definition day_with (i : Z) (dt : string) (a : jsval) : Day :=
  mkDay i dt (JNum (Fin 0)) (JNum (Fin 0)) (JNum (Fin 0)) (JNum (Fin 0))
    false "+" a "" "" "" [].

(** Four days of the default plan; on the first three a profit was
    recorded, the way [handleTradeClose] writes it. *)
Definition journal (a1 a2 a3 : string) : list Month :=
  [ mkMonth 1 "November 2025"
      [ day_with 1 "2025-11-17" (JStr a1);
        day_with 2 "2025-11-18" (JStr a2);
        day_with 3 "2025-11-19" (JStr a3);
        day_with 4 "2025-11-20" (JStr "") ] ].

(** The months a run of the example configuration returns. *)
Definition run (ms : list Month) : list Month :=
  match recalculatePlan Math_pow_ref 66 (example_config ms) with
  | Done M => M
  | _ => []
  end.

(** Small outcomes: 0.40 on each of the first three days. *)
Definition small_gains : list Month := journal "0.40" "0.40" "0.40".

Definition small_gains_result : list Month :=
  Eval vm_compute in run small_gains.

(** C2 as it is stated: after a day with a recorded outcome the next day
    starts at the rounding of that day's (rounded) start plus the signed
    outcome; after a day without one it starts at that day's target. *)
Definition capital_step_as_stated (M : list Month) : Prop :=
  forall (i : nat) (d d1 : Day),
    allDays M !! i = Some d -> allDays M !! S i = Some d1 ->
    (actual d <> JStr "" ->
     exists c c1,
       capital d = JNum c /\ capital d1 = JNum c1 /\
       eqb c1 (Math_round (add c (signedProfit d))) = true) /\
    (actual d = JStr "" -> capital d1 = target d).

(** A gain on day 1 that stops 0.40 short of the target of day 2. *)
Definition near_target : list Month := journal "4750.60" "" "".

Definition near_target_result : list Month :=
  Eval vm_compute in run near_target.

(** C3 as it is stated: the rate is never negative, and it is 0 as soon
    as the day's start is at or above its target. *)
Definition rate_as_stated (M : list Month) : Prop :=
  forall (i : nat) (d : Day) (c t r : number),
    allDays M !! i = Some d ->
    capital d = JNum c -> target d = JNum t -> dailyRate d = JNum r ->
    geb r num0 = true /\ (geb c t = true -> eqb r num0 = true).

(** The example of the specification: nothing recorded yet. *)
Definition untouched : list Month := journal "" "" "".

Definition untouched_result : list Month :=
  Eval vm_compute in run untouched.

(** Day [i] (from 0) of a journal. *)
Definition day_at_index (ms : list Month) (i : nat) : Day :=
  match allDays ms !! i with
  | Some d => d
  | None => day_with 0 "" (JStr "")
  end.

(** A configuration with nothing valid in it: no tenure, a negative
    initial capital, and a final target below the default capital. *)
Definition invalid_config : Document (list Month) :=
  mkDocument (Fin (-5)) (Fin 10) (Fin 0) untouched.

Definition invalid_result : list Month :=
  Eval vm_compute in
    match recalculatePlan Math_pow_ref 66 invalid_config with
    | Done M => M
    | _ => []
    end.

(** [x] is [c] to within [tol]. *)
Definition near (x c tol : Q) : Prop := Qabs (x - c) <= tol.

(** C9 as it is stated, the figures read to the precision they are given
    with: the rate 4.66% to within half a hundredth of a percent, the
    target 52330 and the profit 2330 to within 5. *)
Definition example_as_stated (pow : number -> number -> number) : Prop :=
  exists (M : list Month) (d : Day) (r t p : Q),
    recalculatePlan pow 66 (example_config untouched) = Done M /\
    allDays M !! 0%nat = Some d /\
    initialDailyRate pow (example_config untouched) = Fin r /\
    target d = JNum (Fin t) /\ profit d = JNum (Fin p) /\
    near r (466 # 10000) (5 # 100000) /\
    near t 52330 5 /\ near p 2330 5.

(** A store that holds the journal [small_gains] and nothing else. *)
Definition journal_store : ref * store :=
  Eval vm_compute in JSON_parse small_gains [].

(** The document of the example, its months behind the reference. *)
Definition stored_config : Document ref :=
  mkDocument (Fin 50000) (Fin 1000000) (Fin 66) (fst journal_store).

Definition stored_run : outcome (ref * store) :=
  Eval vm_compute in
    recalculatePlan_store Math_pow_ref 66 (snd journal_store) stored_config.

Lemma small_gains_run :
  recalculatePlan Math_pow_ref 66 (example_config small_gains)
  = Done small_gains_result.
Proof. vm_compute. reflexivity. Qed.

Lemma near_target_run :
  recalculatePlan Math_pow_ref 66 (example_config near_target)
  = Done near_target_result.
Proof. vm_compute. reflexivity. Qed.

Lemma untouched_run :
  recalculatePlan Math_pow_ref 66 (example_config untouched)
  = Done untouched_result.
Proof. vm_compute. reflexivity. Qed.

(** C1, at the example: recalculating the recalculated journal gives it
    back. *)
Lemma recalculatePlan_idempotent_witness :
  recalculatePlan Math_pow_ref 66
    (set_months (example_config small_gains) small_gains_result)
  = Done small_gains_result.
Proof.
  apply (recalculatePlan_idempotent Math_pow_ref 66
           (example_config small_gains) small_gains_result).
  exact small_gains_run.
Defined.

Lemma small_gains_shaped : json_shaped small_gains.
Proof. repeat constructor. Qed.

(** C8, at the example: the journal of the four days is as it was. *)
Lemma recalculatePlan_frame_witness :
  map frame_of small_gains_result = map frame_of small_gains.
Proof.
  apply (recalculatePlan_frame Math_pow_ref 66 (example_config small_gains)
           small_gains_result).
  - exact small_gains_shaped.
  - exact small_gains_run.
Defined.

(** Days 2 and 3 of the example: day 2 starts at 50000 (the running
    capital is 50000.4) and gains 0.40, and day 3 starts at 50001, the
    rounding of 50000.8, not at round(50000 + 0.4) = 50000. *)
Lemma capital_step_counterexample :
  recalculatePlan Math_pow_ref 66 (example_config small_gains)
    = Done small_gains_result /\
  ~ capital_step_as_stated small_gains_result.
Proof.
  split; [exact small_gains_run|]. intros H.
  destruct (H 1%nat _ _ eq_refl eq_refl) as [H1 _].
  destruct H1 as (c & c1 & Hc & Hc1 & E).
  { discriminate. }
  injection Hc as <-. injection Hc1 as <-.
  vm_compute in E. discriminate.
Qed.

(** C2 as amended, at days 2 and 3 of the example: day 2 has the
    outcome 0.40; the running capital goes from 50000.4 to 50000.8, and
    the days start at 50000 and 50001. *)
Lemma capital_of_next_day_witness :
  exists d d1 : Day,
    allDays small_gains_result !! 1%nat = Some d /\
    allDays small_gains_result !! 2%nat = Some d1 /\
    let A := runningCapital (validInitialCapital (example_config small_gains))
               (allDays small_gains_result) in
    A 0%nat = validInitialCapital (example_config small_gains) /\
    (actual d <> JStr "" -> A 2%nat = add (A 1%nat) (signedProfit d)) /\
    (actual d = JStr "" -> JNum (A 2%nat) = target d) /\
    capital d = JNum (Math_round (A 1%nat)) /\
    capital d1 = JNum (Math_round (A 2%nat)) /\
    (actual d <> JStr "" ->
     capital d1 = JNum (Math_round (add (A 1%nat) (signedProfit d)))) /\
    (actual d = JStr "" -> capital d1 = target d).
Proof.
  eexists _, _. split; [reflexivity|]. split; [reflexivity|].
  apply (capital_of_next_day Math_pow_ref 66 (example_config small_gains)
           small_gains_result 1).
  - exact small_gains_run.
  - reflexivity.
  - reflexivity.
Defined.

(** Day 2 of the example starts at 54751, the rounding of 54750.6, and
    its target is 54751: the start is at the target, and the rate is
    54751 / 54750.6 - 1, not 0. *)
Lemma rate_counterexample :
  recalculatePlan Math_pow_ref 66 (example_config near_target)
    = Done near_target_result /\
  ~ rate_as_stated near_target_result.
Proof.
  split; [exact near_target_run|]. intros H.
  destruct (H 1%nat _ _ _ _ eq_refl eq_refl eq_refl eq_refl) as [_ E].
  assert (C : eqb _ num0 = true) by (apply E; vm_compute; reflexivity).
  vm_compute in C. discriminate.
Qed.

(** C3 as amended, at day 2 of the example: the running capital is
    54750.6, the capital 54751 is the target, and the rate is
    54751 / 54750.6 - 1, above 0. *)
Lemma dailyRate_nonneg_witness :
  let d := day_at_index near_target_result 1 in
  let A := runningCapital (validInitialCapital (example_config near_target))
             (allDays near_target_result) 1 in
  exists r t,
    dailyRate d = JNum r /\ target d = JNum t /\ capital d = JNum t /\
    geb r num0 = true /\ r = sub (div t A) num1 /\ gtb r num0 = true.
Proof.
  intros d A.
  destruct (dailyRate_nonneg Math_pow_ref 66 (example_config near_target)
              near_target_result 1 d near_target_run eq_refl)
    as (r & t & Hr & Ht & Hc & Hn & _ & _ & Hp).
  assert (Et : t = Fin 54751) by (vm_compute in Ht; now injection Ht).
  assert (G1 : gtb A num0 = true) by (vm_compute; reflexivity).
  assert (G2 : gtb t A = true) by (rewrite Et; vm_compute; reflexivity).
  destruct (Hp G1 G2) as [E Pos].
  exists r, t. split; [exact Hr|]. split; [exact Ht|]. split.
  { rewrite Et. vm_compute. reflexivity. }
  split; [exact Hn|]. split; [exact E|]. apply Pos.
  exists 50000. split; [vm_compute; reflexivity|reflexivity].
Defined.

(** The rate is 4.6436%, day 1 has target 52322 and profit 2322. *)
Lemma example_counterexample : ~ example_as_stated Math_pow_ref.
Proof.
  intros (M & d & r & t & p & HM & Hd & _ & Ht & _ & _ & Nt & _).
  rewrite untouched_run in HM. injection HM as <-.
  injection Hd as <-. injection Ht as <-.
  unfold near in Nt. vm_compute in Nt. apply Nt. reflexivity.
Qed.

(** C9 as amended, with the reference [Math.pow]. *)
Lemma example_day_one_witness :
  exists d : Day,
    allDays untouched_result !! 0%nat = Some d /\
    (exists r, initialDailyRate Math_pow_ref (example_config untouched) = Fin r /\
               (464349 # 10000000) <= r /\ r <= (464371 # 10000000)) /\
    target d = JNum (Fin 52322) /\
    profit d = JNum (Fin 2322).
Proof.
  eexists. split; [reflexivity|].
  apply (example_day_one Math_pow_ref untouched
           (2356363867036233 # 2251799813685248) 66 untouched_result).
  - vm_compute. reflexivity.
  - refine (proj1 (Qle_bool_iff _ _) _). vm_compute. reflexivity.
  - refine (proj1 (Qle_bool_iff _ _) _). vm_compute. reflexivity.
  - exact untouched_run.
  - reflexivity.
Defined.

(** C7, at a configuration with nothing valid in it: the run uses 66,
    50000 and 100000, finishes, and the fields of its result are those
    of the ideal plan from these. *)
Lemma recalculatePlan_sanitizes_witness :
  let P := invalid_config in
  let vT := if gtb (tenure P) (Fin 0) then tenure P else Fin 66 in
  let vIC :=
    if gtb (initialCapital P) (Fin 0) then initialCapital P else Fin 50000 in
  let vFT :=
    if gtb (finalTarget P) vIC then finalTarget P else mul vIC (Fin 2) in
  let rate0 := sub (Math_pow_ref (div vFT vIC) (div (Fin 1) vT)) (Fin 1) in
  let rate :=
    if isNaN rate0 || negb (isFinite rate0) || ltb rate0 num_m0_5
    then num_0_01 else rate0 in
  vT = Fin 66 /\ vIC = Fin 50000 /\ vFT = mul vIC (Fin 2) /\
  (exists M, recalculatePlan Math_pow_ref 66 P = Done M) /\
  exists n : nat,
    (1 <= n)%nat /\
    (forall k, (k < n)%nat -> ltb (counter k) vT = true) /\
    ltb (counter n) vT = false /\
    forall (i : nat) (d : Day), allDays invalid_result !! i = Some d ->
      let k := Nat.min i (n - 1) in
      let A := runningCapital vIC (allDays invalid_result) i in
      let t := Math_round (idealCapital vIC rate (S k)) in
      target d = JNum t /\
      profit d =
        JNum (Math_round (sub (idealCapital vIC rate (S k))
                              (idealCapital vIC rate k))) /\
      capital d = JNum (Math_round A) /\
      dailyRate d =
        JNum (if gtb A (Fin 0) && gtb t A
              then sub (div t A) (Fin 1) else Fin 0).
Proof.
  intros P vT vIC vFT rate0 rate.
  assert (S := recalculatePlan_sanitizes Math_pow_ref 66 P).
  cbv zeta in S.
  destruct S as (T1 & _ & C1 & _ & F1 & _ & _ & R & _ & D).
  split; [apply T1; reflexivity|].
  split; [apply C1; reflexivity|].
  split; [apply F1; left; reflexivity|].
  split; [apply R; reflexivity|].
  apply (D invalid_result); [reflexivity|]. vm_compute. reflexivity.
Defined.

(** C10, at the example. *)
Lemma recalculatePlan_store_frame_witness :
  exists (r : ref) (s' : store),
    stored_run = Done (r, s') /\
    (forall (l : ref) (o : object),
       snd journal_store !! l = Some o -> s' !! l = Some o) /\
    read_months s' (months stored_config) =
      read_months (snd journal_store) (months stored_config) /\
    (length (snd journal_store) <= r)%nat /\
    exists ms M,
      read_months (snd journal_store) (months stored_config) = Some ms /\
      recalculatePlan Math_pow_ref 66 (set_months stored_config ms) = Done M /\
      read_months s' r = Some M.
Proof.
  eexists _, _. split; [reflexivity|].
  apply (recalculatePlan_store_frame Math_pow_ref 66 (snd journal_store)).
  vm_compute. reflexivity.
Defined.

End Examples.

Module TraderExamples.
Import JSNumber JSNumberFacts Trader TraderFacts.

(** A long EUR/USD position with a stop-loss at 1.0800 and a short
    BTC/USD position opened at 65000. *)
Definition long_eur : Position :=
  mkPosition "7f1c" "EUR/USD" BUY (dec 1 100) (Fin 100) (dec 10856 10000)
    (Some (dec 10800 10000)) None (Fin 0) "17/11/2025, 10:00:00".

Definition short_btc : Position :=
  mkPosition "a52e" "BTC/USD" SELL (dec 1 100) (Fin 1) (Fin 65000)
    None (Some (Fin 60000)) (Fin 0) "17/11/2025, 10:05:00".

Definition quotes : gmap string Quote :=
  {[ "EUR/USD" := mkQuote (dec 10854 10000) (dec 10856 10000);
     "BTC/USD" := mkQuote (Fin 64450) (Fin 64500) ]}.

(** The order form asks for 0.01 lots of EUR/USD at leverage 100. *)
Definition desk : State :=
  mkState [long_eur; short_btc] [] quotes (Some quotes) "EUR/USD"
    (dec 1 100) (Fin 100) "" "" (Fin 50000) [] [].

(** The two positions of the desk, valued: the long one has lost 30,
    the short one gained 5.5.  The capital is 700, and the form asks for
    0.02 lots of EUR/USD at leverage 100. *)
Definition valued_desk : State :=
  mkState
    [ mkPosition "7f1c" "EUR/USD" BUY (dec 1 100) (Fin 100) (dec 10856 10000)
        (Some (dec 10800 10000)) None (Fin (-30)) "17/11/2025, 10:00:00";
      mkPosition "a52e" "BTC/USD" SELL (dec 1 100) (Fin 1) (Fin 65000)
        None (Some (Fin 60000)) (Fin (11 # 2)) "17/11/2025, 10:05:00" ]
    [] quotes (Some quotes) "EUR/USD"
    (dec 2 100) (Fin 100) "" "" (Fin 700) [] [].

(** C4, at the example: the margins in use are 10.856 and 650 and the
    unrealized profit is -24.5, so the free margin is 14.644; 0.02 lots
    of EUR/USD at 1.0856 and leverage 100 need 21.712 and are rejected
    (without the unrealized loss 39.144 would be free), while at the
    bid, 1.0854, and leverage 400 they need 5.427 and are accepted. *)
Lemma handleMarketOrder_margin_witness :
  let st1 := handleMarketOrder StringToNumber "c3d0" "17/11/2025, 10:10:00"
               BUY valued_desk in
  let desk400 :=
    mkState (positions valued_desk) [] quotes (Some quotes) "EUR/USD"
      (dec 2 100) (Fin 400) "" "" (Fin 700) [] [] in
  let st2 := handleMarketOrder StringToNumber "c3d0" "17/11/2025, 10:10:00"
               SELL desk400 in
  (positions st1 = positions valued_desk /\
   tradeHistory st1 = tradeHistory valued_desk /\
   messages st1 = messages valued_desk ++ [NotEnoughFreeMargin]) /\
  exists p,
    positions st2 = positions desk400 ++ [p] /\
    pnl p = Fin 0 /\
    entryPrice p = dec 10854 10000 /\ type p = SELL /\
    symbol p = selectedSymbol desk400 /\
    lots p = formLots desk400 /\ leverage p = formLeverage desk400 /\
    tradeHistory st2 = tradeHistory desk400 /\
    messages st2 =
      messages desk400 ++
      [Opened SELL (formLots desk400) (selectedSymbol desk400)
         (dec 10854 10000)].
Proof.
  intros st1 desk400 st2. split.
  - apply (proj1 (handleMarketOrder_margin StringToNumber "c3d0"
                    "17/11/2025, 10:10:00" BUY valued_desk
                    (mkQuote (dec 10854 10000) (dec 10856 10000))
                    ltac:(vm_compute; reflexivity))).
    vm_compute. reflexivity.
  - apply (proj2 (handleMarketOrder_margin StringToNumber "c3d0"
                    "17/11/2025, 10:10:00" SELL desk400
                    (mkQuote (dec 10854 10000) (dec 10856 10000))
                    ltac:(vm_compute; reflexivity))).
    vm_compute. reflexivity.
Defined.

(** C5, at the example: the short BTC/USD position opened at 65000 is
    closed at the ask, 64500, for 500 * 0.01 * 1. *)
Lemma handleClosePosition_closes_witness :
  let st' := handleClosePosition "17/11/2025, 11:00:00" (Some short_btc)
               None ManualClose desk in
  let exit := exit_price None short_btc (mkQuote (Fin 64450) (Fin 64500)) in
  let pl :=
    times_sign (type short_btc)
      (mul (mul (sub exit (entryPrice short_btc)) (lots short_btc))
           (if includes "BTC" (symbol short_btc) ||
               includes "ETH" (symbol short_btc)
            then Fin 1 else Fin 100000)) in
  (@None number = None ->
   exit = match type short_btc with
          | BUY => bid (mkQuote (Fin 64450) (Fin 64500))
          | SELL => ask (mkQuote (Fin 64450) (Fin 64500))
          end) /\
  tradeHistory st' =
    mkClosedTrade short_btc exit "17/11/2025, 11:00:00" pl ManualClose
    :: tradeHistory desk /\
  positions st' = [long_eur] ++ [] /\
  reported st' = reported desk ++ [pl].
Proof.
  apply (handleClosePosition_closes "17/11/2025, 11:00:00" short_btc None
           ManualClose desk quotes (mkQuote (Fin 64450) (Fin 64500))
           [long_eur] []).
  - reflexivity.
  - vm_compute. reflexivity.
  - reflexivity.
  - apply (bool_decide_unpack _). vm_compute. exact I.
Defined.

(** C6, at the example: a tick of EUR/USD with the bid at 1.0799. *)
Lemma checkPriceTriggers_fires_witness :
  let b := dec 10799 10000 in
  let a := dec 10801 10000 in
  let fired := omap (decide_close "EUR/USD" b a) (positions desk) in
  let st' := checkPriceTriggers "17/11/2025, 11:30:00" "EUR/USD" b a desk in
  (forall pos,
     decide_close "EUR/USD" b a pos =
     if String.eqb (symbol pos) "EUR/USD"
     then match trigger_spec b a pos with
          | Some (c, r) => Some (pos, c, r)
          | None => None
          end
     else None) /\
  positions st' =
    filter (fun pos => decide_close "EUR/USD" b a pos = None) (positions desk) /\
  tradeHistory st' =
    rev (map (trade_of "17/11/2025, 11:30:00") fired) ++ tradeHistory desk /\
  (length fired + length (positions st') = length (positions desk))%nat.
Proof.
  apply (checkPriceTriggers_fires "17/11/2025, 11:30:00" "EUR/USD"
           (dec 10799 10000) (dec 10801 10000) desk quotes).
  - reflexivity.
  - vm_compute. reflexivity.
  - vm_compute. reflexivity.
  - apply (bool_decide_unpack _). vm_compute. exact I.
Defined.

(** What that tick does: the long position is closed at the bid by its
    stop-loss, the short one stays. *)
Lemma stop_loss_tick :
  let st' := checkPriceTriggers "17/11/2025, 11:30:00" "EUR/USD"
               (dec 10799 10000) (dec 10801 10000) desk in
  positions st' = [short_btc] /\
  map (fun c => (id (position c), exitPrice c, reason c)) (tradeHistory st')
  = [("7f1c"%string, dec 10799 10000, StopLossHit)].
Proof. vm_compute. split; reflexivity. Qed.

(** The margin of the order of the example is 10.856, as a binary64
    value. *)
Lemma example_margin :
  div (mul (mul (dec 10856 10000) (dec 1 100)) (contractSize "EUR/USD"))
      (Fin 100) = dec 10856 1000.
Proof. vm_compute. reflexivity. Qed.

End TraderExamples.

Module DeskFacts.
Import JSNumber JSNumberFacts Trader TraderFacts Feed Desk.


(** Not a gain: zero, negative or NaN. *)
Definition no_gain (x : number) : Prop := gtb x (Fin 0) = false.

(** A quote whose bid is not above its ask, where both are numbers. *)
Definition not_crossed (q : Quote) : Prop :=
  isNaN (bid q) = false -> isNaN (ask q) = false -> le (bid q) (ask q).

(** The invariant of the entries of the feed. *)
Definition sound (e : Entry) : Prop :=
  le (Fin 0) (e_spread e) /\ le (Fin 0) (e_pips e) /\ not_crossed (quote e).

(** *** Signs *)

Lemma le_0_Fin (x : number) :
  le (Fin 0) x -> x = Inf false \/ exists q, x = Fin q /\ 0 <= q.
Proof.
  destruct x as [|[|]|q]; simpl; try contradiction; eauto.
Qed.

Lemma no_gain_cases (x : number) :
  no_gain x -> x = NaN \/ x = Inf true \/ exists q, x = Fin q /\ q <= 0.
Proof.
  unfold no_gain, gtb. destruct x as [|[|]|q]; simpl; auto; try discriminate.
  destruct (Qcompare_spec 0 q) as [E|E|E]; try discriminate; intros _;
    right; right; exists q; split; trivial; lra.
Qed.

Lemma le_no_gain (x : number) : le x (Fin 0) -> no_gain x.
Proof.
  unfold no_gain, gtb. destruct x as [|[|]|q]; simpl; trivial;
    try contradiction.
  intros H. destruct (Qcompare_spec 0 q); trivial. lra.
Qed.

Lemma is_zero_false_pos (q : Q) : 0 <= q -> is_zero q = false -> 0 < q.
Proof.
  unfold is_zero. intros H E.
  destruct (Qeq_bool q 0) eqn:B; [discriminate|].
  apply Qeq_bool_neq in B. lra.
Qed.

Lemma is_zero_false_neg (q : Q) : q <= 0 -> is_zero q = false -> q < 0.
Proof.
  unfold is_zero. intros H E.
  destruct (Qeq_bool q 0) eqn:B; [discriminate|].
  apply Qeq_bool_neq in B. lra.
Qed.

Lemma is_neg_pos (q : Q) : 0 < q -> is_neg q = false.
Proof.
  unfold is_neg. intros H. destruct (Qcompare_spec q 0); trivial. lra.
Qed.

Lemma is_neg_neg (q : Q) : q < 0 -> is_neg q = true.
Proof.
  unfold is_neg. intros H. destruct (Qcompare_spec q 0); trivial; lra.
Qed.

(** A loss times a non-negative factor is no gain. *)
Lemma mul_no_gain (x y : number) :
  no_gain x -> le (Fin 0) y -> no_gain (mul x y).
Proof.
  intros Hx Hy.
  destruct (no_gain_cases x Hx) as [->|[->|(a & -> & Ha)]]; [reflexivity| |];
    destruct (le_0_Fin y Hy) as [->|(l & -> & Hl)].
  - reflexivity.
  - cbn [mul]. destruct (is_zero l) eqn:Z; [reflexivity|].
    rewrite (is_neg_pos l (is_zero_false_pos l Hl Z)). reflexivity.
  - cbn [mul]. destruct (is_zero a) eqn:Z; [reflexivity|].
    rewrite (is_neg_neg a (is_zero_false_neg a Ha Z)). reflexivity.
  - cbn [mul]. apply le_no_gain, rnd64_nonpos. nra.
Qed.

Lemma sub_no_gain (x y : number) : le x y -> no_gain (sub x y).
Proof.
  destruct x as [|[|]|a], y as [|[|]|b]; simpl; try contradiction;
    try reflexivity.
  intros H. apply le_no_gain, rnd64_nonpos. lra.
Qed.

Lemma contractSize_pos (sym : string) : le (Fin 0) (contractSize sym).
Proof.
  rewrite contractSize_cases.
  destruct (includes "BTC" sym || includes "ETH" sym); simpl; lra.
Qed.

(** *** Monotonicity *)

Lemma mul_pos_mono (x y : number) (c : Q) :
  0 < c -> le x y -> le (mul x (Fin c)) (mul y (Fin c)).
Proof.
  intros Hc H.
  assert (Z : is_zero c = false).
  { unfold is_zero. destruct (Qeq_bool c 0) eqn:B; trivial.
    apply Qeq_bool_eq in B. lra. }
  pose proof (is_neg_pos c Hc) as N.
  destruct x as [|[|]|a], y as [|[|]|b]; cbn [mul le] in *;
    rewrite ?Z, ?N; cbn [xorb]; try contradiction; trivial.
  - pose proof (rnd64_isNaN (b * c)). destruct (rnd64 (b * c)); trivial.
    discriminate.
  - pose proof (rnd64_isNaN (a * c)).
    destruct (rnd64 (a * c)) as [|[|]|]; cbn [le]; trivial. discriminate.
  - apply rnd64_mono. nra.
Qed.

Lemma div_pos_mono (x y : number) (c : Q) :
  0 < c -> le x y -> le (div x (Fin c)) (div y (Fin c)).
Proof.
  intros Hc H.
  assert (Z : is_zero c = false).
  { unfold is_zero. destruct (Qeq_bool c 0) eqn:B; trivial.
    apply Qeq_bool_eq in B. lra. }
  pose proof (is_neg_pos c Hc) as N.
  destruct x as [|[|]|a], y as [|[|]|b]; cbn [div le] in *;
    rewrite ?Z, ?N; cbn [xorb]; try contradiction; trivial.
  - pose proof (rnd64_isNaN (b / c)). destruct (rnd64 (b / c)); trivial.
    discriminate.
  - pose proof (rnd64_isNaN (a / c)).
    destruct (rnd64 (a / c)) as [|[|]|]; cbn [le]; trivial. discriminate.
  - apply rnd64_mono. apply Qmult_le_compat_r; trivial.
    apply Qlt_le_weak, Qinv_lt_0_compat, Hc.
Qed.

Lemma le_gtb (x y : number) : le x y -> gtb x y = false.
Proof.
  intros H. apply PlanFacts.leb_not_gtb, leb_le, H.
Qed.

(** [x || 0] is [x], as a value, for every [x] that is not NaN. *)
Lemma le_or_else_0 (x y : number) : le x y -> le x (or_else y (Fin 0)).
Proof.
  unfold or_else. destruct (truthy y) eqn:T; trivial.
  destruct y as [|[|]|b]; cbn [truthy] in T; try discriminate.
  - intros H. destruct x as [|[|]|]; contradiction.
  - apply negb_false_iff in T. unfold is_zero in T. apply Qeq_bool_eq in T.
    destruct x as [|[|]|a]; cbn [le]; trivial. intros H. lra.
Qed.

(** *** The live update *)





(** *** Opening and closing at once *)

Section Handlers.
Variable parseFloat : string -> number.

(** A round trip costs the spread.  With a quote that is not crossed and
    a volume that is not negative, a position that is opened and closed
    by hand before the prices move realizes
    [(bid - ask) * lots * contractSize], whichever the side, and that is
    never a gain. *)
Theorem round_trip_no_gain (uuid now now' : string) (t : Side) (st : State)
    (q : Quote) :
  prices st !! selectedSymbol st = Some q ->
  pricesRef st = Some (prices st) ->
  le (bid q) (ask q) -> le (Fin 0) (formLots st) ->
  let st1 := handleMarketOrder parseFloat uuid now t st in
  positions st1 <> positions st ->
  exists p,
    positions st1 = positions st ++ [p] /\
    let st2 := handleClosePosition now' (Some p) None ManualClose st1 in
    let pl :=
      mul (mul (sub (bid q) (ask q)) (formLots st))
          (contractSize (selectedSymbol st)) in
    reported st2 = reported st ++ [pl] /\
    tradeHistory st2 =
      mkClosedTrade p (market_price p q) now' pl ManualClose
        :: tradeHistory st /\
    no_gain pl.
Proof.
  intros Hq Hp Hle Hl st1. subst st1. unfold handleMarketOrder.
  rewrite Hq.
  match goal with |- context [if ?c then _ else _] => destruct c end.
  { intros C. exfalso. apply C. reflexivity. }
  intros _. eexists. split; [reflexivity|]. cbv zeta.
  match goal with
  | |- context [handleClosePosition _ (Some ?p) _ _ ?s] =>
      set (s1 := s); set (p0 := p)
  end.
  assert (Hp1 : pricesRef s1 = Some (prices st)) by exact Hp.
  assert (Hq1 : prices st !! symbol p0 = Some q) by exact Hq.
  rewrite (handleClosePosition_eq now' p0 None ManualClose s1 _ q Hp1 Hq1).
  cbn [reported tradeHistory].
  assert (E : realizedPnl p0 (exit_price None p0 q) =
              mul (mul (sub (bid q) (ask q)) (formLots st))
                  (contractSize (selectedSymbol st))).
  { unfold realizedPnl, exit_price, market_price, p0. cbn [type entryPrice lots symbol].
    destruct t; reflexivity. }
  rewrite E. repeat split.
  apply mul_no_gain; [apply mul_no_gain|]; trivial.
  - now apply sub_no_gain.
  - apply contractSize_pos.
Qed.

(** The margin the panel shows is enough.  The panel values an order at
    the ask; with a quote that is not crossed, a volume that is not
    negative and a positive leverage, an order of either side is accepted
    whenever the margin shown does not exceed the free margin shown. *)
Theorem panel_margin_suffices (uuid now : string) (t : Side) (st : State)
    (q : Quote) (b a l v : Q) :
  prices st !! selectedSymbol st = Some q ->
  bid q = Fin b -> ask q = Fin a -> b <= a ->
  formLots st = Fin l -> 0 <= l ->
  formLeverage st = Fin v -> 0 < v ->
  leb (marginRequired (figures st)) (f_freeMargin (figures st)) = true ->
  f_freeMargin (figures st) = freeMargin st /\
  exists p,
    positions (handleMarketOrder parseFloat uuid now t st) =
    positions st ++ [p].
Proof.
  intros Hq Hb Ha Hba Hl Hl0 Hv Hv0 H. split; [reflexivity|].
  apply leb_le in H. unfold figures in H. rewrite Hq in H.
  cbn [marginRequired f_freeMargin] in H.
  unfold handleMarketOrder. rewrite Hq.
  set (price := match t with BUY => ask q | SELL => bid q end).
  assert (Hprice : le price (ask q)).
  { unfold price. destruct t; rewrite ?Hb, Ha; cbn [le]; lra. }
  assert (Hc : exists c, contractSize (selectedSymbol st) = Fin c /\ 0 < c).
  { rewrite contractSize_cases.
    destruct (includes "BTC" (selectedSymbol st)
              || includes "ETH" (selectedSymbol st));
      eexists; (split; [reflexivity|lra]). }
  destruct Hc as (c & Ec & Hc). rewrite Ec, Hl, Hv in *.
  assert (M : le (mul price (Fin l)) (mul (ask q) (Fin l))).
  { destruct price as [|[|]|x] eqn:Ex; rewrite Ha in Hprice |- *;
      cbn [le] in Hprice; try contradiction.
    - cbn [mul]. destruct (is_zero l) eqn:Z.
      + exfalso. clear - Ex Hb Ha. unfold price in Ex.
        destruct t; congruence.
      + exfalso. clear - Ex Hb Ha. unfold price in Ex.
        destruct t; congruence.
    - cbn [mul]. apply rnd64_mono. nra. }
  assert (G : gtb (div (mul (mul price (Fin l)) (Fin c)) (Fin v))
                  (freeMargin st) = false).
  { apply le_gtb. eapply le_trans; [|exact H].
    apply div_pos_mono; trivial. apply le_or_else_0.
    apply mul_pos_mono; trivial. }
  rewrite G. eexists. reflexivity.
Qed.

End Handlers.

(** *** The feed *)

Lemma nonneg_mul (x y : number) :
  le (Fin 0) x -> le (Fin 0) y ->
  mul x y = NaN \/ le (Fin 0) (mul x y).
Proof.
  intros Hx Hy.
  destruct (le_0_Fin x Hx) as [->|(a & -> & Ha)],
           (le_0_Fin y Hy) as [->|(b & -> & Hb)]; cbn [mul].
  - right. exact I.
  - destruct (is_zero b) eqn:Z; [now left|right].
    rewrite (is_neg_pos b (is_zero_false_pos b Hb Z)). exact I.
  - destruct (is_zero a) eqn:Z; [now left|right].
    rewrite (is_neg_pos a (is_zero_false_pos a Ha Z)). exact I.
  - right. apply rnd64_nonneg. nra.
Qed.

Lemma nonneg_half (x : number) :
  le (Fin 0) x -> le (Fin 0) (div x (Fin 2)).
Proof.
  intros Hx. destruct (le_0_Fin x Hx) as [->|(a & -> & Ha)]; [exact I|].
  change (div (Fin a) (Fin 2)) with (rnd64 (a / 2)).
  apply rnd64_nonneg. apply Qle_shift_div_l; lra.
Qed.

(** Half a spread below the mid is not above half a spread above it. *)
Lemma around_mid (m h : number) :
  h = NaN \/ le (Fin 0) h ->
  not_crossed (mkQuote (sub m h) (add m h)).
Proof.
  unfold not_crossed. cbn [bid ask]. intros [->|Hh] B A.
  - destruct m; discriminate.
  - destruct (le_0_Fin h Hh) as [->|(x & -> & Hx)];
      destruct m as [|[|]|q]; try discriminate; try exact I.
    unfold sub. cbn [neg add]. apply rnd64_mono. lra.
Qed.

Lemma half_spread (s p : number) :
  le (Fin 0) s -> le (Fin 0) p ->
  div (mul s p) (Fin 2) = NaN \/ le (Fin 0) (div (mul s p) (Fin 2)).
Proof.
  intros Hs Hp. destruct (nonneg_mul s p Hs Hp) as [->|H]; [now left|].
  right. now apply nonneg_half.
Qed.

Lemma or_else_nonneg (x d : number) :
  le (Fin 0) d -> (truthy x = true -> le (Fin 0) x) ->
  le (Fin 0) (or_else x d).
Proof.
  unfold or_else. destruct (truthy x); auto.
Qed.

Lemma initialEntry_sound (symbol : Symbol) :
  le (Fin 0) (spread symbol) -> le (Fin 0) (pips symbol) ->
  sound (initialEntry symbol).
Proof.
  intros Hs Hp. unfold sound, initialEntry. cbn [e_spread e_pips quote].
  repeat split; trivial. apply around_mid. now apply half_spread.
Qed.

Lemma tickEntry_sound (symbolInfo : Symbol) (oldPrice : option Entry)
    (random : number) :
  le (Fin 0) (spread symbolInfo) -> le (Fin 0) (pips symbolInfo) ->
  (forall e, oldPrice = Some e -> sound e) ->
  sound (tickEntry symbolInfo oldPrice random).
Proof.
  intros Hs Hp Ho. unfold sound, tickEntry. cbn [e_spread e_pips quote].
  repeat split; trivial. apply around_mid. apply half_spread.
  - apply or_else_nonneg; trivial. intros _.
    destruct oldPrice as [e|]; trivial. now destruct (Ho e eq_refl).
  - apply or_else_nonneg; trivial. intros _.
    destruct oldPrice as [e|]; trivial. now destruct (Ho e eq_refl) as (_ & ? & _).
Qed.

Lemma catalog_sound :
  Forall (fun s => le (Fin 0) (spread s) /\ le (Fin 0) (pips s)) ALL_SYMBOLS.
Proof.
  unfold ALL_SYMBOLS.
  repeat (apply List.Forall_cons;
          [split; refine (le_of_leb _ _ _); vm_compute; reflexivity|]).
  exact (List.Forall_nil _).
Qed.

Lemma findSymbol_catalog (symbolName : string) (s : Symbol) :
  findSymbol symbolName = Some s ->
  name s = symbolName /\ le (Fin 0) (spread s) /\ le (Fin 0) (pips s).
Proof.
  unfold findSymbol. intros H. apply find_some in H. destruct H as [Hin E].
  apply String.eqb_eq in E. split; trivial.
  pose proof catalog_sound as C. rewrite List.Forall_forall in C.
  now apply C.
Qed.

Lemma get_Forall (P : Entry -> Prop) (k : string) (o : list (string * Entry))
    (e : Entry) :
  Forall (fun kv => P (snd kv)) o -> get k o = Some e -> P e.
Proof.
  induction o as [|[k' v] o IH]; intros HF H; [discriminate|].
  apply Forall_cons in HF. destruct HF as [Hv HF]. cbn [get] in H.
  destruct (String.eqb k' k); [injection H as <-; exact Hv|now apply IH].
Qed.

Lemma set_Forall (P : Entry -> Prop) (k : string) (v : Entry)
    (o : list (string * Entry)) :
  P v -> Forall (fun kv => P (snd kv)) o ->
  Forall (fun kv => P (snd kv)) (set k v o).
Proof.
  intros Hv. induction o as [|[k' v'] o IH]; intros HF; cbn [set].
  - repeat constructor. exact Hv.
  - apply Forall_cons in HF. destruct HF as [H1 HF].
    destruct (String.eqb k' k); constructor; auto.
Qed.

Lemma keys_cons (k : string) (v : Entry) (o : list (string * Entry)) :
  keys ((k, v) :: o) = k :: keys o.
Proof. reflexivity. Qed.

Lemma keys_set_in (k : string) (v : Entry) (o : list (string * Entry)) :
  k ∈ keys o -> keys (set k v o) = keys o.
Proof.
  induction o as [|[k' v'] o IH]; intros H; [inversion H|].
  cbn [set]. destruct (String.eqb_spec k' k) as [->|N]; [reflexivity|].
  rewrite !keys_cons in *. f_equal. apply IH.
  apply elem_of_cons in H. destruct H as [E|H]; [congruence|exact H].
Qed.

Lemma keys_set (k : string) (v : Entry) (o : list (string * Entry)) :
  keys (set k v o) = keys o \/ keys (set k v o) = keys o ++ [k].
Proof.
  induction o as [|[k' v'] o IH]; cbn [set]; [now right|].
  destruct (String.eqb_spec k' k) as [->|N]; [now left|].
  rewrite !keys_cons. destruct IH as [->| ->]; auto.
Qed.

Lemma get_set_other (k k' : string) (v : Entry) (o : list (string * Entry)) :
  k <> k' -> get k' (set k v o) = get k' o.
Proof.
  intros N. induction o as [|[k0 v0] o IH]; cbn [set get].
  - destruct (String.eqb_spec k k'); congruence.
  - destruct (String.eqb_spec k0 k) as [->|N0]; cbn [get].
    + destruct (String.eqb_spec k k'); congruence.
    + now rewrite IH.
Qed.

Lemma get_set_same (k : string) (v : Entry) (o : list (string * Entry)) :
  get k (set k v o) = Some v.
Proof.
  induction o as [|[k0 v0] o IH]; cbn [set get].
  - now rewrite String.eqb_refl.
  - destruct (String.eqb_spec k0 k) as [->|N0]; cbn [get].
    + now rewrite String.eqb_refl.
    + destruct (String.eqb_spec k0 k); [congruence|exact IH].
Qed.

(** What the loop of a tick leaves: sound entries, under keys of the
    state it reads, and one call per new entry. *)
Lemma tickSymbols_spec (prices : list (string * Entry)) (random : nat -> number)
    (symbolsToUpdate : list string) :
  Forall (fun kv => sound (snd kv)) prices ->
  forall (k : nat) (newPrices : list (string * Entry)) (calls : list Call),
    Forall (fun kv => sound (snd kv)) newPrices ->
    (forall x, x ∈ keys newPrices -> x ∈ keys prices) ->
    (forall x, x ∈ symbolsToUpdate -> x ∈ keys prices) ->
    Forall (fun c => exists e, get (c_symbol c) newPrices = Some e /\
                               c_bid c = bid (quote e) /\
                               c_ask c = ask (quote e)) calls ->
    NoDup (map c_symbol calls ++ symbolsToUpdate) ->
    let '(newPrices', calls') :=
      tickSymbols prices random symbolsToUpdate k newPrices calls in
    Forall (fun kv => sound (snd kv)) newPrices' /\
    (forall x, x ∈ keys newPrices' -> x ∈ keys prices) /\
    Forall (fun c => exists e, get (c_symbol c) newPrices' = Some e /\
                               c_bid c = bid (quote e) /\
                               c_ask c = ask (quote e)) calls'.
Proof.
  intros HP. induction symbolsToUpdate as [|x rest IH];
    intros k newPrices calls HN HK HS HC HD; cbn [tickSymbols].
  - auto.
  - assert (HD' : NoDup (map c_symbol calls ++ rest)).
    { apply NoDup_app in HD. destruct HD as (D1 & D2 & D3).
      apply NoDup_cons in D3. apply NoDup_app. repeat split; try tauto.
      intros y Hy C. apply (D2 y Hy). now right. }
    destruct (findSymbol x) as [s|] eqn:F.
    + destruct (findSymbol_catalog x s F) as (_ & Hs & Hp).
      apply IH.
      * apply set_Forall; trivial. apply tickEntry_sound; trivial.
        intros e He. exact (get_Forall sound _ _ _ HP He).
      * intros y Hy. destruct (keys_set x
          (tickEntry s (get x prices) (random k)) newPrices) as [E|E];
          rewrite E in Hy.
        -- now apply HK.
        -- apply elem_of_app in Hy. destruct Hy as [Hy|Hy]; [now apply HK|].
           apply list_elem_of_singleton in Hy. subst y. apply HS. left.
      * intros y Hy. apply HS. now right.
      * apply Forall_app. split.
        -- rewrite Forall_forall in HC |- *. intros c Hc.
           destruct (HC c Hc) as (e & He & Hb & Ha).
           exists e. split; [|now split].
           rewrite get_set_other; trivial. intros ->.
           apply NoDup_app in HD. destruct HD as (_ & D2 & _).
           apply (D2 (c_symbol c)); [|left].
           apply list_elem_of_fmap. eauto.
        -- repeat constructor. eexists. cbn [c_symbol c_bid c_ask].
           split; [apply get_set_same|split; reflexivity].
      * rewrite map_app. cbn [map c_symbol]. rewrite <- app_assoc. exact HD.
    + apply IH; trivial. intros y Hy. apply HS. now right.
Qed.

Lemma spread_objects_sound (b : list (string * Entry)) :
  forall a : list (string * Entry),
    Forall (fun kv => sound (snd kv)) a ->
    Forall (fun kv => sound (snd kv)) b ->
    Forall (fun kv => sound (snd kv)) (spread_objects a b).
Proof.
  unfold spread_objects.
  induction b as [|[k v] b IH]; intros a Ha Hb; cbn [fold_left]; trivial.
  apply Forall_cons in Hb. destruct Hb as [Hv Hb].
  apply IH; trivial. now apply set_Forall.
Qed.

Lemma spread_objects_keys (b : list (string * Entry)) :
  forall a : list (string * Entry),
    (forall x, x ∈ keys b -> x ∈ keys a) ->
    keys (spread_objects a b) = keys a.
Proof.
  unfold spread_objects.
  induction b as [|[k v] b IH]; intros a H; cbn [fold_left]; trivial.
  assert (E : keys (set k v a) = keys a).
  { apply keys_set_in, H. left. }
  cbn [fst snd]. rewrite IH, E; trivial.
  intros x Hx. rewrite E. apply H. now right.
Qed.

Lemma initialPrices_sound (symbols : list Symbol) :
  Forall (fun s => le (Fin 0) (spread s) /\ le (Fin 0) (pips s)) symbols ->
  Forall (fun kv => sound (snd kv)) (initialPrices symbols).
Proof.
  unfold initialPrices. intros H.
  assert (G : forall o : list (string * Entry),
            Forall (fun kv => sound (snd kv)) o ->
            Forall (fun kv => sound (snd kv))
              (fold_left (fun o symbol => set (name symbol) (initialEntry symbol) o)
                 symbols o)).
  { induction symbols as [|s symbols IH]; intros o Ho; cbn [fold_left]; trivial.
    apply Forall_cons in H. destruct H as [[Hs Hp] H].
    apply IH; trivial. apply set_Forall; trivial.
    now apply initialEntry_sound. }
  apply G. constructor.
Qed.

Lemma keys_NoDup_set (k : string) (v : Entry) (o : list (string * Entry)) :
  NoDup (keys o) -> NoDup (keys (set k v o)).
Proof.
  induction o as [|[k' v'] o IH]; intros H; cbn [set].
  - cbn. apply NoDup_singleton.
  - destruct (String.eqb_spec k' k) as [->|N]; [exact H|].
    rewrite !keys_cons in *. apply NoDup_cons in H. destruct H as [H1 H2].
    apply NoDup_cons. split; [|now apply IH].
    destruct (keys_set k v o) as [E|E]; rewrite E; trivial.
    intros C. apply elem_of_app in C. destruct C as [C|C]; [tauto|].
    apply list_elem_of_singleton in C. congruence.
Qed.

(** The feed never shows a crossed quote.  The state the feed starts
    with has, for every instrument, a bid that is not above the ask; and
    a tick keeps it so, whatever [Math.random] returns: from a state
    whose quotes are not crossed it leaves a state with the same
    instruments in the same order, whose quotes are not crossed, and
    every call of [onPriceTick] carries the bid and the ask of an entry
    the tick has computed. *)
Theorem feed_quotes_not_crossed :
  Forall (fun kv => sound (snd kv)) (initialPrices ALL_SYMBOLS) /\
  forall (prices prevPrices : list (string * Entry)) (random : nat -> number),
    NoDup (keys prices) ->
    keys prevPrices = keys prices ->
    Forall (fun kv => sound (snd kv)) prices ->
    Forall (fun kv => sound (snd kv)) prevPrices ->
    let '(newState, calls) := tick prices prevPrices random in
    keys newState = keys prevPrices /\
    Forall (fun kv => sound (snd kv)) newState /\
    Forall (fun kv => not_crossed (quote (snd kv))) newState /\
    Forall (fun c => isNaN (c_bid c) = false -> isNaN (c_ask c) = false ->
                     le (c_bid c) (c_ask c)) calls.
Proof.
  split; [apply initialPrices_sound, catalog_sound|].
  intros prices prevPrices random HD HK HP HV. unfold tick.
  assert (T := tickSymbols_spec prices random (keys prices) HP 0%nat [] []
                 (List.Forall_nil _)
                 (fun x (Hx : x ∈ keys []) => False_ind _ (not_elem_of_nil x Hx))
                 (fun x Hx => Hx) (List.Forall_nil _) HD).
  destruct (tickSymbols prices random (keys prices) 0 [] [])
    as [newPrices calls].
  destruct T as (T1 & T2 & T3).
  assert (S : Forall (fun kv => sound (snd kv))
                (spread_objects prevPrices newPrices))
    by now apply spread_objects_sound.
  refine (conj _ (conj S (conj _ _))).
  - apply spread_objects_keys. intros x Hx. rewrite HK. now apply T2.
  - eapply Forall_impl; [exact S|]. intros kv H. apply H.
  - eapply Forall_impl; [exact T3|]. intros c (e & He & -> & ->).
    pose proof (get_Forall sound _ _ _ T1 He) as (_ & _ & Hc). exact Hc.
Qed.

End DeskFacts.

Module LibraryFacts.
Import JSNumber JSNumberFacts JSLibrary.

(** A decimal digit. *)
Definition is_digit (c : ascii) : Prop :=
  exists d : Z, (0 <= d < 10)%Z /\ c = digit_char d.

(** The value of a digit. *)
Definition digit_of (c : ascii) : Z := (Z.of_nat (nat_of_ascii c) - 48)%Z.

(** The value of a string of digits that continues the value [acc]. *)
Definition digits_val (ds : list ascii) (acc : Z) : Z :=
  fold_left (fun a c => (a * 10 + digit_of c)%Z) ds acc.

(** [x] rounded to hundredths, halves upwards: the amount [toFixed(2)]
    writes. *)
Definition cents (q : Q) : Z := Qfloor (q * 100 + (1 # 2)).

(** *** Digits *)

(** An integer part, a point and two fraction digits, as [toFixed(2)]
    writes them. *)
Definition fixed2 (a : ascii) (A : list ascii) (b1 b2 : ascii) : list ascii :=
  a :: A ++ ["."%char; b1; b2].

Ltac each_digit d H :=
  assert (d = 0 \/ d = 1 \/ d = 2 \/ d = 3 \/ d = 4 \/ d = 5 \/ d = 6 \/
          d = 7 \/ d = 8 \/ d = 9)%Z as H by lia;
  repeat destruct H as [H|H]; subst d.

Lemma digit_char_val (d : Z) : (0 <= d < 10)%Z -> digit_of (digit_char d) = d.
Proof. intros H. each_digit d H'; reflexivity. Qed.

Lemma is_digit_val (c : ascii) :
  is_digit c -> digit_val 10 c = Some (digit_of c).
Proof. intros (d & H & ->). each_digit d H'; reflexivity. Qed.

Lemma is_digit_not_ws (c : ascii) : is_digit c -> is_ws c = false.
Proof. intros (d & H & ->). each_digit d H'; reflexivity. Qed.

Lemma is_digit_not_sign (c : ascii) :
  is_digit c -> Ascii.eqb c "-" = false /\ Ascii.eqb c "+" = false.
Proof. intros (d & H & ->). each_digit d H'; split; reflexivity. Qed.

Lemma is_digit_not_letter (c : ascii) :
  is_digit c ->
  (Ascii.eqb c "x" || Ascii.eqb c "X" = false)%bool /\
  (Ascii.eqb c "o" || Ascii.eqb c "O" = false)%bool /\
  (Ascii.eqb c "b" || Ascii.eqb c "B" = false)%bool /\
  Ascii.eqb c "I" = false /\ Ascii.eqb c "." = false.
Proof. intros (d & H & ->). each_digit d H'; repeat split; reflexivity. Qed.

Lemma digits_val_app (a b : list ascii) (acc : Z) :
  digits_val (a ++ b) acc = digits_val b (digits_val a acc).
Proof. apply fold_left_app. Qed.

Lemma digits_val_zeros (k : nat) : digits_val (repeat "0"%char k) 0%Z = 0%Z.
Proof. induction k as [|k IH]; trivial. Qed.

(** What [digits_of] puts in front of [acc]: digits, whose value is
    [n]. *)
Lemma digits_of_spec (fuel : nat) : forall (n : Z) (acc : list ascii),
  (0 <= n < 2 ^ Z.of_nat fuel)%Z ->
  exists ds,
    digits_of fuel n acc = ds ++ acc /\ Forall is_digit ds /\
    (fuel <> O -> ds <> []) /\
    forall a, digits_val ds a = (a * 10 ^ Z.of_nat (length ds) + n)%Z.
Proof.
  induction fuel as [|fuel IH]; intros n acc H.
  - exists []. repeat split; [constructor|congruence|]. intros a. cbn.
    change (2 ^ 0)%Z with 1%Z in H. lia.
  - cbn [digits_of]. destruct (Z.ltb_spec n 10) as [L|L].
    + exists [digit_char (n mod 10)]. repeat split; [|discriminate|].
      * repeat constructor. exists (n mod 10)%Z. split; trivial.
        apply Z.mod_pos_bound. lia.
      * intros a. cbn. rewrite digit_char_val by (apply Z.mod_pos_bound; lia).
        rewrite Z.mod_small by lia. lia.
    + destruct (IH (n / 10)%Z (digit_char (n mod 10) :: acc))
        as (ds & E & F & _ & V).
      { split; [apply Z.div_pos; lia|].
        rewrite Nat2Z.inj_succ, Z.pow_succ_r in H by lia.
        apply Z.div_lt_upper_bound; lia. }
      exists (ds ++ [digit_char (n mod 10)]). repeat split.
      * rewrite E, <- app_assoc. reflexivity.
      * apply Forall_app. split; trivial. repeat constructor.
        exists (n mod 10)%Z. split; trivial. apply Z.mod_pos_bound. lia.
      * intros _ C. apply app_eq_nil in C. destruct C. discriminate.
      * intros a. rewrite digits_val_app, V. cbn.
        rewrite digit_char_val by (apply Z.mod_pos_bound; lia).
        rewrite length_app, Nat2Z.inj_add. cbn [length].
        rewrite Z.pow_add_r by lia. change (10 ^ Z.of_nat 1)%Z with 10%Z.
        pose proof (Z.div_mod n 10). lia.
Qed.

Lemma decimal_spec (n : Z) : (0 <= n)%Z ->
  Forall is_digit (decimal n) /\ decimal n <> [] /\
  digits_val (decimal n) 0%Z = n.
Proof.
  intros H. unfold decimal.
  destruct (digits_of_spec (S (Z.to_nat (Z.log2 n))) n []) as (ds & E & F & N & V).
  { split; trivial. rewrite Nat2Z.inj_succ, Z2Nat.id by apply Z.log2_nonneg.
    destruct (Z.eq_dec n 0%Z) as [->|N]; [reflexivity|].
    apply Z.log2_spec. lia. }
  rewrite app_nil_r in E. rewrite E.
  split; [exact F|split; [apply N; discriminate|rewrite V; lia]].
Qed.

(** *** Reading digits back *)

Lemma span_digits_digits (ds : list ascii) :
  Forall is_digit ds ->
  forall (acc : Z) (len : nat) (rest : list ascii),
    span_digits 10 acc len (ds ++ rest) =
    span_digits 10 (digits_val ds acc) (len + length ds) rest.
Proof.
  induction 1 as [|c ds Hc _ IH]; intros acc len rest.
  - cbn. now rewrite Nat.add_0_r.
  - cbn [app span_digits]. rewrite (is_digit_val c Hc), IH.
    cbn [length digits_val fold_left]. f_equal. lia.
Qed.

Lemma span_digits_point (acc : Z) (len : nat) (rest : list ascii) :
  span_digits 10 acc len ("."%char :: rest) = (acc, len, "."%char :: rest).
Proof. reflexivity. Qed.

Lemma drop_ws_digit (c : ascii) (cs : list ascii) :
  is_digit c -> drop_ws (c :: cs) = c :: cs.
Proof. intros H. cbn [drop_ws]. now rewrite (is_digit_not_ws c H). Qed.

Lemma trim_fixed2 (a : ascii) (A : list ascii) (b1 b2 : ascii) :
  is_digit a -> is_digit b2 -> trim (fixed2 a A b1 b2) = fixed2 a A b1 b2.
Proof.
  intros Ha Hb. unfold trim, fixed2. rewrite (drop_ws_digit a _ Ha).
  replace (rev (a :: A ++ ["."%char; b1; b2]))
    with (b2 :: b1 :: "."%char :: rev A ++ [a]).
  - rewrite (drop_ws_digit b2 _ Hb). cbn [rev].
    rewrite rev_app_distr, rev_involutive. cbn [rev app].
    rewrite <- !app_assoc. reflexivity.
  - cbn [rev]. rewrite rev_app_distr. reflexivity.
Qed.

Lemma parse_fixed2 (a : ascii) (A : list ascii) (b1 b2 : ascii) :
  is_digit a -> Forall is_digit A -> is_digit b1 -> is_digit b2 ->
  parse_unsigned_decimal (fixed2 a A b1 b2) =
  Some (inject_Z (digits_val (a :: A ++ [b1; b2]) 0) * pow10 (-2)).
Proof.
  intros Ha HA H1 H2. unfold parse_unsigned_decimal, fixed2.
  change (a :: A ++ ["."%char; b1; b2])
    with ((a :: A) ++ "."%char :: [b1; b2]).
  rewrite span_digits_digits by (constructor; trivial).
  rewrite span_digits_point.
  change (Ascii.eqb "." ".") with true. cbv iota.
  change [b1; b2] with ([b1; b2] ++ []).
  rewrite span_digits_digits by (repeat constructor; trivial).
  cbn [span_digits length Nat.add parse_exponent].
  change (a :: A ++ [b1; b2] ++ []) with ((a :: A) ++ [b1; b2]).
  rewrite digits_val_app. reflexivity.
Qed.

Lemma parse_decimal_fixed2 (a : ascii) (A : list ascii) (b1 b2 : ascii) :
  is_digit a -> Forall is_digit A -> is_digit b1 -> is_digit b2 ->
  parse_decimal (fixed2 a A b1 b2) =
  rnd64 (inject_Z (digits_val (a :: A ++ [b1; b2]) 0) * pow10 (-2)).
Proof.
  intros Ha HA H1 H2.
  destruct (is_digit_not_sign a Ha) as [S1 S2].
  destruct (is_digit_not_letter a Ha) as (_ & _ & _ & I & _).
  pose proof (parse_fixed2 a A b1 b2 Ha HA H1 H2) as P.
  unfold parse_decimal, fixed2 in *. rewrite S1, S2, P.
  unfold list_ascii_eqb, Infinity_lit.
  cbn [string_of_list_ascii list_ascii_of_string String.eqb]. rewrite I.
  reflexivity.
Qed.

Lemma StringToNumber_fixed2 (a : ascii) (A : list ascii) (b1 b2 : ascii) :
  is_digit a -> Forall is_digit A -> is_digit b1 -> is_digit b2 ->
  StringToNumber (string_of_list_ascii (fixed2 a A b1 b2)) =
  rnd64 (inject_Z (digits_val (a :: A ++ [b1; b2]) 0) * pow10 (-2)).
Proof.
  intros Ha HA H1 H2. unfold StringToNumber.
  rewrite list_ascii_of_string_of_list_ascii, trim_fixed2 by trivial.
  rewrite <- (parse_decimal_fixed2 a A b1 b2 Ha HA H1 H2).
  unfold fixed2. destruct A as [|a2 A]; cbn [app].
  - change (Ascii.eqb "." "x" || Ascii.eqb "." "X")%bool with false.
    change (Ascii.eqb "." "o" || Ascii.eqb "." "O")%bool with false.
    change (Ascii.eqb "." "b" || Ascii.eqb "." "B")%bool with false.
    destruct (Ascii.eqb a "0"); reflexivity.
  - apply Forall_cons in HA. destruct HA as [Ha2 _].
    destruct (is_digit_not_letter a2 Ha2) as (X & O & B & _).
    rewrite X, O, B. destruct (Ascii.eqb a "0"); reflexivity.
Qed.

(** The digits [toFixed(2)] writes for [n] hundredths. *)
Lemma pad_decimal (n : Z) : (0 <= n)%Z ->
  let m := pad_zeros 3 (decimal n) in
  let k := length m in
  exists a A b1 b2,
    firstn (k - 2) m ++ "."%char :: skipn (k - 2) m = fixed2 a A b1 b2 /\
    is_digit a /\ Forall is_digit A /\ is_digit b1 /\ is_digit b2 /\
    digits_val (a :: A ++ [b1; b2]) 0 = n.
Proof.
  intros H m k. destruct (decimal_spec n H) as (F & N & V).
  assert (Fm : Forall is_digit m).
  { apply Forall_app. split; trivial.
    apply Forall_forall. intros c Hc. apply list_elem_of_In, repeat_spec in Hc.
    subst c. exists 0%Z. split; [lia|reflexivity]. }
  assert (Vm : digits_val m 0 = n).
  { unfold m, pad_zeros. now rewrite digits_val_app, digits_val_zeros. }
  assert (Lm : (3 <= k)%nat).
  { unfold k, m, pad_zeros. rewrite length_app, repeat_length. lia. }
  clearbody m. clear F N V.
  pose proof (firstn_skipn (k - 2) m) as S.
  pose proof (length_firstn (k - 2) m) as L1.
  pose proof (length_skipn (k - 2) m) as L2.
  fold k in L1, L2.
  destruct (firstn (k - 2) m) as [|a A] eqn:E1; [cbn in L1; lia|].
  destruct (skipn (k - 2) m) as [|b1 [|b2 [|b3 B]]] eqn:E2;
    cbn [length] in L2; try lia.
  exists a, A, b1, b2. rewrite <- S in Fm, Vm.
  apply Forall_app in Fm. destruct Fm as [FA FB].
  apply Forall_cons in FA. destruct FA as [Fa FA].
  apply Forall_cons in FB. destruct FB as [F1 FB].
  apply Forall_cons in FB. destruct FB as [F2 _].
  repeat split; trivial.
Qed.

Lemma Qabs_nonneg_eq (q : Q) : 0 <= q -> Qabs q = q.
Proof.
  destruct q as [n d]. unfold Qle. cbn. intros H.
  rewrite Z.abs_eq by lia. reflexivity.
Qed.

Lemma is_neg_nonneg (q : Q) : 0 <= q -> is_neg q = false.
Proof.
  unfold is_neg. intros H. destruct (Qcompare_spec q 0); trivial. lra.
Qed.

Lemma cents_nonneg (q : Q) : 0 <= q -> (0 <= cents q)%Z.
Proof.
  intros H. unfold cents. change 0%Z with (Qfloor 0).
  apply Qfloor_resp_le. lra.
Qed.

Lemma Qred_zero (y : Q) : Qred y == 0 -> Qred y = 0.
Proof.
  intros T. rewrite <- (Qred_complete _ _ (Qred_correct y)).
  now rewrite (Qred_complete _ _ T).
Qed.

(** A rounded value that is zero is the number 0 itself. *)
Lemma or_else_rnd64 (x : Q) : or_else (rnd64 x) (Fin 0) = rnd64 x.
Proof.
  unfold or_else. destruct (truthy (rnd64 x)) eqn:T; trivial.
  unfold rnd64 in *. destruct (Qcompare_spec x 0) as [E|L|G]; trivial.
  - unfold rnd_abs in *.
    destruct (Qle_bool _ _); cbn [truthy] in T; [discriminate|].
    apply negb_false_iff in T. unfold is_zero in T. apply Qeq_bool_eq in T.
    f_equal. rewrite Qred_zero; [reflexivity|]. lra.
  - unfold rnd_abs in *.
    destruct (Qle_bool _ _); cbn [truthy] in T; [discriminate|].
    apply negb_false_iff in T. unfold is_zero in T. apply Qeq_bool_eq in T.
    f_equal. symmetry. now apply Qred_zero.
Qed.

Section ToFixed.
Variable NumberToString : number -> string.

(** What [toFixed(2)] writes for a value that is not negative and below
    [10^21]: the digits of its hundredths, at least three, with a point
    before the last two. *)
Lemma toFixed2_fixed2 (q : Q) :
  0 <= q -> q < 10 ^ 21 ->
  exists a A b1 b2,
    toFixed2 NumberToString (Fin q) =
      string_of_list_ascii (fixed2 a A b1 b2) /\
    is_digit a /\ Forall is_digit A /\ is_digit b1 /\ is_digit b2 /\
    digits_val (a :: A ++ [b1; b2]) 0 = cents q.
Proof.
  intros H0 H1. unfold toFixed2.
  rewrite (is_neg_nonneg q H0), (Qabs_nonneg_eq q H0).
  destruct (Qle_bool (10 ^ 21) q) eqn:B.
  { apply Qle_bool_iff in B. lra. }
  fold (cents q). cbn [app].
  destruct (pad_decimal (cents q) (cents_nonneg q H0))
    as (a & A & b1 & b2 & E & H).
  cbv zeta in E. rewrite E. now exists a, A, b1, b2.
Qed.

Lemma StringToNumber_toFixed2 (q : Q) :
  0 <= q -> q < 10 ^ 21 ->
  StringToNumber (toFixed2 NumberToString (Fin q)) =
  rnd64 (inject_Z (cents q) / 100).
Proof.
  intros H0 H1.
  destruct (toFixed2_fixed2 q H0 H1)
    as (a & A & b1 & b2 & E & Ha & HA & Hb1 & Hb2 & V).
  rewrite E, (StringToNumber_fixed2 a A b1 b2 Ha HA Hb1 Hb2), V.
  apply rnd64_comp. unfold pow10. reflexivity.
Qed.

(** What [toFixed(2)] writes is not the empty string. *)
Lemma toFixed2_not_empty (q : Q) :
  0 <= q -> q < 10 ^ 21 ->
  String.eqb (toFixed2 NumberToString (Fin q)) "" = false.
Proof.
  intros H0 H1.
  destruct (toFixed2_fixed2 q H0 H1) as (a & A & b1 & b2 & E & _).
  rewrite E. reflexivity.
Qed.

(** Reading back what [toFixed(2)] writes.  For a value that is not
    negative and below [10^21], [x.toFixed(2)] is not the empty string,
    and [Number(x.toFixed(2))] is the binary64 value nearest to [x]
    rounded to hundredths, halves upwards. *)
Theorem toFixed2_round_trip (q : Q) :
  0 <= q -> q < 10 ^ 21 ->
  toFixed2 NumberToString (Fin q) <> ""%string /\
  StringToNumber (toFixed2 NumberToString (Fin q)) =
  rnd64 (inject_Z (cents q) / 100).
Proof.
  intros H0 H1. split.
  - intros E. pose proof (toFixed2_not_empty q H0 H1) as N.
    rewrite E in N. discriminate N.
  - now apply StringToNumber_toFixed2.
Qed.

End ToFixed.

End LibraryFacts.

Module JournalFacts.
Import JSNumber JSNumberFacts Plan PlanFacts JSLibrary LibraryFacts Journal.

(** The position of a day among all days. *)
Definition position (ms : list Month) (monthIndex dayIndex : nat) : nat :=
  length (allDays (take monthIndex ms)) + dayIndex.

(** The day at [monthIndex], [dayIndex], if there is one. *)
Definition day_at (ms : list Month) (monthIndex dayIndex : nat) : option Day :=
  m ← ms !! monthIndex; days m !! dayIndex.

(** The three settings of a document. *)
Definition settings (data : Data) :=
  (initialCapital data, finalTarget data, tenure data).

(** Settings that a JSON copy leaves as they are. *)
Definition plain_settings (data : Data) : Prop :=
  json_setting (initialCapital data) = initialCapital data /\
  json_setting (finalTarget data) = finalTarget data /\
  json_setting (tenure data) = tenure data.

(** The handlers that record an outcome differ in what they assign to
    the day. *)
Definition profit_input (value : string) (d : Day) : Day :=
  let actualProfit := or_else (StringToNumber value) num0 in
  let signedProfit :=
    if String.eqb (pnlSign d) "+" then actualProfit else neg actualProfit in
  set_outcome d (pnlSign d) (JStr value)
    (geb signedProfit (ToNumber (profit d))).

Definition sign_change (sign : string) (d : Day) : Day :=
  let actualProfit := or_else (ToNumber (actual d)) num0 in
  let signedProfit :=
    if String.eqb sign "+" then actualProfit else neg actualProfit in
  set_outcome d sign (actual d) (geb signedProfit (ToNumber (profit d))).

Definition trade_close (NumberToString : number -> string) (pnl : number)
    (d : Day) : Day :=
  let newTotalPnl := add (signedProfit d) pnl in
  set_outcome d (if geb newTotalPnl num0 then "+" else "-")
    (JStr (toFixed2 NumberToString (Math_abs newTotalPnl)))
    (geb newTotalPnl (ToNumber (profit d))).

(** The number of days of each month. *)
Definition shape (ms : list Month) : list nat :=
  map (fun m => length (days m)) ms.

(** The new state differs from the JSON copy of the previous one in
    the journal of one day, which is that of [F] applied to the copy of
    the day. *)
Definition touches (F : Day -> Day) (monthIndex dayIndex : nat)
    (prev data' : Data) : Prop :=
  exists d d',
    day_at (months prev) monthIndex dayIndex = Some d /\
    day_at (months data') monthIndex dayIndex = Some d' /\
    journal_of d' = journal_of (F (json_day d)) /\
    map frame_of (months data') =
    map frame_of (put_day (json_months (months prev)) monthIndex dayIndex
                    (F (json_day d))).

(** The common shape of these handlers. *)
Definition editing (Math_pow : number -> number -> number) (F : Day -> Day)
    (fuel : nat) (monthIndex dayIndex : nat) (prevData : Data)
  : outcome Data :=
  let newData := json_data prevData in
  let* d := get_day (months newData) monthIndex dayIndex in
  match d with
  | None => TypeError
  | Some d => record_outcome Math_pow fuel newData monthIndex dayIndex (F d)
  end.

(** *** Days in months *)

Lemma json_val_actual_json_day (d : Day) :
  json_val (actual (json_day d)) = actual (json_day d).
Proof. cbn. apply json_val_idem. Qed.

Lemma json_day_idem (d : Day) : json_day (json_day d) = json_day d.
Proof. unfold json_day. cbn. now rewrite !json_val_idem. Qed.

Lemma json_months_idem (ms : list Month) :
  json_months (json_months ms) = json_months ms.
Proof.
  unfold json_months. rewrite map_map. apply map_ext. intros m.
  unfold json_month. cbn. f_equal. rewrite map_map. apply map_ext.
  apply json_day_idem.
Qed.

Lemma day_at_json (ms : list Month) (mi di : nat) :
  day_at (json_months ms) mi di = json_day <$> day_at ms mi di.
Proof.
  unfold day_at, json_months.
  change (map json_month ms) with (json_month <$> ms).
  rewrite list_lookup_fmap. destruct (ms !! mi) as [m|]; cbn; trivial.
  change (map json_day (days m)) with (json_day <$> days m).
  now rewrite list_lookup_fmap.
Qed.

Lemma get_day_day_at (ms : list Month) (mi di : nat) (d : Day) :
  day_at ms mi di = Some d -> get_day ms mi di = Done (Some d).
Proof.
  unfold day_at, get_day. destruct (ms !! mi) as [m|]; cbn; [|discriminate].
  now intros ->.
Qed.

Lemma get_day_cases (ms : list Month) (mi di : nat) :
  (exists d, day_at ms mi di = Some d /\ get_day ms mi di = Done (Some d)) \/
  (day_at ms mi di = None /\
   (get_day ms mi di = Done None \/ get_day ms mi di = TypeError)).
Proof.
  unfold day_at, get_day. destruct (ms !! mi) as [m|]; cbn; [|auto].
  destruct (days m !! di) as [d|]; eauto.
Qed.

Lemma put_day_json (ms : list Month) (mi di : nat) (d : Day) :
  json_months (put_day ms mi di d) = put_day (json_months ms) mi di (json_day d).
Proof.
  unfold put_day, json_months.
  change (map json_month ms) with (json_month <$> ms).
  rewrite list_lookup_fmap. destruct (ms !! mi) as [m|]; cbn [fmap option_fmap option_map]; trivial.
  change (map json_month (<[mi:=?x]> ms)) with (json_month <$> <[mi:=x]> ms).
  rewrite list_fmap_insert. f_equal. unfold json_month. cbn. f_equal.
  change (map json_day ?l) with (json_day <$> l).
  now rewrite list_fmap_insert.
Qed.

Lemma day_at_put_day (ms : list Month) (mi di : nat) (d0 d : Day) :
  day_at ms mi di = Some d0 -> day_at (put_day ms mi di d) mi di = Some d.
Proof.
  unfold day_at, put_day. destruct (ms !! mi) as [m|] eqn:E; cbn; [|discriminate].
  intros H. rewrite list_lookup_insert_eq by exact (lookup_lt_Some _ _ _ E).
  cbn. apply list_lookup_insert_eq. exact (lookup_lt_Some _ _ _ H).
Qed.

Lemma frame_day_at (ms ms' : list Month) (mi di : nat) (d' : Day) :
  map frame_of ms' = map frame_of ms ->
  day_at ms' mi di = Some d' ->
  exists d, day_at ms mi di = Some d /\ journal_of d' = journal_of d.
Proof.
  intros H. unfold day_at.
  assert (E : frame_of <$> ms' !! mi = frame_of <$> ms !! mi).
  { rewrite <- !list_lookup_fmap. change (frame_of <$> ?l) with (map frame_of l).
    now rewrite H. }
  destruct (ms' !! mi) as [m'|]; cbn; [|discriminate].
  destruct (ms !! mi) as [m|]; cbn in E; [|discriminate]. cbn.
  injection E as _ _ E. intros Hd.
  assert (E2 : journal_of <$> days m' !! di = journal_of <$> days m !! di).
  { rewrite <- !list_lookup_fmap. change (journal_of <$> ?l) with (map journal_of l).
    now rewrite E. }
  rewrite Hd in E2. destruct (days m !! di) as [d|]; cbn in E2; [|discriminate].
  exists d. split; trivial. congruence.
Qed.

(** *** Positions *)

Lemma shape_frame (ms ms' : list Month) :
  map frame_of ms' = map frame_of ms -> shape ms' = shape ms.
Proof.
  revert ms'. induction ms as [|m ms IH]; intros [|m' ms'] H; try discriminate;
    trivial.
  cbn in H. injection H as _ _ Hd H. cbn. f_equal; [|now apply IH].
  rewrite <- (length_map journal_of (days m')), Hd. apply length_map.
Qed.

Lemma shape_json (ms : list Month) : shape (json_months ms) = shape ms.
Proof.
  unfold shape, json_months. rewrite map_map. apply map_ext. intros m.
  cbn. apply length_map.
Qed.

Lemma shape_put_day (ms : list Month) (mi di : nat) (d : Day) :
  shape (put_day ms mi di d) = shape ms.
Proof.
  unfold put_day, shape. destruct (ms !! mi) as [m|] eqn:E; trivial.
  change (map ?f (<[mi:=?x]> ms)) with (f <$> <[mi:=x]> ms).
  rewrite list_fmap_insert. cbn [days]. rewrite length_insert.
  apply list_insert_id. rewrite list_lookup_fmap, E. reflexivity.
Qed.

Lemma length_allDays (ms : list Month) :
  length (allDays ms) = list_sum (shape ms).
Proof.
  induction ms as [|m ms IH]; trivial.
  change (allDays (m :: ms)) with (days m ++ allDays ms).
  rewrite length_app, IH. reflexivity.
Qed.

Lemma position_shape (ms ms' : list Month) (mi di : nat) :
  shape ms' = shape ms -> position ms' mi di = position ms mi di.
Proof.
  intros H. unfold position. rewrite !length_allDays. f_equal.
  unfold shape in *. change (map ?f (take mi ?l)) with (f <$> take mi l).
  rewrite !fmap_take. change (?f <$> ?l) with (map f l). now rewrite H.
Qed.

Lemma allDays_position (ms : list Month) : forall (mi di : nat) (d : Day),
  day_at ms mi di = Some d -> allDays ms !! position ms mi di = Some d.
Proof.
  unfold day_at, position.
  induction ms as [|m ms IH]; intros mi di d H; [discriminate|].
  destruct mi as [|mi].
  - cbn in H. change (allDays (m :: ms)) with (days m ++ allDays ms).
    apply lookup_app_l_Some. exact H.
  - change (allDays (m :: ms)) with (days m ++ allDays ms).
    change (take (S mi) (m :: ms)) with (m :: take mi ms).
    change (allDays (m :: take mi ms)) with (days m ++ allDays (take mi ms)).
    change ((m :: ms) !! S mi) with (ms !! mi) in H.
    rewrite length_app, <- Nat.add_assoc.
    rewrite lookup_app_r by lia.
    replace (length (days m) + (length (allDays (take mi ms)) + di)
             - length (days m))%nat
      with (length (allDays (take mi ms)) + di)%nat by lia.
    now apply IH.
Qed.

Lemma frame_put_day (ms : list Month) (mi di : nat) (x y : Day) :
  journal_of x = journal_of y ->
  map frame_of (put_day ms mi di x) = map frame_of (put_day ms mi di y).
Proof.
  intros H. unfold put_day. destruct (ms !! mi) as [m|]; trivial.
  change (map frame_of ?l) with (frame_of <$> l).
  rewrite !list_fmap_insert. f_equal. unfold frame_of. cbn [id monthName days].
  f_equal. change (map journal_of ?l) with (journal_of <$> l).
  now rewrite !list_fmap_insert, H.
Qed.

(** *** Hidden symbols *)

Lemma filter_others (x : string) (l : list string) :
  x ∉ l -> filter (fun s => s <> x) l = l.
Proof.
  induction l as [|a l IH]; intros H; trivial.
  apply not_elem_of_cons in H. destruct H as [H1 H2].
  rewrite filter_cons. destruct (decide (a <> x)) as [_|C].
  - now rewrite IH.
  - exfalso. apply C. congruence.
Qed.

Lemma toggle_hidden (symbolName : string)
    (prev : Data) :
  let hidden := default [] (hiddenSymbols prev) in
  let data' := handleSymbolVisibilityChange symbolName prev in
  let data'' := handleSymbolVisibilityChange symbolName data' in
  exists hidden' hidden'',
    hiddenSymbols data' = Some hidden' /\
    hiddenSymbols data'' = Some hidden'' /\
    (symbolName ∈ hidden' <-> symbolName ∉ hidden) /\
    (forall s, s <> symbolName -> s ∈ hidden' <-> s ∈ hidden) /\
    (forall s, s ∈ hidden'' <-> s ∈ hidden) /\
    (symbolName ∉ hidden -> hidden'' = hidden) /\
    months data' = months prev /\ settings data' = settings prev.
Proof.
  intros hidden data' data''. subst data'' data'.
  unfold handleSymbolVisibilityChange.
  cbn [hiddenSymbols months initialCapital finalTarget tenure settings].
  change (match hiddenSymbols prev with Some l => l | None => [] end)
    with hidden.
  clearbody hidden. do 2 eexists. split; [reflexivity|]. split; [reflexivity|].
  destruct (bool_decide_reflect (symbolName ∈ hidden)) as [I|N]; cbv beta iota.
  - rewrite bool_decide_eq_false_2
      by (rewrite list_elem_of_filter; tauto).
    repeat split; trivial.
    + rewrite list_elem_of_filter. tauto.
    + contradiction.
    + rewrite list_elem_of_filter. tauto.
    + rewrite list_elem_of_filter. tauto.
    + rewrite elem_of_app, list_elem_of_filter, list_elem_of_singleton.
      intros [[_ H]| ->]; trivial.
    + rewrite elem_of_app, list_elem_of_filter, list_elem_of_singleton.
      intros H. destruct (decide (s = symbolName)); auto.
    + contradiction.
  - rewrite bool_decide_eq_true_2
      by (rewrite elem_of_app, list_elem_of_singleton; auto).
    assert (F : filter (fun s => s <> symbolName) (hidden ++ [symbolName])
                = hidden).
    { rewrite filter_app, filter_cons, filter_nil.
      destruct (decide (symbolName <> symbolName)) as [C|_]; [congruence|].
      rewrite app_nil_r. now apply filter_others. }
    rewrite F. repeat split; trivial.
    + rewrite elem_of_app, list_elem_of_singleton. auto.
    + rewrite elem_of_app, list_elem_of_singleton. intros [X|X]; trivial.
      contradiction.
    + rewrite elem_of_app. auto.
Qed.

(** The switch of a symbol's visibility.  [handleSymbolVisibilityChange]
    hides a symbol that was shown and shows one that was hidden, leaves
    every other symbol as it was, and changes nothing else in the
    document; done twice, it leaves every symbol as it was, and the list
    itself where the symbol was not in it.  So the list of the trader,
    [visibleSymbols], has after one switch the instruments of the catalog
    that were listed, without the switched one if it was listed and with
    it if it was not, and after two switches it is the list it was. *)
Theorem handleSymbolVisibilityChange_toggles (symbolName : string)
    (prev : Data) :
  let hidden := default [] (hiddenSymbols prev) in
  let data' := handleSymbolVisibilityChange symbolName prev in
  let data'' := handleSymbolVisibilityChange symbolName data' in
  exists hidden' hidden'',
    hiddenSymbols data' = Some hidden' /\
    hiddenSymbols data'' = Some hidden'' /\
    (symbolName ∈ hidden' <-> symbolName ∉ hidden) /\
    (forall s, s <> symbolName -> s ∈ hidden' <-> s ∈ hidden) /\
    (forall s, s ∈ hidden'' <-> s ∈ hidden) /\
    (symbolName ∉ hidden -> hidden'' = hidden) /\
    months data' = months prev /\ settings data' = settings prev /\
    (forall s : Trader.Symbol,
       s ∈ Desk.visibleSymbols hidden' <->
       s ∈ Trader.ALL_SYMBOLS /\
       (Trader.name s = symbolName <-> Trader.name s ∈ hidden)) /\
    Desk.visibleSymbols hidden'' = Desk.visibleSymbols hidden.
Proof.
  intros hidden data' data''.
  destruct (toggle_hidden symbolName prev)
    as (h' & h'' & E' & E'' & T1 & T2 & T3 & T4 & EM & ES).
  fold hidden data' data'' in E', E'', T1, T2, T3, T4, EM, ES.
  exists h', h''. repeat (split; [assumption|]). split.
  - intros s. unfold Desk.visibleSymbols. rewrite list_elem_of_filter.
    destruct (decide (Trader.name s = symbolName)) as [E|N].
    + rewrite E.
      destruct (decide (symbolName ∈ hidden)); tauto.
    + specialize (T2 _ N). tauto.
  - unfold Desk.visibleSymbols. apply list_filter_iff. intros s.
    now rewrite T3.
Qed.

(** *** Today *)

Lemma findIndex_spec (ts : string) (ds : list Day) : forall i : nat,
  match findIndex ts ds i with
  | Some j =>
      exists k d, j = (i + k)%nat /\ ds !! k = Some d /\ date d = ts /\
                  Forall (fun d0 => date d0 <> ts) (take k ds)
  | None => Forall (fun d0 => date d0 <> ts) ds
  end.
Proof.
  induction ds as [|d ds IH]; intros i; cbn [findIndex]; [constructor|].
  destruct (String.eqb_spec (date d) ts) as [E|N].
  - exists 0%nat, d. rewrite Nat.add_0_r. repeat split; trivial.
  - specialize (IH (S i)). destruct (findIndex ts ds (S i)) as [j|].
    + destruct IH as (k & d' & -> & Hk & Hd & HF).
      exists (S k), d'. repeat split; trivial; [lia|].
      cbn [take]. now constructor.
    + now constructor.
Qed.

Lemma findToday_spec (ts : string) (ms : list Month) : forall m : nat,
  match findToday ts ms m with
  | Some t =>
      exists mi d,
        currentMonthIndex t = (m + mi)%nat /\
        day_at ms mi (currentDayIndex t) = Some d /\
        todayData t = Some d /\ isTodayFound t = true /\ date d = ts /\
        Forall (fun d0 => date d0 <> ts)
          (take (position ms mi (currentDayIndex t)) (allDays ms))
  | None => Forall (fun d0 => date d0 <> ts) (allDays ms)
  end.
Proof.
  induction ms as [|mo ms IH]; intros m; cbn [findToday]; [constructor|].
  pose proof (findIndex_spec ts (days mo) 0) as F.
  destruct (findIndex ts (days mo) 0) as [j|].
  - destruct F as (k & d & -> & Hk & Hd & HF). cbn [Nat.add] in *.
    exists 0%nat, d. cbn [currentMonthIndex currentDayIndex todayData
      isTodayFound]. rewrite Nat.add_0_r. repeat split; trivial.
    unfold position. cbn [take allDays flat_map length Nat.add].
    change (flat_map days ms) with (allDays ms).
    rewrite take_app_le by (apply lookup_lt_Some in Hk; lia). exact HF.
  - specialize (IH (S m)). destruct (findToday ts ms (S m)) as [t|].
    + destruct IH as (mi & d & E & Hd & Ht & Hf & Hdate & HF).
      exists (S mi), d. repeat split; trivial; [lia|].
      unfold position in *.
      change (take (S mi) (mo :: ms)) with (mo :: take mi ms).
      change (allDays (mo :: ?l)) with (days mo ++ allDays l).
      rewrite length_app, <- Nat.add_assoc, take_app_add'; trivial.
      apply Forall_app. split; trivial.
    + change (allDays (mo :: ms)) with (days mo ++ allDays ms).
      apply Forall_app. split; trivial.
Qed.

(** Today's day is the first day with today's date.  Where the look-up
    reports that today is in the plan, its indices address a day with
    that date, which is the day it returns, and no day before it in the
    plan has that date; where it reports that today is not in the plan,
    no day has that date, and the indices and the day are those of the
    first day of the plan. *)
Theorem today_is_first_match (data : Data) (todayString : string) :
  let t := today data todayString in
  let ms := months data in
  (isTodayFound t = true ->
   exists d,
     day_at ms (currentMonthIndex t) (currentDayIndex t) = Some d /\
     todayData t = Some d /\ date d = todayString /\
     Forall (fun d0 => date d0 <> todayString)
       (take (position ms (currentMonthIndex t) (currentDayIndex t))
          (allDays ms))) /\
  (isTodayFound t = false ->
   Forall (fun d0 => date d0 <> todayString) (allDays ms) /\
   currentMonthIndex t = 0%nat /\ currentDayIndex t = 0%nat /\
   todayData t = day_at ms 0 0).
Proof.
  intros t ms. subst t ms. unfold today.
  pose proof (findToday_spec todayString (months data) 0) as F.
  destruct (findToday todayString (months data) 0) as [t|].
  - destruct F as (mi & d & E & Hd & Ht & Hf & Hdate & HF).
    cbn [Nat.add] in E. rewrite E. split; [|congruence].
    intros _. exists d. repeat split; trivial.
  - cbn [isTodayFound currentMonthIndex currentDayIndex todayData].
    split; [discriminate|]. intros _. repeat split; trivial.
Qed.

(** *** Recording an outcome *)

Section Handlers.
Variable Math_pow : number -> number -> number.
Variable NumberToString : number -> string.

Lemma handleProfitInput_editing (fuel : nat) (mi di : nat) (value : string)
    (prev : Data) :
  handleProfitInput Math_pow fuel mi di value prev =
  editing Math_pow (profit_input value) fuel mi di prev.
Proof. reflexivity. Qed.

Lemma handleSignChange_editing (fuel : nat) (mi di : nat) (sign : string)
    (prev : Data) :
  handleSignChange Math_pow fuel mi di sign prev =
  editing Math_pow (sign_change sign) fuel mi di prev.
Proof. reflexivity. Qed.

Lemma handleTradeClose_editing (fuel : nat) (mi di : nat) (pnl : number)
    (prev : Data) :
  handleTradeClose Math_pow NumberToString fuel true mi di pnl prev =
  editing Math_pow (trade_close NumberToString pnl) fuel mi di prev.
Proof. reflexivity. Qed.

(** Recalculating a recalculated plan changes nothing. *)
Lemma recalculatePlan_again (fuel : nat) (P : Document (list Month))
    (M : list Month) :
  recalculatePlan Math_pow fuel P = Done M ->
  recalculatePlan Math_pow fuel (set_months P M) = Done M.
Proof.
  intros H. destruct (recalculatePlan_inv _ _ _ _ H) as (goals & w' & HL & HW & _).
  unfold recalculatePlan.
  change (validTenure (set_months P M)) with (validTenure P).
  change (validInitialCapital (set_months P M)) with (validInitialCapital P).
  change (initialDailyRate Math_pow (set_months P M))
    with (initialDailyRate Math_pow P).
  rewrite HL. cbn [bind Plan.months set_months].
  rewrite (walkMonths_idem _ _ _ _ HW). reflexivity.
Qed.

Lemma editing_spec (F : Day -> Day) (fuel : nat) (mi di : nat)
    (prev data' : Data) :
  editing Math_pow F fuel mi di prev = Done data' ->
  exists d,
    day_at (months prev) mi di = Some d /\
    settings data' = settings (json_data prev) /\
    hiddenSymbols data' = hiddenSymbols prev /\
    recalculatePlan Math_pow fuel (fullData data') = Done (months data') /\
    map frame_of (months data') =
    map frame_of (put_day (json_months (months prev)) mi di
                    (json_day (F (json_day d)))).
Proof.
  unfold editing. cbn [months json_data].
  destruct (get_day_cases (json_months (months prev)) mi di)
    as [(dj & Hd & ->)|(_ & [->| ->])]; cbn [bind]; try discriminate.
  rewrite day_at_json in Hd.
  destruct (day_at (months prev) mi di) as [d|]; [|discriminate].
  injection Hd as <-. unfold record_outcome. cbn [months with_months].
  match goal with |- context [recalculatePlan Math_pow fuel ?P] =>
    set (P0 := P) end.
  destruct (recalculatePlan Math_pow fuel P0) as [ms| |] eqn:R;
    cbn [bind]; try discriminate.
  intros [= <-]. exists d. repeat split.
  - exact (recalculatePlan_again fuel P0 ms R).
  - cbn [months with_months].
    destruct (recalculatePlan_inv _ _ _ _ R) as (goals & w' & _ & HW & _).
    rewrite (walkMonths_frame _ _ _ _ HW). unfold P0. cbn [Plan.months fullData].
    cbn [months with_months json_data].
    now rewrite put_day_json, json_months_idem.
Qed.

Lemma editing_fails (F : Day -> Day) (fuel : nat) (mi di : nat) (prev : Data) :
  editing Math_pow F fuel mi di prev = TypeError <->
  day_at (months prev) mi di = None.
Proof.
  unfold editing. cbn [months json_data].
  destruct (get_day_cases (json_months (months prev)) mi di)
    as [(dj & Hd & ->)|(Hd & [->| ->])]; cbn [bind];
    rewrite day_at_json in Hd.
  - destruct (day_at (months prev) mi di); [|discriminate].
    split; [|discriminate]. unfold record_outcome.
    match goal with |- context [recalculatePlan Math_pow fuel ?P] =>
      pose proof (recalculatePlan_no_TypeError Math_pow fuel P) as N;
      destruct (recalculatePlan Math_pow fuel P)
    end; cbn [bind]; try discriminate. contradiction.
  - destruct (day_at (months prev) mi di); [discriminate|]. tauto.
  - destruct (day_at (months prev) mi di); [discriminate|]. tauto.
Qed.

Lemma same_settings_same_goals (fuel : nat)
    (P P' : Document (list Month)) (M M' : list Month) :
  Plan.initialCapital P = Plan.initialCapital P' ->
  Plan.finalTarget P = Plan.finalTarget P' ->
  Plan.tenure P = Plan.tenure P' ->
  recalculatePlan Math_pow fuel P = Done M ->
  recalculatePlan Math_pow fuel P' = Done M' ->
  exists planned,
    forall k d, allDays M !! k = Some d \/ allDays M' !! k = Some d ->
      exists g, goal_of planned k = Some g /\
                target d = JNum (g_target g) /\ profit d = JNum (g_profit g).
Proof.
  intros E1 E2 E3 H H'.
  destruct (recalculatePlan_goals Math_pow fuel P M H) as (planned & HL & G).
  destruct (recalculatePlan_goals Math_pow fuel P' M' H') as (planned' & HL' & G').
  assert (E : planned = planned').
  { unfold validTenure, validInitialCapital, initialDailyRate, dailyRate0,
      validFinalTarget, validInitialCapital, validTenure in HL, HL'.
    rewrite E1, E2, E3 in HL. rewrite HL in HL'. now injection HL'. }
  subst planned'. exists planned. intros k d [Hd|Hd]; auto.
Qed.

Lemma same_goals (fuel : nat)
    (P P' : Document (list Month)) (M M' : list Month) :
  Plan.initialCapital P = Plan.initialCapital P' ->
  Plan.finalTarget P = Plan.finalTarget P' ->
  Plan.tenure P = Plan.tenure P' ->
  recalculatePlan Math_pow fuel P = Done M ->
  recalculatePlan Math_pow fuel P' = Done M' ->
  forall (k : nat) (d d' : Day),
    allDays M !! k = Some d -> allDays M' !! k = Some d' ->
    target d = target d' /\ profit d = profit d'.
Proof.
  intros E1 E2 E3 H H' k d d' Hd Hd'.
  destruct (same_settings_same_goals fuel P P' M M' E1 E2 E3 H H')
    as (planned & G).
  destruct (G k d (or_introl Hd)) as (g & Hg & -> & ->).
  destruct (G k d' (or_intror Hd')) as (g' & Hg' & -> & ->).
  rewrite Hg in Hg'. injection Hg' as <-. split; reflexivity.
Qed.

(** The goals depend on the settings only.  Two documents with the same
    initial capital, final target and tenure get, day for day, the same
    target and the same profit goal, whatever their journals hold:
    recording an outcome never moves a goal.  The goals are those of the
    planned run of the settings, and after its last day those of that
    day. *)
Theorem goals_depend_on_settings_only (fuel : nat)
    (P P' : Document (list Month)) (M M' : list Month) :
  Plan.initialCapital P = Plan.initialCapital P' ->
  Plan.finalTarget P = Plan.finalTarget P' ->
  Plan.tenure P = Plan.tenure P' ->
  recalculatePlan Math_pow fuel P = Done M ->
  recalculatePlan Math_pow fuel P' = Done M' ->
  (forall (k : nat) (d d' : Day),
     allDays M !! k = Some d -> allDays M' !! k = Some d' ->
     target d = target d' /\ profit d = profit d') /\
  exists planned,
    plannedLoop fuel (validTenure P) (initialDailyRate Math_pow P) num0
      (validInitialCapital P) [] = Done planned /\
    forall (k : nat) (d : Day), allDays M !! k = Some d ->
      exists g, goal_of planned k = Some g /\
                target d = JNum (g_target g) /\ profit d = JNum (g_profit g).
Proof.
  intros E1 E2 E3 H H'. split.
  - exact (same_goals fuel P P' M M' E1 E2 E3 H H').
  - exact (recalculatePlan_goals Math_pow fuel P M H).
Qed.

(** *** The three handlers *)

Lemma editing_day (F : Day -> Day) (fuel : nat) (mi di : nat)
    (prev data' : Data) :
  (forall d, json_val (actual (F (json_day d))) = actual (F (json_day d))) ->
  editing Math_pow F fuel mi di prev = Done data' ->
  touches F mi di prev data'.
Proof.
  intros HF H. unfold touches. destruct (editing_spec F fuel mi di prev data' H)
    as (d & Hd & _ & _ & HR & HJ).
  rewrite (frame_put_day _ mi di _ (F (json_day d))) in HJ
    by (apply json_day_journal, HF).
  assert (Hp : day_at (put_day (json_months (months prev)) mi di
                         (F (json_day d))) mi di = Some (F (json_day d))).
  { apply (day_at_put_day _ mi di (json_day d)).
    rewrite day_at_json, Hd. reflexivity. }
  assert (E : frame_of <$> months data' !! mi =
              frame_of <$> put_day (json_months (months prev)) mi di
                             (F (json_day d)) !! mi).
  { rewrite <- !list_lookup_fmap.
    change (frame_of <$> ?l) with (map frame_of l). now rewrite HJ. }
  unfold day_at in Hp |- *.
  destruct (put_day (json_months (months prev)) mi di (F (json_day d)) !! mi)
    as [m|]; [|discriminate].
  destruct (months data' !! mi) as [m'|]; [|discriminate].
  cbn in E, Hp |- *. injection E as _ _ E.
  assert (E2 : journal_of <$> days m' !! di = journal_of <$> days m !! di).
  { rewrite <- !list_lookup_fmap.
    change (journal_of <$> ?l) with (map journal_of l). now rewrite E. }
  rewrite Hp in E2. destruct (days m' !! di) as [d'|]; [|discriminate].
  exists d, d'. repeat split; trivial. cbn in E2. congruence.
Qed.

Lemma profit_input_clean (value : string) (d : Day) :
  json_val (actual (profit_input value (json_day d))) =
  actual (profit_input value (json_day d)).
Proof. reflexivity. Qed.

Lemma sign_change_clean (sign : string) (d : Day) :
  json_val (actual (sign_change sign (json_day d))) =
  actual (sign_change sign (json_day d)).
Proof. cbn. apply json_val_idem. Qed.

Lemma trade_close_clean (pnl : number) (d : Day) :
  json_val (actual (trade_close NumberToString pnl (json_day d))) =
  actual (trade_close NumberToString pnl (json_day d)).
Proof. reflexivity. Qed.

(** After an outcome is recorded the plan is settled.  Whichever of
    [handleProfitInput], [handleSignChange] and [handleTradeClose] has
    produced the new state, recalculating it again would change nothing;
    its settings are the JSON copy of the previous ones and its hidden
    symbols the previous ones. *)
Theorem recording_settles (fuel : nat) (mi di : nat) (value sign : string)
    (pnl : number) (prev data' : Data) :
  handleProfitInput Math_pow fuel mi di value prev = Done data' \/
  handleSignChange Math_pow fuel mi di sign prev = Done data' \/
  handleTradeClose Math_pow NumberToString fuel true mi di pnl prev
    = Done data' ->
  recalculatePlan Math_pow fuel (fullData data') = Done (months data') /\
  settings data' = settings (json_data prev) /\
  hiddenSymbols data' = hiddenSymbols prev.
Proof.
  rewrite handleProfitInput_editing, handleSignChange_editing,
    handleTradeClose_editing.
  intros [H|[H|H]];
    destruct (editing_spec _ fuel mi di prev data' H)
      as (d & _ & HS & HH & HR & _); auto.
Qed.

(** Recording an outcome touches one day.  In the new state every month
    has its id, its name and its days, and every day its journal, as in
    the JSON copy of the previous state, except that the day addressed
    has the sign, the amount and the [achieved] flag the handler has
    assigned: the input and the flag for it ([handleProfitInput]), the
    sign and the flag for it ([handleSignChange]), or the running total
    with its sign ([handleTradeClose]). *)
Theorem recording_touches_one_day (fuel : nat) (mi di : nat)
    (value sign : string) (pnl : number) (prev data' : Data) :
  (handleProfitInput Math_pow fuel mi di value prev = Done data' ->
   touches (profit_input value) mi di prev data') /\
  (handleSignChange Math_pow fuel mi di sign prev = Done data' ->
   touches (sign_change sign) mi di prev data') /\
  (handleTradeClose Math_pow NumberToString fuel true mi di pnl prev
     = Done data' ->
   touches (trade_close NumberToString pnl) mi di prev data').
Proof.
  rewrite handleProfitInput_editing, handleSignChange_editing,
    handleTradeClose_editing.
  repeat split; intros H; apply (editing_day _ fuel); trivial.
  intros d. apply sign_change_clean.
Qed.

(** A handler fails exactly where there is no such day.  Each of
    [handleProfitInput], [handleSignChange], [handleTradeClose] and
    [handleJournalChange] throws a TypeError if and only if the indices
    address no day of the plan; none of them fails for another reason. *)
Theorem handlers_fail_without_day (fuel : nat) (mi di : nat)
    (value sign : string) (pnl : number) (field : Field) (prev : Data) :
  let missing := day_at (months prev) mi di = None in
  (handleProfitInput Math_pow fuel mi di value prev = TypeError <-> missing) /\
  (handleSignChange Math_pow fuel mi di sign prev = TypeError <-> missing) /\
  (handleTradeClose Math_pow NumberToString fuel true mi di pnl prev
     = TypeError <-> missing) /\
  (handleJournalChange mi di field value prev = TypeError <-> missing).
Proof.
  intros missing. subst missing.
  rewrite handleProfitInput_editing, handleSignChange_editing,
    handleTradeClose_editing.
  repeat split; try apply editing_fails; try (apply editing_fails; fail).
  - unfold handleJournalChange. cbn [months json_data].
    destruct (get_day_cases (json_months (months prev)) mi di)
      as [(dj & Hd & ->)|(Hd & [->| ->])]; cbn [bind];
      rewrite day_at_json in Hd;
      destruct (day_at (months prev) mi di); try discriminate; trivial.
  - unfold handleJournalChange. cbn [months json_data].
    destruct (get_day_cases (json_months (months prev)) mi di)
      as [(dj & Hd & ->)|(Hd & [->| ->])]; cbn [bind];
      rewrite day_at_json in Hd;
      destruct (day_at (months prev) mi di); try discriminate; trivial.
Qed.

Lemma fullData_settings (data data' : Data) :
  plain_settings data -> settings data' = settings (json_data data) ->
  Plan.initialCapital (fullData data) = Plan.initialCapital (fullData data') /\
  Plan.finalTarget (fullData data) = Plan.finalTarget (fullData data') /\
  Plan.tenure (fullData data) = Plan.tenure (fullData data').
Proof.
  intros (E1 & E2 & E3). unfold settings. cbn [json_data initialCapital
    finalTarget tenure]. rewrite E1, E2, E3. intros [= H1 H2 H3].
  unfold fullData. cbn [Plan.initialCapital Plan.finalTarget Plan.tenure].
  now rewrite H1, H2, H3.
Qed.

(** The goal of the day addressed is the one it had. *)
Lemma editing_goal (F : Day -> Day) (fuel : nat) (mi di : nat)
    (prev data' : Data) (d d' : Day) :
  plain_settings prev ->
  recalculatePlan Math_pow fuel (fullData prev) = Done (months prev) ->
  editing Math_pow F fuel mi di prev = Done data' ->
  day_at (months prev) mi di = Some d ->
  day_at (months data') mi di = Some d' ->
  map frame_of (months data') =
    map frame_of (put_day (json_months (months prev)) mi di (F (json_day d))) ->
  target d' = target d /\ profit d' = profit d.
Proof.
  intros HP HS H Hd Hd' HJ.
  destruct (editing_spec F fuel mi di prev data' H) as (_ & _ & HC & _ & HR & _).
  destruct (fullData_settings prev data' HP HC) as (E1 & E2 & E3).
  apply allDays_position in Hd, Hd'.
  rewrite (position_shape (months prev) (months data')) in Hd'.
  - destruct (same_goals fuel _ _ _ _ E1 E2 E3 HS HR _ _ _ Hd Hd')
      as [-> ->]. split; reflexivity.
  - rewrite (shape_frame _ _ HJ), shape_put_day. apply shape_json.
Qed.

(** The flag [achieved] means that the goal is reached.  In a settled
    plan with plain settings, after [handleProfitInput] or
    [handleSignChange] the day addressed is flagged as achieved exactly
    when its signed outcome, as recalculation reads it, is at least its
    profit goal (a goal that is not finite counts as 0: the JSON copy
    has made it [null]). *)
Theorem achieved_means_goal_reached (fuel : nat) (mi di : nat)
    (value sign : string) (prev data' : Data) :
  plain_settings prev ->
  recalculatePlan Math_pow fuel (fullData prev) = Done (months prev) ->
  handleProfitInput Math_pow fuel mi di value prev = Done data' \/
  handleSignChange Math_pow fuel mi di sign prev = Done data' ->
  exists d',
    day_at (months data') mi di = Some d' /\
    achieved d' =
    geb (signedProfit d') (ToNumber (json_val (profit d'))).
Proof.
  rewrite handleProfitInput_editing, handleSignChange_editing.
  intros HP HS [H|H].
  - destruct (editing_day _ fuel mi di prev data' (profit_input_clean value) H)
      as (d & d' & Hd & Hd' & HJ & HF).
    destruct (editing_goal _ fuel mi di prev data' d d' HP HS H Hd Hd' HF)
      as [_ Ep].
    exists d'. split; trivial. unfold journal_of in HJ.
    injection HJ as _ _ Ea Es Ev _ _ _ _.
    unfold signedProfit. rewrite Ea, Es, Ev, Ep. reflexivity.
  - destruct (editing_day _ fuel mi di prev data' (sign_change_clean sign) H)
      as (d & d' & Hd & Hd' & HJ & HF).
    destruct (editing_goal _ fuel mi di prev data' d d' HP HS H Hd Hd' HF)
      as [_ Ep].
    exists d'. split; trivial. unfold journal_of in HJ.
    injection HJ as _ _ Ea Es Ev _ _ _ _.
    unfold signedProfit. rewrite Ea, Es, Ev, Ep. reflexivity.
Qed.

(** A closed trade is added to the day's outcome.  With [q] the sum of
    the signed outcome the day had and the profit of the trade, of a
    magnitude below [10^21], the day addressed is afterwards a recorded
    day whose amount is [|q|] in hundredths, halves rounded up, written
    with two decimals, whose sign is [+] exactly when [q >= 0], and
    whose signed outcome, as recalculation reads it, is that amount with
    that sign. *)
Theorem handleTradeClose_accumulates (fuel : nat) (mi di : nat) (pnl : number)
    (prev data' : Data) (d : Day) (q : Q) :
  handleTradeClose Math_pow NumberToString fuel true mi di pnl prev
    = Done data' ->
  day_at (months prev) mi di = Some d ->
  add (signedProfit (json_day d)) pnl = Fin q ->
  Qabs q < 10 ^ 21 ->
  exists d',
    day_at (months data') mi di = Some d' /\
    actual d' = JStr (toFixed2 NumberToString (Fin (Qabs q))) /\
    pnlSign d' = (if geb (Fin q) num0 then "+" else "-")%string /\
    is_recorded (actual d') = true /\
    let amount := rnd64 (inject_Z (cents (Qabs q)) / 100) in
    signedProfit d' = if geb (Fin q) num0 then amount else neg amount.
Proof.
  rewrite handleTradeClose_editing. intros H Hd Hq Hb.
  destruct (editing_day _ fuel mi di prev data' (trade_close_clean pnl) H)
    as (d0 & d' & Hd0 & Hd' & HJ & _).
  rewrite Hd in Hd0. injection Hd0 as <-.
  exists d'. split; trivial. unfold journal_of in HJ.
  injection HJ as _ _ _ Es Ev _ _ _ _.
  unfold trade_close in Es, Ev. rewrite Hq in Es, Ev.
  cbn [set_outcome pnlSign actual Math_abs] in Es, Ev.
  assert (H0 : 0 <= Qabs q) by apply Qabs_nonneg.
  repeat split; trivial.
  - rewrite Ev. cbn [is_recorded].
    now rewrite (toFixed2_not_empty NumberToString _ H0 Hb).
  - unfold signedProfit. rewrite Es, Ev. cbn [ToNumber].
    rewrite (StringToNumber_toFixed2 NumberToString _ H0 Hb).
    change num0 with (Fin 0). rewrite or_else_rnd64.
    destruct (geb (Fin q) (Fin 0)); reflexivity.
Qed.

End Handlers.

End JournalFacts.

Module StructureFacts.
Import JSNumber JSNumberFacts Plan PlanFacts JSLibrary LibraryFacts.
Import Calendar Journal JournalFacts Structure.

(** The counter after [k] iterations. *)
Definition num (k : nat) : number := Fin (inject_Z (Z.of_nat k)).

(** The first day of the week that is not a Saturday or a Sunday, after
    [d]. *)
Definition nextDay {C : Calendar} (d : Date) : Date :=
  let d1 := addDays 1%Z d in
  if isWeekend d1 then
    let d2 := addDays 1%Z d1 in
    if isWeekend d2 then addDays 1%Z d2 else d2
  else d1.

(** The date of the demo, moved to Monday if it is on a weekend. *)
Definition startDate {C : Calendar} : Date :=
  if (getDay demoDate =? 6)%Z then addDays 2%Z demoDate
  else if (getDay demoDate =? 0)%Z then addDays 1%Z demoDate
  else demoDate.

(** The date of day [i] of a plan, counted from 0. *)
Fixpoint tradingDay {C : Calendar} (i : nat) : Date :=
  match i with
  | O => startDate
  | S i' => nextDay (tradingDay i')
  end.

(** Day [i] of a plan, counted from 0. *)
Definition planDay {C : Calendar} (old : gmap string Day) (i : nat) : Day :=
  newDay (num i) (isoDate (tradingDay i)) (old !! isoDate (tradingDay i)).

(** A day is pushed to month [j], which is made if it is not there. *)
Definition push_day (ms : list Month) (j : nat) (name : string) (d : Day)
  : list Month :=
  match ms !! j with
  | Some m => <[j := mkMonth (id m) (monthName m) (days m ++ [d])]> ms
  | None => ms ++ [mkMonth (Z.of_nat j + 1) name [d]]
  end.

(** The months after [k] days: the days are the first [k] days of the
    plan, in months of 22, the last one possibly shorter. *)
Definition months_of {C : Calendar} (old : gmap string Day) (k : nat)
    (ms : list Month) : Prop :=
  allDays ms = map (planDay old) (seq 0 k) /\
  length ms = ((k + 21) / 22)%nat /\
  forall (j : nat) (m : Month), ms !! j = Some m ->
    id m = (Z.of_nat j + 1)%Z /\
    monthName m = monthYear (tradingDay (22 * j)) /\
    length (days m) = Nat.min 22 (k - 22 * j).

(** A journal as the handlers leave it: a sign, and an amount that is
    text. *)
Definition kept (d : Day) : Prop :=
  pnlSign d <> ""%string /\ exists s, actual d = JStr s.

(** A document whose months are a plan of [n] days, recalculated. *)
Definition built {C : Calendar} (Math_pow : number -> number -> number)
    (fuel : nat) (old : gmap string Day) (n : nat) (data : Data) : Prop :=
  exists ms,
    months_of old n ms /\
    map frame_of (months data) = map frame_of (json_months ms) /\
    recalculatePlan Math_pow fuel (fullData data) = Done (months data).

(** The journal of a day without its number. *)
Definition entries (d : Day) :=
  (date d, achieved d, pnlSign d, actual d,
   winningTrades d, losingTrades d, logic d, rules d).

(** *** Counters *)

Lemma rnd_abs_32nds (N : Z) : (0 < N < 2 ^ 53)%Z ->
  rnd_abs (inject_Z N / 32) = Some (Qred (inject_Z N / 32)).
Proof.
  intros [H0 H1]. set (q := inject_Z N / 32).
  assert (P0 : 0 < q).
  { unfold q. apply Qlt_shift_div_l; [reflexivity|].
    change (0 * 32) with (inject_Z 0). now rewrite <- Zlt_Qlt. }
  assert (P1 : q < 2 ^ 48).
  { unfold q. apply Qlt_shift_div_r; [reflexivity|].
    change (2 ^ 48 * 32) with (inject_Z (2 ^ 53)). now rewrite <- Zlt_Qlt. }
  assert (He : (ulp_exp q <= -5)%Z).
  { destruct (floor_log2_spec q P0) as [G _].
    assert (floor_log2 q < 48)%Z.
    { apply pow2_lt_inv. eapply Qle_lt_trans; eassumption. }
    unfold ulp_exp. lia. }
  assert (Ev : rnd_val q == q).
  { apply rnd_val_exact with (m := (N * 2 ^ (- 5 - ulp_exp q))%Z).
    rewrite inject_Z_mult, pow2_inject by lia.
    rewrite <- Qmult_assoc, <- Qpower_plus by apply two_neq_0.
    replace (- 5 - ulp_exp q + ulp_exp q)%Z with (-5)%Z by lia.
    unfold q. reflexivity. }
  rewrite rnd_abs_eq, (Qred_complete _ _ Ev).
  destruct (Qle_bool (2 ^ 1024) (Qred q)) eqn:B; trivial.
  apply Qle_bool_iff in B. rewrite Qred_correct in B. exfalso.
  assert (2 ^ 48 < 2 ^ 1024) by reflexivity. lra.
Qed.

(** [Math.floor(dayCounter / 22)] is the integer quotient. *)
Lemma floor_div_22 (k : Z) : (0 <= k < 2 ^ 52)%Z ->
  Math_floor (div (Fin (inject_Z k)) (Fin 22)) = Fin (inject_Z (k / 22)).
Proof.
  intros H. change (div (Fin (inject_Z k)) (Fin 22))
    with (rnd64 (inject_Z k / 22)).
  set (m := (k / 22)%Z).
  assert (Hm : (0 <= m /\ 22 * m <= k < 22 * m + 22)%Z).
  { unfold m. pose proof (Z.div_mod k 22). pose proof (Z.mod_pos_bound k 22).
    split; [apply Z.div_pos; lia|lia]. }
  assert (Lo : inject_Z m <= inject_Z k / 22).
  { apply Qle_shift_div_l; [reflexivity|].
    change 22 with (inject_Z 22). rewrite <- inject_Z_mult, <- Zle_Qle. lia. }
  assert (Hi : inject_Z k / 22 <= inject_Z (32 * m + 31) / 32).
  { apply Qle_shift_div_r; [reflexivity|].
    assert (E : inject_Z (32 * m + 31) / 32 * 22 ==
                inject_Z (22 * (32 * m + 31)) / 32).
    { rewrite (inject_Z_mult 22). change (inject_Z 22) with 22. field. }
    rewrite E. apply Qle_shift_div_l; [reflexivity|].
    change 32 with (inject_Z 32). rewrite <- inject_Z_mult, <- Zle_Qle. lia. }
  destruct (rnd64_between (inject_Z m) (inject_Z (32 * m + 31) / 32)
              (inject_Z k / 22) (inject_Z m) (inject_Z (32 * m + 31) / 32)
              Lo Hi) as (v & -> & V1 & V2).
  - rewrite (rnd64_int (inject_Z m) m) by (lia || reflexivity).
    cbn [le]. lra.
  - rewrite rnd64_pos.
    + rewrite rnd_abs_32nds by lia. cbn [le]. rewrite Qred_correct. lra.
    + apply Qlt_shift_div_l; [reflexivity|].
      change (0 * 32) with (inject_Z 0). rewrite <- Zlt_Qlt. lia.
  - cbn [Math_floor]. f_equal. f_equal. apply Qfloor_unique; trivial.
    eapply Qle_lt_trans; [exact V2|].
    apply Qlt_shift_div_r; [reflexivity|].
    change 32 with (inject_Z 32). rewrite <- inject_Z_mult, <- Zlt_Qlt. lia.
Qed.

Lemma int_of_num (k : nat) : int_of (num k) = Z.of_nat k.
Proof. apply Qfloor_Z. Qed.

Lemma index_of_num (k : nat) : index_of (num k) = k.
Proof. unfold index_of. rewrite int_of_num. apply Nat2Z.id. Qed.

Lemma ltb_num (k n : nat) : ltb (num k) (num n) = (k <? n)%nat.
Proof.
  unfold num, ltb, Qcompare. cbn [Qnum Qden inject_Z].
  rewrite !Z.mul_1_r.
  destruct (Z.compare_spec (Z.of_nat k) (Z.of_nat n));
    destruct (Nat.ltb_spec k n); trivial; lia.
Qed.

Lemma add_num (k : nat) : (Z.of_nat k < 2 ^ 52)%Z ->
  add (num k) num1 = num (S k).
Proof.
  intros H. unfold num, num1. rewrite add_one_int by lia.
  now rewrite Nat2Z.inj_succ.
Qed.

Lemma floor_num (k : nat) : (Z.of_nat k < 2 ^ 52)%Z ->
  Math_floor (div (num k) TRADING_DAYS_PER_MONTH) = num (k / 22).
Proof.
  intros H. unfold num, TRADING_DAYS_PER_MONTH.
  rewrite floor_div_22 by lia. now rewrite Nat2Z.inj_div.
Qed.

Ltac div22 e :=
  pose proof (Nat.div_mod_eq e 22);
  pose proof (Nat.mod_upper_bound e 22 ltac:(discriminate)).

(** *** Weekdays *)

Section Laws.
Context {C : Calendar} {L : CalendarLaws C}.

Lemma isWeekend_spec (d : Date) :
  isWeekend d = true <-> getDay d = 0%Z \/ getDay d = 6%Z.
Proof. unfold isWeekend. lia. Qed.

Lemma getDay_next (d : Date) :
  getDay (addDays 1%Z d) = ((getDay d + 1) mod 7)%Z.
Proof. apply getDay_addDays. lia. Qed.

Lemma nextDay_weekday (d : Date) : isWeekend (nextDay d) = false.
Proof.
  unfold nextDay. cbv zeta.
  destruct (isWeekend (addDays 1%Z d)) eqn:E1; trivial.
  destruct (isWeekend (addDays 1%Z (addDays 1%Z d))) eqn:E2; trivial.
  apply isWeekend_spec in E1, E2.
  apply not_true_is_false. rewrite isWeekend_spec.
  rewrite !getDay_next in *. pose proof (getDay_range d).
  Z.div_mod_to_equations. lia.
Qed.

Lemma skipWeekend_nextDay (fuel : nat) (d : Date) : (2 <= fuel)%nat ->
  getNextTradingDay fuel d = Done (nextDay d).
Proof.
  intros H. unfold getNextTradingDay, nextDay. cbv zeta.
  destruct fuel as [|[|fuel]]; try lia. cbn [skipWeekend].
  destruct (isWeekend (addDays 1%Z d)) eqn:E1; trivial.
  destruct (isWeekend (addDays 1%Z (addDays 1%Z d))) eqn:E2; trivial.
  assert (E3 : isWeekend (addDays 1%Z (addDays 1%Z (addDays 1%Z d))) = false).
  { pose proof (nextDay_weekday d) as N. unfold nextDay in N. cbv zeta in N.
    now rewrite E1, E2 in N. }
  destruct fuel; cbn [skipWeekend]; now rewrite E3.
Qed.



End Laws.

(** *** The months after each day *)

Lemma allDays_app (a b : list Month) : allDays (a ++ b) = allDays a ++ allDays b.
Proof. unfold allDays. apply flat_map_app. Qed.

Lemma allDays_push_last (ms : list Month) (m : Month) (d : Day) :
  ms !! (length ms - 1)%nat = Some m ->
  allDays (<[(length ms - 1)%nat :=
               mkMonth (id m) (monthName m) (days m ++ [d])]> ms) =
  allDays ms ++ [d].
Proof.
  intros H. destruct (decide (ms = [])) as [->|N]; [discriminate|].
  destruct (exists_last N) as (init & x & ->).
  rewrite length_app in *. cbn [length] in *.
  replace (length init + 1 - 1)%nat with (length init + 0)%nat in * by lia.
  rewrite lookup_app_r in H by lia.
  replace (length init + 0 - length init)%nat with 0%nat in H by lia.
  injection H as ->.
  rewrite insert_app_r. cbn [insert list_insert].
  rewrite !allDays_app. unfold allDays at 2 4. cbn [flat_map days].
  rewrite !app_nil_r. now rewrite app_assoc.
Qed.

Section Months.
Context {C : Calendar}.

Lemma months_of_0 (old : gmap string Day) : months_of old 0 [].
Proof. split; [|split]; trivial. intros j m H. discriminate. Qed.

Lemma push_day_months_of (old : gmap string Day) (k : nat) (ms : list Month) :
  months_of old k ms ->
  months_of old (S k)
    (push_day ms (k / 22) (monthYear (tradingDay k)) (planDay old k)).
Proof.
  intros (HA & HL & HM). unfold push_day.
  div22 k. div22 (k + 21)%nat. div22 (S k + 21)%nat.
  destruct (ms !! (k / 22)%nat) as [m|] eqn:E.
  - apply lookup_lt_Some in E as Lt.
    assert (J : (k / 22 = length ms - 1)%nat) by lia.
    split; [|split].
    + rewrite J in E |- *. rewrite (allDays_push_last ms m _ E), HA.
      now rewrite seq_S, map_app.
    + rewrite length_insert. lia.
    + intros j x Hx. destruct (decide (j = k / 22)%nat) as [->|N].
      * rewrite list_lookup_insert_eq in Hx by trivial. injection Hx as <-.
        cbn [id monthName days]. rewrite length_app. cbn [length].
        destruct (HM _ _ E) as (-> & -> & ->). repeat split. lia.
      * rewrite list_lookup_insert_ne in Hx by congruence.
        apply lookup_lt_Some in Hx as Lj.
        destruct (HM _ _ Hx) as (-> & -> & ->). repeat split. lia.
  - apply lookup_ge_None in E.
    assert (J : (k / 22 = length ms)%nat) by lia.
    split; [|split].
    + rewrite allDays_app, HA, seq_S, map_app. unfold allDays.
      cbn [flat_map days]. now rewrite app_nil_r.
    + rewrite length_app. cbn [length]. lia.
    + intros j x Hx. apply lookup_app_Some in Hx.
      destruct Hx as [Hx|[Hx H6]].
      * apply lookup_lt_Some in Hx as Lj.
        destruct (HM _ _ Hx) as (-> & -> & ->). repeat split. lia.
      * destruct (j - length ms)%nat eqn:D; [|discriminate].
        injection H6 as <-. cbn [id monthName days length].
        assert (Ej : j = (k / 22)%nat) by lia. subst j.
        repeat split; [|lia]. f_equal. f_equal. lia.
Qed.

End Months.

(** *** One iteration *)

Section Loop.
Context {C : Calendar} {L : CalendarLaws C}.

Lemma planLoop_step (fuel n k : nat) (old : gmap string Day) (ms : list Month) :
  (k < n)%nat -> (Z.of_nat k < 2 ^ 52)%Z -> (2 <= fuel)%nat ->
  (k / 22 <= length ms)%nat ->
  planLoop (S fuel) (num n) old (Some <$> ms) (tradingDay k) (num k) =
  planLoop fuel (num n) old
    (Some <$> push_day ms (k / 22) (monthYear (tradingDay k)) (planDay old k))
    (tradingDay (S k)) (num (S k)).
Proof.
  intros Hk Hb Hf Hj. cbn [planLoop].
  rewrite ltb_num. destruct (Nat.ltb_spec k n) as [_|]; [|lia].
  rewrite floor_num, index_of_num by trivial.
  assert (Hq : (Z.of_nat (k / 22) < 2 ^ 52)%Z).
  { pose proof (Nat.Div0.div_le_upper_bound k 22 k). lia. }
  rewrite (add_num (k / 22)), int_of_num, Nat2Z.inj_succ by trivial.
  rewrite (skipWeekend_nextDay fuel) by trivial. cbn [bind].
  rewrite add_num by trivial. fold (planDay old k).
  unfold push_day. rewrite list_lookup_fmap.
  destruct (ms !! (k / 22)%nat) as [m|] eqn:E; cbn [fmap option_fmap option_map].
  - rewrite list_lookup_fmap, E. cbn [fmap option_fmap option_map].
    rewrite <- list_fmap_insert. reflexivity.
  - apply lookup_ge_None in E.
    assert (E' : length ms = (k / 22)%nat) by lia.
    unfold array_set. rewrite length_fmap.
    destruct (Nat.ltb_spec (k / 22) (length ms)) as [|_]; [lia|].
    replace (k / 22 - length ms)%nat with 0%nat by lia.
    cbn [replicate app].
    rewrite lookup_app_r by (rewrite length_fmap; lia).
    rewrite length_fmap, <- E', Nat.sub_diag. cbn [lookup list_lookup].
    rewrite insert_app_r_alt by (rewrite length_fmap; lia).
    rewrite length_fmap, Nat.sub_diag. cbn [insert list_insert].
    rewrite fmap_app. cbn [fmap list_fmap app days id monthName].
    rewrite E'. replace (Z.succ (Z.of_nat (k / 22))) with (Z.of_nat (k / 22) + 1)%Z by lia.
    reflexivity.
Qed.

Lemma planLoop_runs (old : gmap string Day) (r : nat) :
  forall (n k fuel : nat) (ms : list Month),
    n = (k + r)%nat -> (Z.of_nat n <= 2 ^ 52)%Z -> (r + 2 <= fuel)%nat ->
    months_of old k ms ->
    exists ms',
      planLoop fuel (num n) old (Some <$> ms) (tradingDay k) (num k)
        = Done (Some <$> ms') /\
      months_of old n ms'.
Proof.
  induction r as [|r IH]; intros n k fuel ms Hn Hb Hf HM.
  - rewrite Nat.add_0_r in Hn. subst n. exists ms. split; trivial.
    destruct fuel; cbn [planLoop]; now rewrite ltb_num, Nat.ltb_irrefl.
  - destruct fuel as [|fuel]; [lia|].
    pose proof HM as (_ & HL & _). div22 k. div22 (k + 21)%nat.
    rewrite planLoop_step by lia.
    apply (IH n (S k) fuel); try lia.
    now apply push_day_months_of.
Qed.

Lemma generatePlanStructure_eq (fuel : nat) (tenure : number)
    (oldMonths : list Month) :
  generatePlanStructure fuel tenure oldMonths =
  planLoop fuel tenure (oldDaysMap oldMonths) [] (tradingDay 0) (num 0).
Proof. reflexivity. Qed.

Lemma generatePlanStructure_runs (fuel n : nat) (oldMonths : list Month) :
  (Z.of_nat n <= 2 ^ 52)%Z -> (n + 2 <= fuel)%nat ->
  exists ms,
    generatePlanStructure fuel (num n) oldMonths = Done (Some <$> ms) /\
    months_of (oldDaysMap oldMonths) n ms.
Proof.
  intros Hb Hf. rewrite generatePlanStructure_eq.
  apply (planLoop_runs (oldDaysMap oldMonths) n n 0 fuel []); trivial.
  apply months_of_0.
Qed.

Lemma dense_Some {A : Type} (l : list A) : dense (Some <$> l) = Some l.
Proof.
  unfold dense. apply mapM_Some. induction l; constructor; trivial.
Qed.

End Loop.

(** *** The old days *)

Lemma oldDays_fold (s : string) (l : list Day) : forall m0 : gmap string Day,
  fold_left (fun m d => <[date d := d]> m) l m0 !! s =
  match last (filter (fun e => date e = s) l) with
  | Some e => Some e
  | None => m0 !! s
  end.
Proof.
  induction l as [|a l IH]; intros m0; [reflexivity|].
  cbn [fold_left]. rewrite IH, filter_cons.
  destruct (decide (date a = s)) as [E|N].
  - rewrite last_cons.
    destruct (last (filter (fun e => date e = s) l)); trivial.
    rewrite E. apply lookup_insert_eq.
  - destruct (last (filter (fun e => date e = s) l)); trivial.
    now apply lookup_insert_ne.
Qed.

(** The old day that is kept for a date is the last one of that date. *)
Lemma oldDaysMap_last (oldMonths : list Month) (s : string) :
  oldDaysMap oldMonths !! s =
  last (filter (fun e => date e = s) (allDays oldMonths)).
Proof.
  unfold oldDaysMap. rewrite oldDays_fold.
  destruct (last _); trivial.
Qed.

(** *** The calendar of UTC *)

Lemma utc_laws : CalendarLaws utc.
Proof.
  split; cbn [getDay addDays utc Date]; intros.
  - apply Z.mod_pos_bound. lia.
  - rewrite <- Z.add_assoc, (Z.add_comm k 4), Z.add_assoc.
    now rewrite Z.add_mod_idemp_l by lia.
Qed.

(** *** The plan that is generated *)

Section Plans.
Context {C : Calendar} {L : CalendarLaws C}.

(** The next trading day is the first of the three days after a date
    that is not on a weekend.  With two iterations to spare the loop
    ends, and what it returns is tomorrow, or the day after if tomorrow
    is on a weekend, or the third day if both are; it is not on a
    weekend. *)
Theorem getNextTradingDay_first_weekday (fuel : nat) (date : Date) :
  (2 <= fuel)%nat ->
  let d1 := addDays 1%Z date in
  let d2 := addDays 1%Z d1 in
  let d3 := addDays 1%Z d2 in
  exists r,
    getNextTradingDay fuel date = Done r /\
    isWeekend r = false /\
    (r = d1 \/
     isWeekend d1 = true /\ r = d2 \/
     isWeekend d1 = true /\ isWeekend d2 = true /\ r = d3).
Proof.
  intros Hf d1 d2 d3. exists (nextDay date).
  split; [now apply skipWeekend_nextDay|].
  split; [apply nextDay_weekday|].
  unfold nextDay. cbv zeta. fold d1 d2 d3.
  destruct (isWeekend d1); auto. destruct (isWeekend d2); auto.
Qed.



End Plans.

(** *** The journal that is built *)

Lemma allDays_frame (ms ms' : list Month) :
  map frame_of ms' = map frame_of ms ->
  map journal_of (allDays ms') = map journal_of (allDays ms).
Proof.
  revert ms'. induction ms as [|m ms IH]; intros [|m' ms'] H;
    try discriminate; trivial.
  cbn [map] in H. injection H as _ _ Hd H.
  change (allDays (?x :: ?l)) with (days x ++ allDays l).
  rewrite !map_app, Hd. f_equal. now apply IH.
Qed.

Lemma or_else_truthy (x d : number) :
  truthy d = true -> truthy (or_else x d) = true.
Proof. unfold or_else. destruct (truthy x) eqn:E; trivial. Qed.

Lemma today_first (data : Data) (ts : string) (d : Day) :
  allDays (months data) !! 0%nat = Some d ->
  Forall (fun m => days m <> []) (months data) ->
  date d = ts ->
  today data ts = mkToday 0 0 (Some d) true.
Proof.
  intros Hd HN E. unfold today.
  destruct (months data) as [|m ms]; [discriminate|].
  apply Forall_cons in HN. destruct HN as [HN _].
  change (allDays (m :: ms)) with (days m ++ allDays ms) in Hd.
  destruct (days m) as [|d0 ds] eqn:Ed; [congruence|].
  cbn in Hd. injection Hd as ->.
  cbn [findToday]. rewrite Ed. cbn [findIndex]. rewrite E, String.eqb_refl.
  reflexivity.
Qed.

Section Built.
Context {C : Calendar} {L : CalendarLaws C}.
Variable Math_pow : number -> number -> number.

Lemma gtb_num (n : nat) : (1 <= n)%nat -> gtb (num n) num0 = true.
Proof.
  intros H. unfold gtb. change num0 with (num 0). rewrite ltb_num.
  destruct (Nat.ltb_spec 0 n); trivial. lia.
Qed.

Lemma recalculatePlan_runs_num (fuel n : nat) (P : Document (list Month)) :
  validTenure P = num n -> (n <= fuel)%nat -> (Z.of_nat n < 2 ^ 53)%Z ->
  exists M, recalculatePlan Math_pow fuel P = Done M.
Proof.
  intros E Hf Hb.
  destruct (plannedLoop_terminates (inject_Z (Z.of_nat n)) n 0 fuel
              (initialDailyRate Math_pow P) (validInitialCapital P) [])
    as [goals Hg]; try lia.
  { apply Qle_refl. }
  apply (recalculatePlan_runs Math_pow fuel P goals). rewrite E. exact Hg.
Qed.

Lemma recalculated_built (fuel n t : nat) (old : gmap string Day)
    (data : Data) (ms : list Month) :
  months_of old n ms ->
  validTenure (fullData (with_months data ms)) = num t ->
  (t <= fuel)%nat -> (Z.of_nat t < 2 ^ 53)%Z ->
  exists data',
    recalculated Math_pow fuel data (Some <$> ms) = Done data' /\
    settings data' = settings data /\
    hiddenSymbols data' = hiddenSymbols data /\
    version data' = version data /\
    built Math_pow fuel old n data'.
Proof.
  intros HM HT Hf Hb. unfold recalculated. rewrite dense_Some.
  destruct (recalculatePlan_runs_num fuel t
              (fullData (with_months data ms)) HT Hf Hb) as [M R].
  rewrite R. cbn [bind]. eexists. split; [reflexivity|].
  repeat split. exists ms. split; trivial. cbn [months with_months].
  split.
  - destruct (recalculatePlan_inv _ _ _ _ R) as (goals & w' & _ & HW & _).
    now rewrite (walkMonths_frame _ _ _ _ HW).
  - exact (recalculatePlan_again Math_pow fuel _ M R).
Qed.

Lemma months_of_nonempty (old : gmap string Day) (n : nat) (ms : list Month) :
  months_of old n ms -> Forall (fun k => (1 <= k)%nat) (shape ms).
Proof.
  intros (_ & HL & HM). apply Forall_lookup. intros j k Hk.
  unfold shape in Hk. change (map ?f ?l) with (f <$> l) in Hk.
  rewrite list_lookup_fmap in Hk.
  destruct (ms !! j) as [m|] eqn:E; [|discriminate]. injection Hk as <-.
  apply lookup_lt_Some in E as Lt. destruct (HM j m E) as (_ & _ & ->).
  div22 (n + 21)%nat. lia.
Qed.

Lemma built_facts (fuel : nat) (old : gmap string Day) (n : nat) (data : Data) :
  built Math_pow fuel old n data ->
  length (months data) = ((n + 21) / 22)%nat /\
  map journal_of (allDays (months data)) =
    map (fun i => journal_of (json_day (planDay old i))) (seq 0 n) /\
  Forall (fun m => days m <> []) (months data) /\
  recalculatePlan Math_pow fuel (fullData data) = Done (months data).
Proof.
  intros (ms & HM & HF & HR). pose proof HM as (HA & HL & _).
  pose proof (shape_frame _ _ HF) as HS. rewrite shape_json in HS.
  repeat split; trivial.
  - rewrite <- HL, <- (length_map (fun m => length (days m)) ms).
    fold (shape ms). rewrite <- HS. unfold shape. now rewrite length_map.
  - rewrite (allDays_frame _ _ HF), allDays_json, HA, !map_map. reflexivity.
  - pose proof (months_of_nonempty old n ms HM) as N. rewrite <- HS in N.
    unfold shape in N. rewrite Forall_map in N.
    eapply Forall_impl; [exact N|]. intros m Hm E. cbn in Hm.
    rewrite E in Hm. cbn in Hm. lia.
Qed.

Lemma built_length (fuel : nat) (old : gmap string Day) (n : nat) (data : Data) :
  built Math_pow fuel old n data -> length (allDays (months data)) = n.
Proof.
  intros H. destruct (built_facts fuel old n data H) as (_ & HJ & _).
  rewrite <- (length_map journal_of), HJ, length_map. apply length_seq.
Qed.

Lemma built_day (fuel : nat) (old : gmap string Day) (n : nat) (data : Data)
    (i : nat) (d : Day) :
  built Math_pow fuel old n data ->
  allDays (months data) !! i = Some d ->
  (i < n)%nat /\ journal_of d = journal_of (json_day (planDay old i)).
Proof.
  intros H Hd. destruct (built_facts fuel old n data H) as (_ & HJ & _).
  assert (E : map journal_of (allDays (months data)) !! i =
              Some (journal_of d)).
  { change (map ?f ?l) with (f <$> l). now rewrite list_lookup_fmap, Hd. }
  rewrite HJ in E. change (map ?f ?l) with (f <$> l) in E.
  rewrite list_lookup_fmap in E.
  destruct (seq 0 n !! i) as [i'|] eqn:Ei; [|discriminate].
  apply lookup_seq in Ei. destruct Ei as [-> Ei]. cbn in E.
  split; trivial. congruence.
Qed.

Lemma built_today (fuel : nat) (old : gmap string Day) (n : nat) (data : Data) :
  built Math_pow fuel old n data -> (1 <= n)%nat ->
  exists d,
    today data getTodayDateString = mkToday 0 0 (Some d) true /\
    day_at (months data) 0 0 = Some d.
Proof.
  intros H Hn. pose proof (built_length fuel old n data H) as HL.
  destruct (built_facts fuel old n data H) as (_ & _ & HN & _).
  destruct (allDays (months data) !! 0%nat) as [d|] eqn:E.
  - exists d. split.
    + apply today_first; trivial.
      destruct (built_day fuel old n data 0 d H E) as [_ J].
      unfold journal_of in J. now injection J as _ -> _.
    + clear - E HN. unfold day_at.
      destruct (months data) as [|m ms]; [discriminate|].
      apply Forall_cons in HN. destruct HN as [HN _]. cbn.
      change (allDays (m :: ms)) with (days m ++ allDays ms) in E.
      destruct (days m); [congruence|exact E].
  - apply lookup_ge_None in E. lia.
Qed.

Lemma validTenure_num (n : nat) (data : Data) (ms : list Month) :
  (1 <= n)%nat -> tenure data = Some (num n) ->
  validTenure (fullData (with_months data ms)) = num n.
Proof.
  intros Hn E. unfold validTenure, fullData. cbn [Plan.tenure with_months tenure].
  rewrite E. cbn [setting_value]. now rewrite gtb_num.
Qed.

Lemma num_truthy (n : nat) : truthy (num n) = true -> (1 <= n)%nat.
Proof.
  destruct n; [discriminate|lia].
Qed.

Lemma handleUpdateTargets_runs (fuel n : nat)
    (inputCapital inputTarget inputTenure : string) (data : Data) :
  or_else (parseInt10 inputTenure) DEFAULT_TENURE_DAYS = num n ->
  (Z.of_nat n <= 2 ^ 52)%Z -> (n + 2 <= fuel)%nat ->
  exists data',
    handleUpdateTargets Math_pow fuel inputCapital inputTarget inputTenure data
      = Done data' /\
    settings data' =
      (Some (or_else (parseInt10 inputCapital) DEFAULT_INITIAL_CAPITAL),
       Some (or_else (parseInt10 inputTarget) DEFAULT_FINAL_TARGET),
       Some (num n)) /\
    hiddenSymbols data' = hiddenSymbols data /\
    version data' = version data /\
    (1 <= n)%nat /\
    built Math_pow fuel (oldDaysMap (months data)) n data'.
Proof.
  intros E Hb Hf. unfold handleUpdateTargets. rewrite E.
  assert (Hn : (1 <= n)%nat).
  { apply num_truthy. rewrite <- E. now apply or_else_truthy. }
  destruct (generatePlanStructure_runs fuel n (months data) Hb Hf)
    as (ms & -> & HM). cbn [bind].
  match goal with |- context [recalculated Math_pow fuel ?d _] =>
    destruct (recalculated_built fuel n n (oldDaysMap (months data)) d ms HM)
      as (data' & -> & HS & HH & HV & HB)
  end; try lia.
  { now apply validTenure_num. }
  exists data'. repeat split; trivial.
Qed.


(** The journal a new user gets.  With 68 iterations to spare,
    [createNewJournal] returns a document with the default settings
    50000, 1000000 and 66, no hidden symbol and version 2, whose plan
    has three months and 66 days, on which recalculation changes
    nothing, and in which today is the first day. *)
Theorem createNewJournal_default (fuel : nat) :
  (68 <= fuel)%nat ->
  exists data d,
    createNewJournal Math_pow fuel = Done data /\
    settings data = (Some (Fin 50000), Some (Fin 1000000), Some (Fin 66)) /\
    hiddenSymbols data = Some [] /\ version data = Some (Fin 2) /\
    length (months data) = 3%nat /\
    length (allDays (months data)) = 66%nat /\
    recalculatePlan Math_pow fuel (fullData data) = Done (months data) /\
    today data getTodayDateString = mkToday 0 0 (Some d) true.
Proof.
  intros Hf. unfold createNewJournal.
  change DEFAULT_TENURE_DAYS with (num 66).
  destruct (generatePlanStructure_runs fuel 66 []) as (ms & -> & HM);
    [lia|lia|]. cbn [bind].
  match goal with |- context [recalculated Math_pow fuel ?d _] =>
    destruct (recalculated_built fuel 66 66 (oldDaysMap []) d ms HM)
      as (data & -> & HS & HH & HV & HB)
  end; try lia.
  { apply validTenure_num; [lia|reflexivity]. }
  destruct (built_facts fuel _ 66 data HB) as (HL & _ & _ & HR).
  destruct (built_today fuel _ 66 data HB) as (d & HT & _); [lia|].
  exists data, d. repeat split; trivial.
  exact (built_length fuel _ 66 data HB).
Qed.

(** *** A tenure that is not positive *)

Lemma planLoop_none (fuel : nat) (tenure : number) (old : gmap string Day)
    (ms : array Month) (d : Date) :
  gtb tenure num0 = false -> planLoop fuel tenure old ms d num0 = Done ms.
Proof.
  unfold gtb. intros H. destruct fuel; cbn [planLoop]; now rewrite H.
Qed.

(** No plan without a positive tenure.  For a tenure that is not above
    0, [generatePlanStructure] returns no month, whatever the old months
    are.  [handleUpdateTargets] takes a negative number in the tenure
    input as it is: the new document has that tenure, no months and so
    no day, the journal it had is not in it, and today is not found in
    it. *)
Theorem no_plan_without_tenure (fuel : nat) (t : number)
    (inputCapital inputTarget inputTenure : string) (data : Data) (q : Q)
    (todayString : string) :
  (gtb t num0 = false ->
   generatePlanStructure fuel t (months data) = Done []) /\
  (parseInt10 inputTenure = Fin q -> q < 0 -> (66 <= fuel)%nat ->
   exists data',
     handleUpdateTargets Math_pow fuel inputCapital inputTarget inputTenure
       data = Done data' /\
     tenure data' = Some (Fin q) /\ months data' = [] /\
     isTodayFound (today data' todayString) = false /\
     todayData (today data' todayString) = None).
Proof.
  split.
  - intros H. unfold generatePlanStructure. now apply planLoop_none.
  - intros E Hq Hf. unfold handleUpdateTargets. rewrite E.
    assert (T : or_else (Fin q) DEFAULT_TENURE_DAYS = Fin q).
    { unfold or_else. cbn [truthy]. unfold is_zero.
      destruct (Qeq_bool q 0) eqn:B; trivial. apply Qeq_bool_eq in B. lra. }
    assert (G : gtb (Fin q) num0 = false).
    { unfold gtb, num0, ltb. destruct (Qcompare_spec 0 q); trivial. lra. }
    rewrite T. unfold generatePlanStructure.
    rewrite planLoop_none by exact G. cbn [bind].
    unfold recalculated. change (dense []) with (Some (@nil Month)).
    cbv iota.
    match goal with |- context [recalculatePlan Math_pow fuel ?P] =>
      destruct (recalculatePlan_runs_num fuel 66 P) as [M R]
    end; try lia.
    { unfold validTenure, fullData. cbn [Plan.tenure with_months tenure
        setting_value]. now rewrite G. }
    rewrite R. cbn [bind].
    destruct (recalculatePlan_inv _ _ _ _ R) as (goals & w' & _ & HW & _).
    cbn in HW. injection HW as <- _.
    eexists. split; [reflexivity|]. repeat split.
Qed.

(** *** The journal is kept *)

Lemma filter_none {A : Type} (P : A -> Prop) `{!forall x, Decision (P x)}
    (l : list A) :
  (forall j x, l !! j = Some x -> ~ P x) -> filter P l = [].
Proof.
  induction l as [|a l IH]; intros HU; trivial.
  rewrite filter_cons. destruct (decide (P a)) as [Pa|_].
  - destruct (HU 0%nat a eq_refl Pa).
  - apply IH. intros j x Hj. exact (HU (S j) x Hj).
Qed.

Lemma filter_unique {A : Type} (P : A -> Prop) `{!forall x, Decision (P x)}
    (l : list A) : forall (i : nat) (e : A),
  l !! i = Some e -> P e ->
  (forall j x, l !! j = Some x -> P x -> j = i) ->
  filter P l = [e].
Proof.
  induction l as [|a l IH]; intros i e Hi He HU; [discriminate|].
  rewrite filter_cons. destruct i as [|i].
  - injection Hi as ->. destruct (decide (P e)) as [_|N]; [|contradiction].
    f_equal. apply filter_none. intros j x Hj Px.
    specialize (HU (S j) x Hj Px). discriminate.
  - destruct (decide (P a)) as [Pa|_].
    + specialize (HU 0%nat a eq_refl Pa). discriminate.
    + apply (IH i); trivial. intros j x Hj Px.
      specialize (HU (S j) x Hj Px). lia.
Qed.

Lemma lookup_dates (l : list Day) (n0 : nat) (f : nat -> string) (j : nat)
    (x : Day) :
  map date l = map f (seq 0 n0) -> l !! j = Some x ->
  (j < n0)%nat /\ date x = f j.
Proof.
  intros H Hj.
  assert (E : map date l !! j = Some (date x)).
  { change (map ?g ?k) with (g <$> k). now rewrite list_lookup_fmap, Hj. }
  rewrite H in E. change (map ?g ?k) with (g <$> k) in E.
  rewrite list_lookup_fmap in E.
  destruct (seq 0 n0 !! j) as [j'|] eqn:Ej; [|discriminate].
  apply lookup_seq in Ej. destruct Ej as [-> Ej]. cbn in E.
  split; trivial. congruence.
Qed.

Lemma distinct_dates (f : nat -> string) (N i j : nat) :
  NoDup (map f (seq 0 N)) -> (i < N)%nat -> (j < N)%nat -> f i = f j -> i = j.
Proof.
  intros HN Hi Hj E.
  apply (NoDup_lookup _ i j (f i) HN);
    change (map ?g ?k) with (g <$> k); rewrite list_lookup_fmap.
  - rewrite (lookup_seq_lt 0 N i) by trivial. reflexivity.
  - rewrite (lookup_seq_lt 0 N j) by trivial. cbn. now rewrite E.
Qed.

(** SET & RECALCULATE keeps the journal.  Let the days of the document
    have the dates of the trading days, in order, a sign and an amount
    that is text, and let the trading days of the longer of the old and
    the new plan have different dates.  Then every day of the new plan
    that the old plan had has the date, the [achieved] flag, the sign,
    the amount, the trade counts, the log and the rules it had; and
    every further day has the default journal. *)
Theorem handleUpdateTargets_keeps_journal (fuel n : nat)
    (inputCapital inputTarget inputTenure : string) (data data' : Data) :
  let old := allDays (months data) in
  let dates := fun i => isoDate (tradingDay i) in
  or_else (parseInt10 inputTenure) DEFAULT_TENURE_DAYS = num n ->
  (Z.of_nat n <= 2 ^ 52)%Z -> (n + 2 <= fuel)%nat ->
  map date old = map dates (seq 0 (length old)) ->
  NoDup (map dates (seq 0 (Nat.max n (length old)))) ->
  Forall kept old ->
  handleUpdateTargets Math_pow fuel inputCapital inputTarget inputTenure data
    = Done data' ->
  forall (i : nat) (d : Day), allDays (months data') !! i = Some d ->
    entries d =
    match old !! i with
    | Some e => entries e
    | None => (dates i, false, "+"%string, JStr "", ""%string, ""%string,
               ""%string, DEFAULT_RULES)
    end.
Proof.
  intros old dates E Hb Hf HD HN HK R i d Hd.
  destruct (handleUpdateTargets_runs fuel n inputCapital inputTarget
              inputTenure data E Hb Hf) as (data'' & R' & _ & _ & _ & _ & HB).
  rewrite R in R'. injection R' as <-.
  destruct (built_day fuel _ n data' i d HB Hd) as [Hi J].
  assert (X : entries d =
              entries (json_day (planDay (oldDaysMap (months data)) i))).
  { unfold journal_of in J. unfold entries. congruence. }
  rewrite X. unfold planDay. rewrite oldDaysMap_last. fold old.
  fold (dates i).
  destruct (old !! i) as [e|] eqn:Ei.
  - destruct (lookup_dates old (length old) dates i e HD Ei) as [Li De].
    rewrite (filter_unique (fun x => date x = dates i) old i e Ei De).
    + cbn [last]. rewrite Forall_forall in HK.
      destruct (HK e (list_elem_of_lookup_2 _ _ _ Ei)) as (Ks & s & Ka).
      unfold entries, newDay, json_day. cbn [date achieved pnlSign actual
        winningTrades losingTrades logic rules].
      rewrite Ka. cbn [truthy_val].
      destruct (String.eqb_spec (pnlSign e) "") as [Q|_]; [contradiction|].
      rewrite De.
      destruct (String.eqb_spec s "") as [->|_]; reflexivity.
    + intros j x Hj Px.
      destruct (lookup_dates old (length old) dates j x HD Hj) as [Lj Dx].
      apply (distinct_dates dates (Nat.max n (length old))); trivial; try lia.
      congruence.
  - apply lookup_ge_None in Ei.
    rewrite (filter_none (fun x => date x = dates i) old).
    + reflexivity.
    + intros j x Hj Px.
      destruct (lookup_dates old (length old) dates j x HD Hj) as [Lj Dx].
      assert (j = i); [|lia].
      apply (distinct_dates dates (Nat.max n (length old))); trivial; try lia.
      congruence.
Qed.

End Built.


End StructureFacts.

Module DeskExamples.
Import JSNumber JSNumberFacts Trader TraderFacts TraderExamples.
Import Feed Desk DeskFacts.

(** The order form asks for a quarter of a lot of BTC/USD at leverage
    100. *)
Definition btc_desk : State :=
  mkState [long_eur; short_btc] [] quotes (Some quotes) "BTC/USD"
    (Fin (1 # 4)) (Fin 100) "" "" (Fin 50000) [] [].


(** A quarter of a lot of BTC/USD bought at 64500 and sold at once at
    64450 loses the spread. *)
Lemma round_trip_no_gain_witness :
  let st1 := handleMarketOrder StringToNumber "c3d0" "17/11/2025, 10:10:00"
               BUY btc_desk in
  exists p,
    positions st1 = positions btc_desk ++ [p] /\
    let st2 := handleClosePosition "17/11/2025, 10:10:01" (Some p) None
                 ManualClose st1 in
    let pl :=
      mul (mul (sub (Fin 64450) (Fin 64500)) (formLots btc_desk))
          (contractSize (selectedSymbol btc_desk)) in
    reported st2 = reported btc_desk ++ [pl] /\
    tradeHistory st2 =
      mkClosedTrade p (market_price p (mkQuote (Fin 64450) (Fin 64500)))
        "17/11/2025, 10:10:01" pl ManualClose
        :: tradeHistory btc_desk /\
    no_gain pl.
Proof.
  apply (round_trip_no_gain StringToNumber "c3d0" "17/11/2025, 10:10:00"
           "17/11/2025, 10:10:01" BUY btc_desk
           (mkQuote (Fin 64450) (Fin 64500))).
  - vm_compute. reflexivity.
  - reflexivity.
  - refine (le_of_leb _ _ _). vm_compute. reflexivity.
  - refine (le_of_leb _ _ _). vm_compute. reflexivity.
  - intros H. apply (f_equal (@length Position)) in H. vm_compute in H.
    discriminate H.
Defined.

(** The panel shows a margin of 161.25 for that order and a free margin
    above it; the order, here to sell, is accepted. *)
Lemma panel_margin_suffices_witness :
  f_freeMargin (figures btc_desk) = freeMargin btc_desk /\
  exists p,
    positions (handleMarketOrder StringToNumber "c3d0" "17/11/2025, 10:10:00"
                 SELL btc_desk) =
    positions btc_desk ++ [p].
Proof.
  apply (panel_margin_suffices StringToNumber "c3d0" "17/11/2025, 10:10:00"
           SELL btc_desk (mkQuote (Fin 64450) (Fin 64500))
           64450 64500 (1 # 4) 100).
  - vm_compute. reflexivity.
  - reflexivity.
  - reflexivity.
  - discriminate.
  - reflexivity.
  - discriminate.
  - reflexivity.
  - reflexivity.
  - vm_compute. reflexivity.
Defined.

(** A tick of the feed from its first state, with
    [Math.random() = 0.25] throughout. *)
Lemma feed_quotes_not_crossed_witness :
  let '(newState, calls) :=
    tick (initialPrices ALL_SYMBOLS) (initialPrices ALL_SYMBOLS)
      (fun _ => Fin (1 # 4)) in
  keys newState = keys (initialPrices ALL_SYMBOLS) /\
  Forall (fun kv => sound (snd kv)) newState /\
  Forall (fun kv => not_crossed (quote (snd kv))) newState /\
  Forall (fun c => isNaN (c_bid c) = false -> isNaN (c_ask c) = false ->
                   le (c_bid c) (c_ask c)) calls.
Proof.
  apply (proj2 feed_quotes_not_crossed (initialPrices ALL_SYMBOLS)
           (initialPrices ALL_SYMBOLS) (fun _ => Fin (1 # 4))).
  - apply (bool_decide_unpack _). vm_compute. exact I.
  - reflexivity.
  - exact (proj1 feed_quotes_not_crossed).
  - exact (proj1 feed_quotes_not_crossed).
Defined.

End DeskExamples.

Module JournalExamples.
Import JSNumber JSNumberFacts Plan PlanFacts Examples.
Import JSLibrary LibraryFacts Calendar Journal JournalFacts.
Import Structure StructureFacts.

(** The document of the example: the default settings and the journal
    [small_gains], recalculated. *)
Definition example_data : Data :=
  mkData (Some (Fin 50000)) (Some (Fin 1000000)) (Some (Fin 66))
    small_gains_result (Some ["BTC/USD"%string]) (Some (Fin 2)).

(** [Number.prototype.toString] is not needed below 1e21. *)
Definition no_toString (n : number) : string := "".

Definition result {A : Type} (dflt : A) (o : outcome A) : A :=
  match o with
  | Done a => a
  | _ => dflt
  end.

(** 250 is typed as the outcome of day 4. *)
Definition typed_data : Data :=
  Eval vm_compute in
    result example_data
      (handleProfitInput Math_pow_ref 66 0 3 "250" example_data).

(** The sign of day 2 is changed to a loss. *)
Definition signed_data : Data :=
  Eval vm_compute in
    result example_data
      (handleSignChange Math_pow_ref 66 0 1 "-" example_data).

(** A trade is closed on day 1 with a loss of 5.125. *)
Definition closed_data : Data :=
  Eval vm_compute in
    result example_data
      (handleTradeClose Math_pow_ref no_toString 66 true 0 0
         (Fin (- (41 # 8))) example_data).

Definition first_day : Day :=
  Eval vm_compute in
    match day_at (months example_data) 0 0 with
    | Some d => d
    | None => day_with 0 "" (JStr "")
    end.

Definition new_total : Q :=
  Eval vm_compute in
    match add (signedProfit (json_day first_day)) (Fin (- (41 # 8))) with
    | Fin q => q
    | _ => 0
    end.

(** The second days of two journals with the same settings. *)
Definition second_day (ms : list Month) : Day :=
  match allDays ms !! 1%nat with
  | Some d => d
  | None => day_with 0 "" (JStr "")
  end.

(** Day [i] (from 0) of a journal. *)
Definition day_no (i : nat) (ms : list Month) : Day :=
  match allDays ms !! i with
  | Some d => d
  | None => day_with 0 "" (JStr "")
  end.

(** The months of an array without holes. *)
Definition dense_months (o : outcome (list (option Month)))
  : outcome (list Month) :=
  match o with
  | Done a => match dense a with Some ms => Done ms | None => TypeError end
  | OutOfFuel => OutOfFuel
  | TypeError => TypeError
  end.

(** A calendar five hours west of UTC.  Every [Date] of the plan is
    19:00 local time, which is midnight UTC of the next day: a [Date] is
    the number of its local day, and its text is the date of the day
    after. *)
Definition west : Calendar :=
  {| Date := Z;
     demoDate := 20408%Z;
     getDay := fun d => ((d + 4) mod 7)%Z;
     addDays := fun k d => (d + k)%Z;
     isoDate := fun d => utc_isoDate (d + 1);
     monthYear := utc_monthYear |}.

(** The plan is rebuilt with six days. *)
Definition rebuilt_data : Data :=
  Eval vm_compute in
    result example_data
      (handleUpdateTargets (C := utc) Math_pow_ref 8 "50000" "1000000" "6"
         example_data).

(** 1234.565 is shown as 1234.57 and read back as that. *)
Lemma toFixed2_round_trip_witness :
  toFixed2 no_toString (Fin (1234565 # 1000)) <> ""%string /\
  StringToNumber (toFixed2 no_toString (Fin (1234565 # 1000))) =
  rnd64 (inject_Z (cents (1234565 # 1000)) / 100).
Proof.
  apply (toFixed2_round_trip no_toString (1234565 # 1000)).
  - vm_compute. discriminate.
  - vm_compute. reflexivity.
Defined.

(** Two journals under the default settings have the same goals on
    day 2. *)
Lemma goals_depend_on_settings_only_witness :
  target (second_day small_gains_result) =
    target (second_day near_target_result) /\
  profit (second_day small_gains_result) =
    profit (second_day near_target_result).
Proof.
  apply (proj1 (goals_depend_on_settings_only Math_pow_ref 66
                  (example_config small_gains) (example_config near_target)
                  small_gains_result near_target_result
                  eq_refl eq_refl eq_refl small_gains_run near_target_run)
           1%nat).
  - exact (eq_refl : allDays small_gains_result !! 1%nat
                     = Some (second_day small_gains_result)).
  - exact (eq_refl : allDays near_target_result !! 1%nat
                     = Some (second_day near_target_result)).
Defined.

(** After 250 is typed on day 4 the journal is a recalculated one. *)
Lemma recording_settles_witness :
  recalculatePlan Math_pow_ref 66 (fullData typed_data)
    = Done (months typed_data) /\
  settings typed_data = settings (json_data example_data) /\
  hiddenSymbols typed_data = hiddenSymbols example_data.
Proof.
  apply (recording_settles Math_pow_ref no_toString 66 0 3 "250" "+"
           (Fin 0) example_data typed_data).
  left. vm_compute. reflexivity.
Defined.

(** Changing the sign of day 2 changes the journal of day 2 only. *)
Lemma recording_touches_one_day_witness :
  touches (sign_change "-") 0 1 example_data signed_data.
Proof.
  apply (proj1 (proj2 (recording_touches_one_day Math_pow_ref no_toString 66
                         0 1 "" "-" (Fin 0) example_data signed_data))).
  vm_compute. reflexivity.
Defined.

(** The first month of the example has no day 5. *)
Lemma handlers_fail_without_day_witness :
  handleProfitInput Math_pow_ref 66 0 4 "250" example_data = TypeError.
Proof.
  apply (proj1 (handlers_fail_without_day Math_pow_ref no_toString 66 0 4
                  "250" "+" (Fin 0) Logic example_data)).
  reflexivity.
Defined.

(** 250 on day 4 is below the goal of that day. *)
Lemma achieved_means_goal_reached_witness :
  exists d',
    day_at (months typed_data) 0 3 = Some d' /\
    achieved d' = geb (signedProfit d') (ToNumber (json_val (profit d'))).
Proof.
  apply (achieved_means_goal_reached Math_pow_ref 66 0 3 "250" "+"
           example_data typed_data).
  - vm_compute. repeat split.
  - vm_compute. reflexivity.
  - left. vm_compute. reflexivity.
Defined.

(** Day 1 stands at +0.40; a trade closed at -5.125 leaves -4.73 (the
    total is a little above -4.725). *)
Lemma handleTradeClose_accumulates_witness :
  exists d',
    day_at (months closed_data) 0 0 = Some d' /\
    actual d' = JStr (toFixed2 no_toString (Fin (Qabs new_total))) /\
    pnlSign d' = (if geb (Fin new_total) num0 then "+" else "-")%string /\
    is_recorded (actual d') = true /\
    let amount := rnd64 (inject_Z (cents (Qabs new_total)) / 100) in
    signedProfit d' = if geb (Fin new_total) num0 then amount else neg amount.
Proof.
  apply (handleTradeClose_accumulates Math_pow_ref no_toString 66 0 0
           (Fin (- (41 # 8))) example_data closed_data first_day new_total).
  - vm_compute. reflexivity.
  - vm_compute. reflexivity.
  - vm_compute. reflexivity.
  - vm_compute. reflexivity.
Defined.

(** BTC/USD is hidden in the example; toggling it twice hides it
    again. *)
Lemma handleSymbolVisibilityChange_toggles_witness :
  let hidden := default [] (hiddenSymbols example_data) in
  let data' := handleSymbolVisibilityChange "BTC/USD" example_data in
  let data'' := handleSymbolVisibilityChange "BTC/USD" data' in
  exists hidden' hidden'',
    hiddenSymbols data' = Some hidden' /\
    hiddenSymbols data'' = Some hidden'' /\
    ("BTC/USD"%string ∈ hidden' <-> "BTC/USD"%string ∉ hidden) /\
    (forall s, s <> "BTC/USD"%string -> s ∈ hidden' <-> s ∈ hidden) /\
    (forall s, s ∈ hidden'' <-> s ∈ hidden) /\
    ("BTC/USD"%string ∉ hidden -> hidden'' = hidden) /\
    months data' = months example_data /\
    settings data' = settings example_data /\
    (forall s : Trader.Symbol,
       s ∈ Desk.visibleSymbols hidden' <->
       s ∈ Trader.ALL_SYMBOLS /\
       (Trader.name s = "BTC/USD"%string <-> Trader.name s ∈ hidden)) /\
    Desk.visibleSymbols hidden'' = Desk.visibleSymbols hidden.
Proof.
  apply (handleSymbolVisibilityChange_toggles "BTC/USD" example_data).
Defined.

(** The third day of the example is found by its date. *)
Lemma today_is_first_match_witness :
  exists d,
    day_at (months example_data) 0 2 = Some d /\
    todayData (today example_data "2025-11-19") = Some d /\
    date d = "2025-11-19"%string /\
    Forall (fun d0 => date d0 <> "2025-11-19"%string)
      (take (position (months example_data) 0 2)
         (allDays (months example_data))).
Proof.
  apply (proj1 (today_is_first_match example_data "2025-11-19")).
  reflexivity.
Defined.

(** The day after Friday, 21 November 2025 is Monday the 24th. *)
Lemma getNextTradingDay_first_weekday_witness :
  let d1 := addDays (Calendar := utc) 1%Z 20413%Z in
  let d2 := addDays (Calendar := utc) 1%Z d1 in
  let d3 := addDays (Calendar := utc) 1%Z d2 in
  exists r,
    getNextTradingDay (C := utc) 2 20413%Z = Done r /\
    isWeekend (C := utc) r = false /\
    (r = d1 \/
     isWeekend (C := utc) d1 = true /\ r = d2 \/
     isWeekend (C := utc) d1 = true /\ isWeekend (C := utc) d2 = true /\
     r = d3).
Proof.
  apply (getNextTradingDay_first_weekday (C := utc) (L := utc_laws) 2
           20413%Z).
  lia.
Defined.



Lemma west_laws : CalendarLaws west.
Proof.
  split; cbn [getDay addDays west Date]; intros.
  - apply Z.mod_pos_bound. lia.
  - rewrite <- Z.add_assoc, (Z.add_comm k 4), Z.add_assoc.
    now rewrite Z.add_mod_idemp_l by lia.
Qed.

(** West of UTC the dates of a plan of six days are 18 to 22 and 25
    November 2025: the fifth is a Saturday, and today is the 18th. *)
Lemma plan_dates_west_of_utc :
  (date <$> allDays
     (result [] (dense_months
        (generatePlanStructure (C := west) 8 (num 6) [])))) =
  ["2025-11-18"; "2025-11-19"; "2025-11-20"; "2025-11-21"; "2025-11-22";
   "2025-11-25"]%string /\
  getTodayDateString (C := west) = "2025-11-18"%string.
Proof. vm_compute. split; reflexivity. Qed.


(** The journal that is made for a new user, with the calendar of the
    example. *)
Lemma createNewJournal_default_witness :
  exists data d,
    createNewJournal (C := utc) Math_pow_ref 68 = Done data /\
    settings data = (Some (Fin 50000), Some (Fin 1000000), Some (Fin 66)) /\
    hiddenSymbols data = Some [] /\ version data = Some (Fin 2) /\
    length (months data) = 3%nat /\
    length (allDays (months data)) = 66%nat /\
    recalculatePlan Math_pow_ref 68 (fullData data) = Done (months data) /\
    today data (getTodayDateString (C := utc)) = mkToday 0 0 (Some d) true.
Proof.
  apply (createNewJournal_default (C := utc) (L := utc_laws) Math_pow_ref 68).
  lia.
Defined.

(** A tenure of -5 leaves a journal without days. *)
Lemma no_plan_without_tenure_witness :
  exists data',
    handleUpdateTargets (C := utc) Math_pow_ref 66 "50000" "1000000" "-5"
      example_data = Done data' /\
    tenure data' = Some (Fin (-5)) /\ months data' = [] /\
    isTodayFound (today data' "2025-11-17") = false /\
    todayData (today data' "2025-11-17") = None.
Proof.
  apply (proj2 (no_plan_without_tenure (C := utc) Math_pow_ref 66 (Fin 0)
                  "50000" "1000000" "-5" example_data (-5) "2025-11-17")).
  - vm_compute. reflexivity.
  - vm_compute. reflexivity.
  - lia.
Defined.

(** The example rebuilt with six days keeps what was written on its four
    days: the second day has the journal it had, and the sixth, which is
    new, the default journal. *)
Lemma handleUpdateTargets_keeps_journal_witness :
  entries (day_no 1 (months rebuilt_data)) =
    match allDays (months example_data) !! 1%nat with
    | Some e => entries e
    | None => (isoDate (Calendar := utc) (tradingDay (C := utc) 1), false,
               "+"%string, JStr "", ""%string, ""%string, ""%string,
               DEFAULT_RULES)
    end /\
  entries (day_no 5 (months rebuilt_data)) =
    match allDays (months example_data) !! 5%nat with
    | Some e => entries e
    | None => (isoDate (Calendar := utc) (tradingDay (C := utc) 5), false,
               "+"%string, JStr "", ""%string, ""%string, ""%string,
               DEFAULT_RULES)
    end.
Proof.
  assert (K := fun H1 H2 H3 H4 H5 H6 H7 =>
            handleUpdateTargets_keeps_journal (C := utc) (L := utc_laws)
              Math_pow_ref 8 6 "50000" "1000000" "6" example_data
              rebuilt_data H1 H2 H3 H4 H5 H6 H7).
  cbv zeta in K.
  split; apply K; try (vm_compute; reflexivity); try lia.
  all: try (vm_compute; discriminate).
  all: try (apply (bool_decide_unpack _); vm_compute; exact I).
  all: repeat constructor; try discriminate; eexists; reflexivity.
Defined.

End JournalExamples.
